(** * Money Manager Pro: amount parsing, balance recomputation, parity, sync

    A shallow embedding of the core of [dashboard.py]:
    [parse_amount_idr], [recompute_all_balances], the row decoding shared by
    [get_all_data] and [check_parity_against_api], the parity check itself,
    the realtime watcher and the sheet checksum.

    Conventions of the embedding.
    - A Python [str] is a Rocq [string], one [ascii] per code point; the
      text model therefore covers code points below 256.
    - A Python [float] is an IEEE 754 binary64 number, [spec_float] at
      precision 53 and maximal exponent 1024, with the operations of
      [SpecFloat].
    - A raised exception is a value of [result]. *)

From Stdlib Require Import ZArith List Ascii String Bool Lia DecimalString.
From Stdlib Require Import SpecFloat.
From Stdlib Require DecimalZ DecimalPos.
From stdpp Require Import base option list gmap strings.

Open Scope Z_scope.
Open Scope string_scope.

(** ** Exceptions *)

Inductive exn : Type :=
| ValueError
| OverflowError
| KeyError
| IOError.

Inductive result (A : Type) : Type :=
| Ok (a : A)
| Raise (e : exn).
Arguments Ok {A} a.
Arguments Raise {A} e.

Definition rbind {A B} (r : result A) (k : A -> result B) : result B :=
  match r with
  | Ok a => k a
  | Raise e => Raise e
  end.

#[global] Instance result_bind : MBind result := fun _ _ k r => rbind r k.
#[global] Instance result_ret : MRet result := fun _ a => Ok a.

(** [try: c except Exception: d] *)
Definition try_except {A} (c : result A) (d : A) : A :=
  match c with
  | Ok a => a
  | Raise _ => d
  end.

(** ** Python floats *)

Definition float : Type := spec_float.

Definition prec : Z := 53.
Definition emax : Z := 1024.

Definition fzero : float := S754_zero false.
Definition fadd : float -> float -> float := SFadd prec emax.
Definition fsub : float -> float -> float := SFsub prec emax.
Definition fdiv : float -> float -> float := SFdiv prec emax.
Definition fneg : float -> float := SFopp.
Definition fabs : float -> float := SFabs.
Definition fltb : float -> float -> bool := SFltb.

Definition is_nan (x : float) : bool :=
  match x with
  | S754_nan => true
  | _ => false
  end.

(** [float(n)] for an [int]: the nearest binary64, [OverflowError] when
    that is out of range. *)
Definition float_of_int (n : Z) : result float :=
  match binary_normalize prec emax n 0 false with
  | S754_infinity _ => Raise OverflowError
  | x => Ok x
  end.

(** Exact [int] of a whole float literal, used for constants. *)
Definition fint (n : Z) : float := binary_normalize prec emax n 0 false.

(** [round(x)] with one argument: the nearest [int], a half going to the
    even neighbour; [ValueError] on NaN, [OverflowError] on an infinity. *)
Definition round_half_even (m : Z) (d : Z) : Z :=
  let q := m / d in
  let r := m mod d in
  match 2 * r ?= d with
  | Lt => q
  | Gt => q + 1
  | Eq => if Z.even q then q else q + 1
  end.

Definition py_round (x : float) : result Z :=
  match x with
  | S754_nan => Raise ValueError
  | S754_infinity _ => Raise OverflowError
  | S754_zero _ => Ok 0
  | S754_finite s m e =>
      let a := match e with
               | Zneg p => round_half_even (Zpos m) (2 ^ Zpos p)
               | _ => Zpos m * 2 ^ e
               end in
      Ok (if s then - a else a)
  end.

(** [float(int(round(val)))] *)
Definition round_idr (val : float) : result float :=
  n ← py_round val; float_of_int n.

(** ** Python strings *)

Definition chars (s : string) : list ascii := list_ascii_of_string s.
Definition text (l : list ascii) : string := string_of_list_ascii l.

Definition code (c : ascii) : N := N_of_ascii c.

(** [ch.isdigit()]: the ten ASCII digits and the three superscript digits
    of Latin-1. *)
Definition is_ascii_digit (c : ascii) : bool :=
  ((48 <=? code c) && (code c <=? 57))%N.

Definition ch_isdigit (c : ascii) : bool :=
  is_ascii_digit c
  || (code c =? 178)%N || (code c =? 179)%N || (code c =? 185)%N.

(** [s.isdigit()]: every character a digit, and at least one. *)
Definition isdigit (s : string) : bool :=
  match chars s with
  | [] => false
  | l => forallb ch_isdigit l
  end.

(** Whitespace for [str.strip()]. *)
Definition ch_isspace (c : ascii) : bool :=
  ((9 <=? code c) && (code c <=? 13))%N
  || ((28 <=? code c) && (code c <=? 32))%N
  || (code c =? 133)%N || (code c =? 160)%N.

Fixpoint lstrip_l (l : list ascii) : list ascii :=
  match l with
  | c :: l' => if ch_isspace c then lstrip_l l' else l
  | [] => []
  end.

Definition strip (s : string) : string :=
  text (rev (lstrip_l (rev (lstrip_l (chars s))))).

(** [s.upper()] on the letters a-z. The other Latin-1 letters go to
    non-ASCII letters or, for the sharp s, to a double S; neither occurs in
    the literals this program compares an upper-cased text with. *)
Definition ch_upper (c : ascii) : ascii :=
  if ((97 <=? code c) && (code c <=? 122))%N
  then ascii_of_N (code c - 32)
  else c.

Definition upper (s : string) : string := text (map ch_upper (chars s)).

(** [old] is a prefix of [l] *)
Fixpoint starts_with (old l : list ascii) : bool :=
  match old, l with
  | [], _ => true
  | a :: old', b :: l' => if Ascii.eqb a b then starts_with old' l' else false
  | _ :: _, [] => false
  end.

(** [s.replace(old, new)] for a non-empty [old]: occurrences are replaced
    from the left and do not overlap. [skip] counts the characters of a match
    still to be dropped. *)
Fixpoint replace_l (old new : list ascii) (skip : nat) (l : list ascii)
  : list ascii :=
  match l with
  | [] => []
  | c :: l' =>
      match skip with
      | S k => replace_l old new k l'
      | O =>
          if starts_with old l
          then (new ++ replace_l old new (Nat.pred (length old)) l')%list
          else c :: replace_l old new O l'
      end
  end.

Definition replace (old new s : string) : string :=
  text (replace_l (chars old) (chars new) O (chars s)).

(** [sub in s] for a one-character [sub] *)
Definition contains (c : ascii) (s : string) : bool :=
  existsb (Ascii.eqb c) (chars s).

(** [s.split(sep)] for a one-character separator *)
Fixpoint split_l (sep : ascii) (cur : list ascii) (l : list ascii)
  : list (list ascii) :=
  match l with
  | [] => [rev cur]
  | c :: l' =>
      if Ascii.eqb c sep
      then rev cur :: split_l sep [] l'
      else split_l sep (c :: cur) l'
  end.

Definition split (sep : ascii) (s : string) : list string :=
  map text (split_l sep [] (chars s)).

(** [s.rfind(c)]: the last index of [c], or -1 *)
Fixpoint rfind_l (c : ascii) (i : Z) (last : Z) (l : list ascii) : Z :=
  match l with
  | [] => last
  | a :: l' => rfind_l c (i + 1) (if Ascii.eqb a c then i else last) l'
  end.

Definition rfind (c : ascii) (s : string) : Z := rfind_l c 0 (-1) (chars s).

Definition startswith (c : ascii) (s : string) : bool :=
  match chars s with
  | a :: _ => Ascii.eqb a c
  | [] => false
  end.

Definition endswith (c : ascii) (s : string) : bool :=
  match rev (chars s) with
  | a :: _ => Ascii.eqb a c
  | [] => false
  end.

(** [s[1:-1]] *)
Definition slice_1_m1 (s : string) : string :=
  text (removelast (tl (chars s))).

(** ** Amount parsing *)

(** A cell as fetched with [UNFORMATTED_VALUE]: text, a number or a
    boolean; [CNone] is Python's [None]. To the arithmetic of this code a
    boolean is the [int] 0 or 1. *)
Inductive cell : Type :=
| CNone
| CBool (b : bool)
| CInt (n : Z)
| CFloat (x : float)
| CStr (s : string).

Definition keep_char (c : ascii) : bool :=
  ch_isdigit c || existsb (Ascii.eqb c) (chars ",.-()").

Definition _only_digits (s : string) : string :=
  text (List.filter keep_char (chars s)).

(** [float(s)] for a text over digits, sign, dot and the characters
    [_only_digits] lets through: an optional sign, then digits with at most
    one dot and at least one digit. The value is the binary64 nearest to
    the decimal. Exponents, [inf], [nan] and underscores need characters
    that [_only_digits] has removed. *)
Fixpoint span_digits (l : list ascii) : list ascii * list ascii :=
  match l with
  | c :: l' =>
      if is_ascii_digit c
      then let '(d, r) := span_digits l' in (c :: d, r)
      else ([], l)
  | [] => ([], [])
  end.

Definition digits_val (l : list ascii) : Z :=
  fold_left (fun acc c => 10 * acc + (Z.of_N (code c) - 48)) l 0.

Definition decimal_val (neg : bool) (ip fp : list ascii) : float :=
  match digits_val (ip ++ fp)%list with
  | Zpos n =>
      fdiv (S754_finite neg n 0)
           (S754_finite false (Z.to_pos (10 ^ Z.of_nat (length fp))) 0)
  | _ => S754_zero neg
  end.

Definition float_of_str (s : string) : result float :=
  let l := chars s in
  let '(neg, l) :=
    match l with
    | "-"%char :: l' => (true, l')
    | "+"%char :: l' => (false, l')
    | _ => (false, l)
    end in
  let '(ip, rest) := span_digits l in
  match rest with
  | [] =>
      match ip with
      | [] => Raise ValueError
      | _ => Ok (decimal_val neg ip [])
      end
  | "."%char :: rest' =>
      let '(fp, rest'') := span_digits rest' in
      match rest'', (ip ++ fp)%list with
      | [], _ :: _ => Ok (decimal_val neg ip fp)
      | _, _ => Raise ValueError
      end
  | _ => Raise ValueError
  end.

(** Lines 110-125: decide which of [,] and [.] is the decimal separator. *)
Definition separators (s : string) : string :=
  if contains "," s && contains "." s then
    if rfind "," s >? rfind "." s
    then replace "," "." (replace "." "" s)
    else replace "," "" s
  else if contains "," s && negb (contains "." s) then
    let parts := split "," s in
    if (length parts =? 2)%nat && isdigit (nth 1 parts "")
    then replace "," "." (replace "." "" s)
    else replace "," "" s
  else if contains "." s && negb (contains "," s) then
    let parts := split "." s in
    if (1 <? length parts)%nat
       && forallb (fun p => (String.length p =? 3)%nat) (tl parts)
    then replace "." "" s
    else s
  else s.

Definition currency_tokens : list string := ["Rp"; "rp"; "IDR"; "idr"; " "].

(** [CONFIG['idr_decimals']] is 0, so the rounding is [round_idr]. *)
Definition parse_amount_idr (v : cell) : result float :=
  match v with
  | CNone => Ok fzero
  | CBool b => val ← float_of_int (Z.b2z b); round_idr val
  | CInt n => val ← float_of_int n; round_idr val
  | CFloat x => round_idr x
  | CStr s0 =>
      let s := strip s0 in
      if String.eqb s "" then Ok fzero else
      let s := fold_left (fun s token => replace token "" s) currency_tokens s in
      let s := _only_digits s in
      let '(neg, s) :=
        if startswith "(" s && endswith ")" s
        then (true, slice_1_m1 s) else (false, s) in
      let s := separators s in
      let val := try_except (float_of_str s) fzero in
      let val := if neg then fneg val else val in
      round_idr val
  end.

(** ** The ledger table *)

Definition BANK_LIST : list string :=
  ["BCA"; "Mandiri"; "BNI"; "BRI"; "Cimb Niaga"; "BTN"; "Danamon";
   "DANA"; "OVO"; "GOPAY"; "LINK AJA"].

Definition HEADERS : list string :=
  (["No."; "Tanggal"; "User ID"; "Bank/EWallet"; "Keterangan";
    "Credit"; "Debit"; "Saldo Akhir"] ++ BANK_LIST)%list.

Definition MONEY_COLS : list string :=
  (["Credit"; "Debit"; "Saldo Akhir"] ++ BANK_LIST)%list.

(** One row of the data frame built with [columns=HEADERS]: the five
    non-money columns, the three money columns, and one column per
    account, keyed by the account's name. *)
Record Row : Type := mkRow {
  No : Z;
  Tanggal : cell;
  User_ID : cell;
  Bank_EWallet : cell;
  Keterangan : cell;
  Credit : float;
  Debit : float;
  Saldo_Akhir : float;
  balances : gmap string float
}.

#[global] Instance float_inhabited : Inhabited float := populate fzero.

(** [str(v).strip()] for a text cell. For a number [str] gives digits, a
    sign, a dot, an exponent or one of inf and nan, and for [None] the
    word None: none of them is, even upper-cased, one of the literals the
    recomputation compares with, which [None] records. *)
Definition str_strip (v : cell) : option string :=
  match v with
  | CStr s => Some (strip s)
  | _ => None
  end.

(** [float(x or 0)] *)
Definition or_zero (x : float) : float :=
  match x with
  | S754_zero _ => fzero
  | _ => x
  end.

(** [float(val) if pd.notna(val) else 0.0], a missing column reading as
    not available *)
Definition notna_or_zero (val : option float) : float :=
  match val with
  | Some x => if is_nan x then fzero else x
  | None => fzero
  end.

Definition is_system_init (r : Row) : bool :=
  match str_strip (User_ID r), str_strip (Bank_EWallet r) with
  | Some user, Some bank =>
      String.eqb (upper user) "SYSTEM" && String.eqb (upper bank) "SALDO AWAL"
  | _, _ => false
  end.

(** [bank in BANK_LIST], with the account it names *)
Definition known_bank (r : Row) : option string :=
  match str_strip (Bank_EWallet r) with
  | Some bank => if bool_decide (bank ∈ BANK_LIST) then Some bank else None
  | None => None
  end.

(** [sum(xs)]: the additions run from the left, starting at 0. *)
Definition py_sum (xs : list float) : float := fold_left fadd xs fzero.

(** [running.values()], in the insertion order of the keys *)
Definition values (running : gmap string float) : list float :=
  map (fun b => running !!! b) BANK_LIST.

Definition running0 : gmap string float :=
  list_to_map (map (fun b => (b, fzero)) BANK_LIST).

(** Lines 356-362: the effect of one row on the running balances. *)
Definition update_running (running : gmap string float) (r : Row)
  : gmap string float :=
  let credit := or_zero (Credit r) in
  let debit := or_zero (Debit r) in
  if is_system_init r then
    fold_left (fun run b => <[b := notna_or_zero (balances r !! b)]> run)
              BANK_LIST running
  else
    match known_bank r with
    | Some bank =>
        <[bank := fadd (running !!! bank) (fsub credit debit)]> running
    | None => running
    end.

(** Lines 350 and 363-365: the copy of the row that [iterrows] yields, with
    the account columns and 'Saldo Akhir' written. *)
Definition emit (running : gmap string float) (r : Row) : Row :=
  {| No := No r;
     Tanggal := Tanggal r;
     User_ID := User_ID r;
     Bank_EWallet := Bank_EWallet r;
     Keterangan := Keterangan r;
     Credit := Credit r;
     Debit := Debit r;
     Saldo_Akhir := py_sum (values running);
     balances := fold_left (fun m b => <[b := running !!! b]> m)
                           BANK_LIST (balances r) |}.

Fixpoint recompute_from (running : gmap string float) (df : list Row)
  : list Row :=
  match df with
  | [] => []
  | r :: df' =>
      let running' := update_running running r in
      emit running' r :: recompute_from running' df'
  end.

(** *** The data frame

    The records become a frame by [pd.DataFrame] (lines 303 and 946), and
    the recomputation reads the frame row by row with [df.iterrows()]
    (line 349). Both can turn a number of the columns 'No.', 'Tanggal',
    'User ID', 'Bank/EWallet' and 'Keterangan' into a float; the money
    columns hold floats from the start. *)

(** The type pandas infers for a column from its cells. *)
Inductive dtype : Type :=
| dt_int64
| dt_uint64
| dt_float64
| dt_bool
| dt_object.

Definition is_number (c : cell) : bool :=
  match c with
  | CInt _ | CFloat _ => true
  | _ => false
  end.

Definition is_float (c : cell) : bool :=
  match c with
  | CFloat _ => true
  | _ => false
  end.

Definition is_bool (c : cell) : bool :=
  match c with
  | CBool _ => true
  | _ => false
  end.

Definition is_missing (c : cell) : bool :=
  match c with
  | CNone => true
  | _ => false
  end.

(** An integer cell whose number satisfies [p] *)
Definition int_where (p : Z -> bool) (c : cell) : bool :=
  match c with
  | CInt n => p n
  | _ => false
  end.

(** A text anywhere makes the column [object], and so do booleans next to
    anything else; booleans alone make it [bool]. Numbers, with or without
    missing cells, make a numeric column: [float64] when one cell is a float
    or is missing, [uint64] when an integer is above the range of [int64],
    [int64] otherwise; integers out of the 64-bit ranges, or negative ones
    next to ones above the range of [int64], leave it [object]. *)
Definition infer_dtype (col : list cell) : dtype :=
  if forallb (fun c => is_number c || is_missing c) col
     && existsb is_number col
  then
    if existsb (int_where (fun n => ((n <? - 2 ^ 63) || (2 ^ 64 <=? n))%Z)) col
       || (existsb (int_where (fun n => (n <? 0)%Z)) col
           && existsb (int_where (fun n => (2 ^ 63 <=? n)%Z)) col)
    then dt_object
    else if existsb is_float col || existsb is_missing col then dt_float64
    else if existsb (int_where (fun n => (2 ^ 63 <=? n)%Z)) col then dt_uint64
    else dt_int64
  else if forallb is_bool col && existsb is_bool col then dt_bool
  else dt_object.

Definition numeric (dt : dtype) : bool :=
  match dt with
  | dt_int64 | dt_uint64 | dt_float64 => true
  | _ => false
  end.

(** A cell as a [float64] column or row holds it. *)
Definition float64_cell (c : cell) : cell :=
  match c with
  | CInt n => CFloat (fint n)
  | CNone => CFloat S754_nan
  | _ => c
  end.

(** The number of a float that is whole. *)
Definition float64_value (x : float) : Z :=
  match x with
  | S754_finite s m e =>
      let a := match e with
               | Zneg p => Zpos m / 2 ^ Zpos p
               | _ => Zpos m * 2 ^ e
               end in
      if s then - a else a
  | _ => 0
  end.

(** The cell of a column in the frame: a [float64] column holds floats. *)
Definition column_cast (col : list cell) (c : cell) : cell :=
  match infer_dtype col with
  | dt_float64 => float64_cell c
  | _ => c
  end.

(** A record as the frame of [records] holds it. 'No.' is a column of
    integers, which the frame keeps. *)
Definition frame_row (records : list Row) (r : Row) : Row :=
  {| No := No r;
     Tanggal := column_cast (map Tanggal records) (Tanggal r);
     User_ID := column_cast (map User_ID records) (User_ID r);
     Bank_EWallet := column_cast (map Bank_EWallet records) (Bank_EWallet r);
     Keterangan := column_cast (map Keterangan records) (Keterangan r);
     Credit := Credit r; Debit := Debit r;
     Saldo_Akhir := Saldo_Akhir r; balances := balances r |}.

(** [pd.DataFrame(norm, columns=HEADERS)] *)
Definition data_frame (records : list Row) : list Row :=
  map (frame_row records) records.

(** The rows of a frame come out of [iterrows] with one type for all
    their cells: [float64] when every column is numeric, [object]
    otherwise. *)
Definition float64_rows (df : list Row) : bool :=
  numeric (infer_dtype (map (fun r => CInt (No r)) df))
  && numeric (infer_dtype (map Tanggal df))
  && numeric (infer_dtype (map User_ID df))
  && numeric (infer_dtype (map Bank_EWallet df))
  && numeric (infer_dtype (map Keterangan df)).

(** A row of type [float64]. [No] keeps the number that the float of
    'No.' has. *)
Definition float64_row (r : Row) : Row :=
  {| No := float64_value (fint (No r));
     Tanggal := float64_cell (Tanggal r);
     User_ID := float64_cell (User_ID r);
     Bank_EWallet := float64_cell (Bank_EWallet r);
     Keterangan := float64_cell (Keterangan r);
     Credit := Credit r; Debit := Debit r;
     Saldo_Akhir := Saldo_Akhir r; balances := balances r |}.

(** A row of the frame [df] as [iterrows] yields it. *)
Definition iter_row (df : list Row) (r : Row) : Row :=
  if float64_rows df then float64_row r else r.

(** [df.iterrows()] *)
Definition iterrows (df : list Row) : list Row := map (iter_row df) df.

(** Lines 343-367: the rows that [iterrows] yields are folded, and
    [pd.DataFrame(out_rows)] infers the types of the columns again. *)
Definition recompute_all_balances (df : list Row) : list Row :=
  data_frame (recompute_from running0 (iterrows df)).

(** The record that [recompute_all_balances] gives for a row of [df], seen
    from the record emitted for the row as it is. *)
Definition out_row (df : list Row) (r : Row) : Row :=
  frame_row (recompute_from running0 (iterrows df)) (iter_row df r).

(** What the recomputation reads of a row and what it leaves of it,
    whatever the type of the cells: the user and the account when they are
    texts, and the amounts. *)
Definition same_amounts (r1 r2 : Row) : Prop :=
  str_strip (User_ID r1) = str_strip (User_ID r2) /\
  str_strip (Bank_EWallet r1) = str_strip (Bank_EWallet r2) /\
  Credit r1 = Credit r2 /\ Debit r1 = Debit r2 /\
  Saldo_Akhir r1 = Saldo_Akhir r2 /\ balances r1 = balances r2.

(** The running balances after a prefix of the rows. *)
Definition running_after (df : list Row) : gmap string float :=
  fold_left update_running df running0.

(** [df = df[HEADERS].copy(); df["No."] = range(1, len(df)+1)] *)
Definition select_headers (r : Row) : Row :=
  {| No := No r;
     Tanggal := Tanggal r;
     User_ID := User_ID r;
     Bank_EWallet := Bank_EWallet r;
     Keterangan := Keterangan r;
     Credit := Credit r;
     Debit := Debit r;
     Saldo_Akhir := Saldo_Akhir r;
     balances := filter (fun kv => kv.1 ∈ BANK_LIST) (balances r) |}.

Definition set_no (n : Z) (r : Row) : Row :=
  {| No := n;
     Tanggal := Tanggal r;
     User_ID := User_ID r;
     Bank_EWallet := Bank_EWallet r;
     Keterangan := Keterangan r;
     Credit := Credit r;
     Debit := Debit r;
     Saldo_Akhir := Saldo_Akhir r;
     balances := balances r |}.

Definition renumber (df : list Row) : list Row :=
  imap (fun i r => set_no (Z.of_nat i + 1) r) df.

(** The snapshot as both [get_all_data] (lines 303-311) and the parity
    check (lines 946-951) derive it from the decoded records. *)
Definition recompute (df : list Row) : list Row :=
  renumber (map select_headers (recompute_all_balances (data_frame df))).

(** A record of [df] with its cells as the snapshot has them: those of
    the frame of [df], as [iterrows] yields them. *)
Definition snapshot_cells (df : list Row) (r : Row) : Row :=
  iter_row (data_frame df) (frame_row df r).

(** The scenario of three rows: a reset to BCA 1000, a credit of 500 and a
    debit of 200 on BCA; and a fourth row with an unknown account. *)
Definition demo_row (user bank : string) (credit debit bca : Z) : Row :=
  {| No := 7; Tanggal := CStr "01/01/2024 10:00:00"; User_ID := CStr user;
     Bank_EWallet := CStr bank; Keterangan := CStr "";
     Credit := fint credit; Debit := fint debit; Saldo_Akhir := fzero;
     balances := <["BCA" := fint bca]> running0 |}.

Definition demo_rows : list Row :=
  [demo_row "system" " Saldo Awal " 0 0 1000; demo_row "ani" "BCA" 500 0 0;
   demo_row "ani" "BCA" 0 200 0; demo_row "ani" "bca" 50 0 0].

(** A frame of numbers only: the date is a serial number above 2^53. *)
Definition demo_numbers : list Row :=
  [{| No := 7; Tanggal := CInt (2 ^ 53 + 1); User_ID := CInt 12;
      Bank_EWallet := CInt 3; Keterangan := CInt 0;
      Credit := fint 500; Debit := fzero; Saldo_Akhir := fzero;
      balances := running0 |}].

(** The balances the record before row [i] shows, zero before the first. *)
Definition previous_balance (out : list Row) (i : nat) (b : string) : float :=
  match i with
  | O => fzero
  | S j =>
      match out !! j with
      | Some p => balances p !!! b
      | None => fzero
      end
  end.


(** What the recomputation reads of a row: the user, the account, credit
    and debit, and, on a reset row, the account columns. *)
Definition same_inputs (r1 r2 : Row) : Prop :=
  Tanggal r1 = Tanggal r2 /\ User_ID r1 = User_ID r2 /\
  Bank_EWallet r1 = Bank_EWallet r2 /\ Keterangan r1 = Keterangan r2 /\
  Credit r1 = Credit r2 /\ Debit r1 = Debit r2 /\
  (is_system_init r1 = true ->
   forall b, b ∈ BANK_LIST ->
     notna_or_zero (balances r1 !! b) = notna_or_zero (balances r2 !! b)).

(** Rows numbered from [k] on. *)
Definition number_from (k : Z) (df : list Row) : list Row :=
  imap (fun i r => set_no (Z.of_nat i + k) r) df.

(** ** The comma rule and the rounding as the specification words them *)

(** "If only [,] occurs and exactly two digits follow it, treat it as
    decimal; otherwise treat every [,] as a thousands separator and
    remove it." The digits that follow are those after the last comma. *)
Definition spec_two_digits_follow (s : string) : bool :=
  let tail := List.last (split "," s) "" in
  isdigit tail && (String.length tail =? 2)%nat.

Definition spec_comma_rule (s : string) : string :=
  if spec_two_digits_follow s
  then replace "," "." s
  else replace "," "" s.

(** "round-half-up": the nearest integer, a half going up. *)
Definition spec_round_half_up (x : float) : result Z :=
  match x with
  | S754_nan => Raise ValueError
  | S754_infinity _ => Raise OverflowError
  | S754_zero _ => Ok 0
  | S754_finite s m e =>
      match e with
      | Zneg p =>
          let d := 2 ^ Zpos p in
          let n := if s then - Zpos m else Zpos m in
          Ok ((2 * n + d) / (2 * d))
      | _ => Ok ((if s then - Zpos m else Zpos m) * 2 ^ e)
      end
  end.

(** A text of [n] digits, the first a 1 and the others 0: ten to the
    power [n - 1]. *)
Definition one_and_zeros (n : nat) : string :=
  text ("1"%char :: repeat "0"%char n).

(** Every comma of [s] dropped. *)
Definition without_commas (s : string) : string :=
  text (List.filter (fun c => negb (Ascii.eqb c ",")) (chars s)).

(** The text before the first [c] and the text after it. *)
Fixpoint before_l (c : ascii) (l : list ascii) : list ascii :=
  match l with
  | [] => []
  | x :: l' => if Ascii.eqb x c then [] else x :: before_l c l'
  end.

Fixpoint after_l (c : ascii) (l : list ascii) : list ascii :=
  match l with
  | [] => []
  | x :: l' => if Ascii.eqb x c then l' else after_l c l'
  end.

Definition before_comma (s : string) : string := text (before_l "," (chars s)).
Definition after_comma (s : string) : string := text (after_l "," (chars s)).

(** One comma only, and after it digits and nothing else, at least one. *)
Definition one_comma_then_digits (s : string) : bool :=
  negb (contains "," (after_comma s)) && isdigit (after_comma s).

(** ** Reading the sheet *)

(** The values of the sheet as fetched: the header row and the rows under
    it. *)
Definition grid : Type := list (list cell).

(** [{h: i for i, h in enumerate(header)}]: for a name that occurs twice
    the later column wins. Only the text keys are kept; the look-ups are by
    the texts of [HEADERS], and a key that is a number equals no text. *)
Definition header_index (header : list cell) : gmap string nat :=
  fold_left (fun idx ih =>
               match ih.2 with
               | CStr h => <[h := ih.1]> idx
               | _ => idx
               end)
            (imap pair header) ∅.

(** [r[idx[name]]] under [name in idx and idx[name] < len(r)] *)
Definition at_column (idx : gmap string nat) (r : list cell) (name : string)
  : option cell :=
  i ← idx !! name; r !! i.

(** The cell of column [h], the column "Saldo Akhir h" standing in for a
    missing account column, and the empty text for a missing cell. *)
Definition get_cell (idx : gmap string nat) (r : list cell) (h : string)
  : cell :=
  match at_column idx r h with
  | Some v => v
  | None =>
      if bool_decide (h ∈ BANK_LIST) then
        default (CStr "") (at_column idx r ("Saldo Akhir " +:+ h))
      else CStr ""
  end.

(** [int(x)] of a float: towards zero. *)
Definition py_int_float (x : float) : result Z :=
  match x with
  | S754_nan => Raise ValueError
  | S754_infinity _ => Raise OverflowError
  | S754_zero _ => Ok 0
  | S754_finite s m e =>
      let a := match e with
               | Zneg p => Zpos m / 2 ^ Zpos p
               | _ => Zpos m * 2 ^ e
               end in
      Ok (if s then - a else a)
  end.

(** The digits of [int(s)], single underscores allowed between them. *)
Fixpoint int_digits (acc : Z) (after_digit : bool) (l : list ascii)
  : option Z :=
  match l with
  | [] => if after_digit then Some acc else None
  | c :: l' =>
      if is_ascii_digit c
      then int_digits (10 * acc + (Z.of_N (code c) - 48)) true l'
      else if Ascii.eqb c "_" && after_digit then int_digits acc false l'
      else None
  end.

(** The blanks that [int] and [float] allow around a number: those of
    [str.strip()] other than the separators U+001C to U+001F. *)
Definition ch_isspace_num (c : ascii) : bool :=
  ((9 <=? code c) && (code c <=? 13))%N
  || (code c =? 32)%N || (code c =? 133)%N || (code c =? 160)%N.

Fixpoint lstrip_num (l : list ascii) : list ascii :=
  match l with
  | c :: l' => if ch_isspace_num c then lstrip_num l' else l
  | [] => []
  end.

Definition strip_num (s : string) : string :=
  text (rev (lstrip_num (rev (lstrip_num (chars s))))).

(** [int(s)] of a text *)
Definition py_int_str (s : string) : result Z :=
  let l := chars (strip_num s) in
  let '(neg, l) :=
    match l with
    | "-"%char :: l' => (true, l')
    | "+"%char :: l' => (false, l')
    | _ => (false, l)
    end in
  match int_digits 0 false l with
  | Some n => Ok (if neg then - n else n)
  | None => Raise ValueError
  end.

(** [int(v or 0)], and 0 when that raises *)
Definition coerce_no (v : cell) : Z :=
  try_except
    match v with
    | CNone => Ok 0
    | CBool b => Ok (Z.b2z b)
    | CInt n => Ok n
    | CFloat x => py_int_float x
    | CStr s => if String.eqb s "" then Ok 0 else py_int_str s
    end 0.

(** The account columns of a row, parsed in the order of [BANK_LIST]. *)
Fixpoint parse_accounts (idx : gmap string nat) (r : list cell)
    (banks : list string) : result (gmap string float) :=
  match banks with
  | [] => Ok ∅
  | b :: banks' =>
      x ← parse_amount_idr (get_cell idx r b);
      m ← parse_accounts idx r banks';
      Ok (<[b := x]> m)
  end.

(** One row of the sheet as a record over [HEADERS]: the money columns go
    through [parse_amount_idr], whose error ends the decoding. *)
Definition decode_row (idx : gmap string nat) (r : list cell) : result Row :=
  credit ← parse_amount_idr (get_cell idx r "Credit");
  debit ← parse_amount_idr (get_cell idx r "Debit");
  saldo ← parse_amount_idr (get_cell idx r "Saldo Akhir");
  accounts ← parse_accounts idx r BANK_LIST;
  Ok {| No := coerce_no (get_cell idx r "No.");
        Tanggal := get_cell idx r "Tanggal";
        User_ID := get_cell idx r "User ID";
        Bank_EWallet := get_cell idx r "Bank/EWallet";
        Keterangan := get_cell idx r "Keterangan";
        Credit := credit; Debit := debit; Saldo_Akhir := saldo;
        balances := accounts |}.

Fixpoint decode_rows (idx : gmap string nat) (rows : list (list cell))
  : result (list Row) :=
  match rows with
  | [] => Ok []
  | r :: rows' =>
      item ← decode_row idx r;
      items ← decode_rows idx rows';
      Ok (item :: items)
  end.

(** ** Writing the snapshot back *)

(** The header row that [ensure_headers] writes. *)
Definition header_row : list cell := map CStr HEADERS.

(** A record as a row of the store, in the column schema HEADERS: its
    number, its four other cells as they are, and its amounts as numbers;
    an account column that the record lacks is an empty cell. *)
Definition store_row (r : Row) : list cell :=
  ([CInt (No r); Tanggal r; User_ID r; Bank_EWallet r; Keterangan r;
    CFloat (Credit r); CFloat (Debit r); CFloat (Saldo_Akhir r)]
   ++ map (fun b => match balances r !! b with
                    | Some x => CFloat x
                    | None => CStr ""
                    end) BANK_LIST)%list.

(** The snapshot as a sheet: the header row HEADERS and one row for each
    record. *)
Definition materialize (snapshot : list Row) : grid :=
  header_row :: map store_row snapshot.

(** An amount that the rounding of [parse_amount_idr] leaves as it is: a
    whole number that is finite, the zero being the positive one. *)
Definition whole (x : float) : Prop := round_idr x = Ok x.

Definition whole_row (r : Row) : Prop :=
  whole (Credit r) /\ whole (Debit r) /\ whole (Saldo_Akhir r) /\
  forall b, b ∈ BANK_LIST -> whole (balances r !!! b).

(** The same float, bit for bit. *)
Definition same_float (x y : float) : bool :=
  match x, y with
  | S754_zero s, S754_zero t => Bool.eqb s t
  | S754_infinity s, S754_infinity t => Bool.eqb s t
  | S754_nan, S754_nan => true
  | S754_finite s m e, S754_finite t n f =>
      Bool.eqb s t && (m =? n)%positive && (e =? f)%Z
  | _, _ => false
  end.

Definition is_whole (x : float) : bool :=
  match round_idr x with
  | Ok y => same_float y x
  | Raise _ => false
  end.

Definition is_whole_row (r : Row) : bool :=
  is_whole (Credit r) && is_whole (Debit r) && is_whole (Saldo_Akhir r)
  && forallb (fun b => is_whole (balances r !!! b)) BANK_LIST.

Definition is_text (c : cell) : bool :=
  match c with
  | CStr _ => true
  | _ => false
  end.

(** A text in one of 'Tanggal', 'User ID', 'Bank/EWallet' and
    'Keterangan'. *)
Definition text_in (r : Row) : bool :=
  is_text (Tanggal r) || is_text (User_ID r) || is_text (Bank_EWallet r)
  || is_text (Keterangan r).

(** Some row of the table has a text in one of these four columns. *)
Definition has_text (df : list Row) : Prop :=
  Exists (fun r => text_in r = true) df.

(** A row with texts in all four, as every row that the program writes
    has: the time, the user, the account and the note. *)
Definition text_row (r : Row) : bool :=
  is_text (Tanggal r) && is_text (User_ID r) && is_text (Bank_EWallet r)
  && is_text (Keterangan r).

(** A table without rows, or with a row of texts: none of the four
    columns is numeric. *)
Definition text_columns (df : list Row) : Prop :=
  df = [] \/ Exists (fun r => text_row r = true) df.

(** Two credits of 1.7e308 on one account: the second balance is more than
    a float holds. *)
Definition demo_large : list Row :=
  [{| No := 1; Tanggal := CStr "01/01/2024 10:00:00"; User_ID := CStr "ani";
      Bank_EWallet := CStr "BCA"; Keterangan := CStr "setor";
      Credit := fint (17 * 10 ^ 307); Debit := fzero; Saldo_Akhir := fzero;
      balances := running0 |};
   {| No := 2; Tanggal := CStr "02/01/2024 10:00:00"; User_ID := CStr "ani";
      Bank_EWallet := CStr "BCA"; Keterangan := CStr "setor";
      Credit := fint (17 * 10 ^ 307); Debit := fzero; Saldo_Akhir := fzero;
      balances := running0 |}].

(** ** The parity check *)

Inductive parity : Type := OK | Drift | Unknown.

(** The lines of the drift report: "Jumlah baris berbeda" with the two
    row counts, "Total Credit berbeda", "Total Debit berbeda", "Saldo Akhir
    terakhir berbeda" with the two balances, and "b terakhir berbeda" with
    the two balances of account [b]. *)
Inductive diff : Type :=
| RowCount (api ui : nat)
| TotalCredit
| TotalDebit
| LastSaldo (api ui : Z)
| LastBank (b : string) (api ui : Z).

(** [parity_details_last]: the empty text it starts as, "Semua cocok
    (Dashboard = API).", the joined lines of a drift, or "Gagal cek
    parity:" with the error. *)
Inductive details : Type :=
| NoDetails
| AllMatch
| Diffs (lines : list diff)
| Failed (e : exn).

Record App : Type := mkApp {
  data : list Row;
  parity_state : parity;
  parity_details_last : details
}.

(** [1e-6] *)
Definition tolerance : float := fdiv (fint 1) (fint 1000000).

(** [abs(a - b) > 1e-6] *)
Definition differs (a b : float) : bool := fltb tolerance (fabs (fsub a b)).

(** *** [df[col].sum()]

    pandas puts 0 in the place of a value that is not available and has
    numpy add the column up ([np.add.reduce]). numpy adds fewer than 8
    values from the left; up to 128 values it keeps 8 partial sums, adds
    the values to them in turn, eight at a time, adds the partial sums up
    in pairs and then adds the values left over; more than 128 values it
    splits into two parts, the first one a multiple of 8 long, and adds
    the sums of the parts. The result is added to the 0 that the
    reduction starts from. *)

(** [r[j] += a[i + j]] for the blocks of eight that are left *)
Fixpoint add_blocks (k : nat) (r a : list float)
  : list float * list float :=
  match k with
  | O => (r, a)
  | S k' => add_blocks k' (zip_with fadd r (take 8 a)) (drop 8 a)
  end.

(** [((r0 + r1) + (r2 + r3)) + ((r4 + r5) + (r6 + r7))] *)
Definition add_pairs (r : list float) : float :=
  match r with
  | [r0; r1; r2; r3; r4; r5; r6; r7] =>
      fadd (fadd (fadd r0 r1) (fadd r2 r3)) (fadd (fadd r4 r5) (fadd r6 r7))
  | _ => fzero
  end.

(** The sum of 8 to 128 values *)
Definition block_sum (a : list float) : float :=
  let '(r, rest) :=
    add_blocks (length a / 8 - 1) (take 8 a) (drop 8 a) in
  fold_left fadd rest (add_pairs r).

(** [fuel] bounds the depth of the splitting; the length of the list is
    enough. *)
Fixpoint pairwise_sum (fuel : nat) (a : list float) : float :=
  let n := length a in
  if (n <? 8)%nat then fold_left fadd a fzero
  else if (n <=? 128)%nat then block_sum a
  else
    match fuel with
    | O => fzero
    | S fuel' =>
        let n2 := (n / 2 - (n / 2) mod 8)%nat in
        fadd (pairwise_sum fuel' (take n2 a)) (pairwise_sum fuel' (drop n2 a))
    end.

Definition pd_sum (xs : list float) : float :=
  let a := map (fun x => if is_nan x then fzero else x) xs in
  fadd fzero (pairwise_sum (length a) a).

(** [float(last[b])] *)
Definition account (r : Row) (b : string) : result float :=
  match balances r !! b with
  | Some x => Ok x
  | None => Raise KeyError
  end.

(** A line about two last balances, which it shows as integers. *)
Definition last_line (mk : Z -> Z -> diff) (a u : float)
  : result (list diff) :=
  if differs a u
  then x ← py_int_float a; y ← py_int_float u; Ok [mk x y]
  else Ok [].

Fixpoint bank_lines (banks : list string) (last_api last_ui : Row)
  : result (list diff) :=
  match banks with
  | [] => Ok []
  | b :: banks' =>
      a ← account last_api b;
      u ← account last_ui b;
      d ← last_line (LastBank b) a u;
      ds ← bank_lines banks' last_api last_ui;
      Ok (d ++ ds)%list
  end.

(** Lines 952-965: the lines of the report. *)
Definition parity_diffs (df_raw ui : list Row) : result (list diff) :=
  let d0 := if (length df_raw =? length ui)%nat then []
            else [RowCount (length df_raw) (length ui)] in
  match last df_raw, last ui with
  | Some last_api, Some last_ui =>
      let d1 := if differs (pd_sum (map Credit df_raw)) (pd_sum (map Credit ui))
                then [TotalCredit] else [] in
      let d2 := if differs (pd_sum (map Debit df_raw)) (pd_sum (map Debit ui))
                then [TotalDebit] else [] in
      d3 ← last_line LastSaldo (Saldo_Akhir last_api) (Saldo_Akhir last_ui);
      d4 ← bank_lines BANK_LIST last_api last_ui;
      Ok (d0 ++ d1 ++ d2 ++ d3 ++ d4)%list
  | _, _ => Ok d0
  end.

(** The body of the [try]: the state to show and, when it is assigned, the
    new text of the details. *)
Definition parity_run (fetch : result grid) (ui : list Row)
  : result (parity * option details) :=
  vals ← fetch;
  match vals with
  | [] | [_] => Ok (Unknown, None)
  | header :: rows =>
      df_raw ← decode_rows (header_index header) rows;
      match df_raw with
      | [] => Ok (Unknown, None)
      | _ =>
          diffs ← parity_diffs (recompute df_raw) ui;
          match diffs with
          | [] => Ok (OK, Some AllMatch)
          | _ => Ok (Drift, Some (Diffs diffs))
          end
      end
  end.

(** [check_parity_against_api], given what the fetch of the sheet returns
    or raises. *)
Definition check_parity_against_api (fetch : result grid) (app : App) : App :=
  match parity_run fetch (data app) with
  | Ok (state, Some text) =>
      {| data := data app; parity_state := state;
         parity_details_last := text |}
  | Ok (state, None) =>
      {| data := data app; parity_state := state;
         parity_details_last := parity_details_last app |}
  | Raise e =>
      {| data := data app; parity_state := Unknown;
         parity_details_last := Failed e |}
  end.

(** A sheet with the header row and one row: a credit of 1 on BCA. *)
Definition demo_sheet : grid :=
  [map CStr HEADERS;
   [CInt 1; CStr "01/01/2024 10:00:00"; CStr "ani"; CStr "BCA"; CStr "setor";
    CInt 1; CInt 0; CInt 0]].

(** The same sheet before the credit was entered: the amount is 0. *)
Definition demo_sheet_before : grid :=
  [map CStr HEADERS;
   [CInt 1; CStr "01/01/2024 10:00:00"; CStr "ani"; CStr "BCA"; CStr "setor";
    CInt 0; CInt 0; CInt 0]].

(** The application as it starts (lines 385-393). *)
Definition app0 : App :=
  {| data := []; parity_state := Unknown; parity_details_last := NoDetails |}.

(** [load_data] as far as the cache goes: the snapshot of the sheet, or
    no rows when the sheet has none or its reading raised. *)
Definition load_snapshot (fetch : result grid) : list Row :=
  match fetch with
  | Ok (header :: rows) =>
      try_except (df ← decode_rows (header_index header) rows;
                  Ok (recompute df)) []
  | _ => []
  end.

(** What the comparisons of the check come to. *)
Definition is_finite (x : float) : bool :=
  match x with
  | S754_zero _ | S754_finite _ _ _ => true
  | _ => false
  end.

Definition mismatch (api ui : list Row) : Prop :=
  length api <> length ui \/
  exists last_api last_ui,
    last api = Some last_api /\ last ui = Some last_ui /\
    (differs (pd_sum (map Credit api)) (pd_sum (map Credit ui)) = true \/
     differs (pd_sum (map Debit api)) (pd_sum (map Debit ui)) = true \/
     differs (Saldo_Akhir last_api) (Saldo_Akhir last_ui) = true \/
     exists b, b ∈ BANK_LIST /\
       differs (balances last_api !!! b) (balances last_ui !!! b) = true).

(** The last row has every account column, and its balances are finite. *)
Definition presentable (df : list Row) : bool :=
  match last df with
  | None => true
  | Some r =>
      is_finite (Saldo_Akhir r)
      && forallb (fun b => match balances r !! b with
                           | Some x => is_finite x
                           | None => false
                           end) BANK_LIST
  end.

(** The application after it loaded [demo_sheet_before]. *)
Definition demo_cache : App :=
  {| data := load_snapshot (Ok demo_sheet_before);
     parity_state := Unknown; parity_details_last := NoDetails |}.

(** The rows of [demo_sheet], decoded. *)
(** A sheet of two rows on BCA, credits of 2^53 and of 1, and the same
    sheet before the credit of 1 was entered. In floats 2^53 + 1 is
    2^53. *)
Definition demo_sheet_lost : grid :=
  [map CStr HEADERS;
   [CInt 1; CStr "01/01/2024 10:00:00"; CStr "ani"; CStr "BCA"; CStr "setor";
    CInt (2 ^ 53); CInt 0; CInt 0];
   [CInt 2; CStr "02/01/2024 10:00:00"; CStr "ani"; CStr "BCA"; CStr "setor";
    CInt 1; CInt 0; CInt 0]].

Definition demo_sheet_lost_before : grid :=
  [map CStr HEADERS;
   [CInt 1; CStr "01/01/2024 10:00:00"; CStr "ani"; CStr "BCA"; CStr "setor";
    CInt (2 ^ 53); CInt 0; CInt 0];
   [CInt 2; CStr "02/01/2024 10:00:00"; CStr "ani"; CStr "BCA"; CStr "setor";
    CInt 0; CInt 0; CInt 0]].

Definition demo_cache_lost : App :=
  {| data := load_snapshot (Ok demo_sheet_lost_before);
     parity_state := Unknown; parity_details_last := NoDetails |}.

Definition demo_decoded : list Row :=
  try_except (decode_rows (header_index (map CStr HEADERS)) (tl demo_sheet)) [].

(** ** The checksum of the sheet *)

Local Open Scope Z_scope.

(** *** [json.dumps] with [ensure_ascii=False] and the separators [,] and [:] *)

(** [str(n)] *)
Definition str_of_int (n : Z) : string := NilZero.string_of_int (Z.to_int n).

(** The value [n / d] of a positive float, and of a power of ten. *)
Definition ratio_of (m : positive) (e : Z) : Z * Z :=
  match e with
  | Zneg p => (Zpos m, 2 ^ Zpos p)
  | _ => (Zpos m * 2 ^ e, 1)
  end.

Definition scale10 (c : Z) (p : Z) : Z * Z :=
  match p with
  | Zneg q => (c, 10 ^ Zpos q)
  | _ => (c * 10 ^ p, 1)
  end.

Definition ratio_leb (a b : Z * Z) : bool := a.1 * b.2 <=? b.1 * a.2.
Definition ratio_eqb (a b : Z * Z) : bool := a.1 * b.2 =? b.1 * a.2.

(** The largest [k] with [10^k <= x], looked for downwards from [k]. *)
Fixpoint decimal_exponent (fuel : nat) (x : Z * Z) (k : Z) : Z :=
  match fuel with
  | O => k
  | S fuel' =>
      if ratio_leb (scale10 1 k) x then k
      else decimal_exponent fuel' x (k - 1)
  end.

(** The binary64 that the decimal [c * 10^p] reads as. *)
Definition read_decimal (c : Z) (p : Z) : float :=
  match c, p with
  | Zpos n, Zneg q => fdiv (S754_finite false n 0)
                           (S754_finite false (10 ^ q) 0)
  | _, _ => fint (c * 10 ^ p)
  end.

Definition reads_as (x : Z * Z) (c : Z) (p : Z) : bool :=
  match read_decimal c p with
  | S754_finite false m e => ratio_eqb (ratio_of m e) x
  | _ => false
  end.

(** The decimal of [d] digits that reads as [x], the nearer to [x] if
    there are two, as [(c, p)] for [c * 10^p]. *)
Definition decimal_of_digits (x : Z * Z) (e10 : Z) (d : Z) : option (Z * Z) :=
  let p := e10 - d + 1 in
  let unit := scale10 1 p in
  let lo := (x.1 * unit.2) / (x.2 * unit.1) in
  let hi := lo + 1 in
  let lo_ok := reads_as x lo p in
  let hi_ok := reads_as x hi p in
  (* x is nearer to lo than to hi: 2 x <= (2 lo + 1) * 10^p *)
  let nearer_lo := ratio_leb (2 * x.1, x.2) (scale10 (2 * lo + 1) p) in
  if lo_ok && (negb hi_ok || nearer_lo) then Some (lo, p)
  else if hi_ok then Some (hi, p)
  else None.

(** The shortest decimal that reads as [x]: 17 digits always do. *)
Fixpoint shortest_decimal (fuel : nat) (x : Z * Z) (e10 : Z) (d : Z)
  : Z * Z :=
  match fuel with
  | O => (0, 0)
  | S fuel' =>
      match decimal_of_digits x e10 d with
      | Some cp => cp
      | None => shortest_decimal fuel' x e10 (d + 1)
      end
  end.

(** Trailing zeros go to the exponent. *)
Fixpoint strip_zeros (fuel : nat) (c p : Z) : Z * Z :=
  match fuel with
  | O => (c, p)
  | S fuel' =>
      if (c mod 10 =? 0) && negb (c =? 0)
      then strip_zeros fuel' (c / 10) (p + 1)
      else (c, p)
  end.

Definition zeros (n : Z) : string := text (repeat "0"%char (Z.to_nat n)).

Definition two_digits (n : Z) : string :=
  if n <? 10 then "0" +:+ str_of_int n else str_of_int n.

(** [repr] of a positive float: the digits [ds] and the place [decpt] of
    the point, as 0.ds * 10^decpt; an exponent is written when [decpt] is
    at most -4 or above 16. *)
Definition repr_positive (m : positive) (e : Z) : string :=
  let x := ratio_of m e in
  let guess := (Z.log2 (Zpos m) + e) * 30103 / 100000 + 2 in
  let e10 := decimal_exponent 6 x guess in
  let '(c, p) := shortest_decimal 17 x e10 1 in
  let '(c, p) := strip_zeros 17 c p in
  let ds := str_of_int c in
  let n := Z.of_nat (String.length ds) in
  let decpt := n + p in
  if (decpt <=? -4) || (16 <? decpt) then
    let exp := decpt - 1 in
    let mant := if n =? 1 then ds
                else substring 0 1 ds +:+ "." +:+ substring 1 (Z.to_nat n - 1) ds in
    mant +:+ "e" +:+ (if exp <? 0 then "-" else "+") +:+ two_digits (Z.abs exp)
  else if decpt <=? 0 then "0." +:+ zeros (- decpt) +:+ ds
  else if decpt <? n then
    substring 0 (Z.to_nat decpt) ds +:+ "." +:+
    substring (Z.to_nat decpt) (Z.to_nat (n - decpt)) ds
  else ds +:+ zeros (decpt - n) +:+ ".0".

(** [float.__repr__], with the words JSON has for what is not a number *)
Definition float_repr (x : float) : string :=
  match x with
  | S754_nan => "NaN"
  | S754_infinity false => "Infinity"
  | S754_infinity true => "-Infinity"
  | S754_zero false => "0.0"
  | S754_zero true => "-0.0"
  | S754_finite s m e => (if s then "-" else "") +:+ repr_positive m e
  end.

Definition hex_digit (n : N) : ascii :=
  if (n <? 10)%N then ascii_of_N (48 + n) else ascii_of_N (87 + n).

Definition quote : ascii := ascii_of_N 34.

(** One character inside a JSON text: the quote, the backslash and the
    control characters are escaped; nothing else is, since [ensure_ascii]
    is off. *)
Definition json_char (c : ascii) : list ascii :=
  let n := code c in
  if (n =? 34)%N then ["\"%char; quote]
  else if (n =? 92)%N then ["\"%char; "\"%char]
  else if (n =? 10)%N then ["\"%char; "n"%char]
  else if (n =? 13)%N then ["\"%char; "r"%char]
  else if (n =? 9)%N then ["\"%char; "t"%char]
  else if (n =? 8)%N then ["\"%char; "b"%char]
  else if (n =? 12)%N then ["\"%char; "f"%char]
  else if (n <? 32)%N then
    ["\"%char; "u"%char; "0"%char; "0"%char;
     hex_digit (n / 16); hex_digit (n mod 16)]
  else [c].

Definition json_str (s : string) : string :=
  text (quote :: flat_map json_char (chars s) ++ [quote])%list.

Definition json_cell (v : cell) : string :=
  match v with
  | CNone => "null"
  | CBool true => "true"
  | CBool false => "false"
  | CInt n => str_of_int n
  | CFloat x => float_repr x
  | CStr s => json_str s
  end.

(** [",".join(items)] *)
Fixpoint join_comma (items : list string) : string :=
  match items with
  | [] => ""
  | [x] => x
  | x :: rest => x +:+ "," +:+ join_comma rest
  end.

Definition json_list (items : list string) : string :=
  "[" +:+ join_comma items +:+ "]".

Definition json_dumps (values_2d : grid) : string :=
  json_list (map (fun row => json_list (map json_cell row)) values_2d).

(** [packed.encode("utf-8")]: one byte below 128, two bytes from there. *)
Definition utf8_char (c : ascii) : list Z :=
  let n := Z.of_N (code c) in
  if n <? 128 then [n] else [192 + n / 64; 128 + n mod 64].

Definition encode_utf8 (s : string) : list Z := flat_map utf8_char (chars s).

(** *** [hashlib.sha1] *)

Definition w32 (x : Z) : Z := x mod 2 ^ 32.

Definition rotl (n : Z) (x : Z) : Z :=
  w32 (Z.lor (Z.shiftl x n) (Z.shiftr x (32 - n))).

(** [n] bytes of [x], the most significant first *)
Fixpoint be_bytes (n : nat) (x : Z) : list Z :=
  match n with
  | O => []
  | S n' => (x / 256 ^ Z.of_nat n') mod 256 :: be_bytes n' x
  end.

Definition be_word (bs : list Z) : Z :=
  fold_left (fun acc b => acc * 256 + b) bs 0.

(** The message, a 1 bit, zeros up to 56 bytes modulo 64, and the length
    in bits on 8 bytes. *)
Definition sha1_pad (msg : list Z) : list Z :=
  let len := Z.of_nat (length msg) in
  (msg ++ [128] ++ repeat 0 (Z.to_nat ((55 - len) mod 64))
       ++ be_bytes 8 (8 * len))%list.

(** The words of a block, four bytes each. *)
Fixpoint words (n : nat) (bs : list Z) : list Z :=
  match n with
  | O => []
  | S n' => be_word (firstn 4 bs) :: words n' (skipn 4 bs)
  end.

(** The message schedule, latest word first: word [i] is made of the
    words 3, 8, 14 and 16 places before it. *)
Fixpoint extend (n : nat) (ws : list Z) : list Z :=
  match n with
  | O => ws
  | S n' =>
      let w := rotl 1 (Z.lxor (Z.lxor (nth 2 ws 0) (nth 7 ws 0))
                              (Z.lxor (nth 13 ws 0) (nth 15 ws 0))) in
      extend n' (w :: ws)
  end.

Definition schedule (block : list Z) : list Z :=
  rev (extend 64 (rev (words 16 block))).

Definition state : Type := Z * Z * Z * Z * Z.

Definition round (i : nat) (st : state) (w : Z) : state :=
  let '(a, b, c, d, e) := st in
  let '(f, k) :=
    if (i <? 20)%nat
    then (Z.lor (Z.land b c) (Z.land (Z.lxor b (2 ^ 32 - 1)) d), 1518500249)
    else if (i <? 40)%nat
    then (Z.lxor (Z.lxor b c) d, 1859775393)
    else if (i <? 60)%nat
    then (Z.lor (Z.lor (Z.land b c) (Z.land b d)) (Z.land c d), 2400959708)
    else (Z.lxor (Z.lxor b c) d, 3395469782) in
  let temp := w32 (rotl 5 a + f + e + k + w) in
  (temp, a, rotl 30 b, c, d).

Definition compress (h : state) (block : list Z) : state :=
  let '(a, b, c, d, e) :=
    fold_left (fun st iw => round iw.1 st iw.2) (imap pair (schedule block)) h in
  let '(h0, h1, h2, h3, h4) := h in
  (w32 (h0 + a), w32 (h1 + b), w32 (h2 + c), w32 (h3 + d), w32 (h4 + e)).

Fixpoint blocks (n : nat) (bs : list Z) : list (list Z) :=
  match n with
  | O => []
  | S n' => firstn 64 bs :: blocks n' (skipn 64 bs)
  end.

Definition sha1_init : state :=
  (1732584193, 4023233417, 2562383102, 271733878, 3285377520).

(** The digest as a number of 160 bits. *)
Definition sha1 (msg : list Z) : Z :=
  let padded := sha1_pad msg in
  let '(h0, h1, h2, h3, h4) :=
    fold_left compress (blocks (length padded / 64) padded) sha1_init in
  w32 h0 * 2 ^ 128 + w32 h1 * 2 ^ 96 + w32 h2 * 2 ^ 64 + w32 h3 * 2 ^ 32
  + w32 h4.

(** [hexdigest()]: the 40 hexadecimal digits of the digest. *)
Definition hexdigest (n : Z) : string :=
  text (flat_map (fun b => [hex_digit (Z.to_N (b / 16));
                            hex_digit (Z.to_N (b mod 16))])
                 (be_bytes 20 n)).

(** Lines 246-249 *)
Definition _compute_checksum (values_2d : grid) : string :=
  hexdigest (sha1 (encode_utf8 (json_dumps values_2d))).

(** *** Texts that can be read back

    What makes the digest follow the grid: the text of a grid is the text
    of no other grid, and so for its bytes. *)

(** Two lists that differ at a place that both have: neither begins the
    other. *)
Fixpoint conflict {A} (eqb : A -> A -> bool) (l1 l2 : list A) : bool :=
  match l1, l2 with
  | x :: l1', y :: l2' => if eqb x y then conflict eqb l1' l2' else true
  | _, _ => false
  end.

Definition all_ascii : list ascii := map ascii_of_nat (seq 0 256).

(** The words that [f] writes for the characters: none is empty, none
    begins with [t], and none begins another. *)
Definition prefix_code {A} (eqb : A -> A -> bool) (f : ascii -> list A)
    (t : A) : bool :=
  forallb (fun c1 =>
             match f c1 with
             | [] => false
             | x :: _ => negb (eqb x t)
             end
             && forallb (fun c2 => Ascii.eqb c1 c2
                                   || conflict eqb (f c1) (f c2)) all_ascii)
          all_ascii.

(** A text that goes on with a comma or a closing bracket. *)
Definition delimited (l : list ascii) : Prop :=
  exists d l', l = d :: l' /\ (d = ","%char \/ d = "]"%char).

(** The characters of a number: the digits and the sign. *)
Definition number_char (c : ascii) : bool :=
  is_ascii_digit c || Ascii.eqb c "-".

(** Cells other than floats, and grids of such cells. *)
Definition plain_cell (c : cell) : bool := negb (is_float c).

Definition plain_grid (X : grid) : bool := forallb (forallb plain_cell) X.

(** ** The realtime watcher *)

(** [CONFIG['auto_refresh_seconds']] *)
Definition auto_refresh_seconds : Z := 5.

(** What the watcher and the loading read and write: [connected] and
    [last_checksum] of the sheets manager, and [_last_sheet_checksum], the
    cache and the parity state of the window, the application. *)
Record Sync : Type := mkSync {
  connected : bool;
  last_checksum : option string;
  _last_sheet_checksum : option string;
  window : App
}.

(** [connect()]: the one place that assigns [connected] (lines 172, 177). *)
Definition connect (ok : bool) (st : Sync) : Sync :=
  {| connected := ok; last_checksum := last_checksum st;
     _last_sheet_checksum := _last_sheet_checksum st; window := window st |}.

(** Lines 251-257: an error of the fetch is printed and [None] returned. *)
Definition get_sheet_checksum (fetch : result grid) : option string :=
  try_except (vals ← fetch; Ok (Some (_compute_checksum vals))) None.

(** Lines 259-319: the frame returned, and the manager with the checksum
    of what was read; an error anywhere leaves the manager as it was and
    returns the empty frame. *)
Definition get_all_data (fetch : result grid) (st : Sync)
  : list Row * Sync :=
  try_except
    (vals ← fetch;
     let st' := {| connected := connected st;
                   last_checksum := Some (_compute_checksum vals);
                   _last_sheet_checksum := _last_sheet_checksum st;
                   window := window st |} in
     match vals with
     | [] | [_] => Ok ([], st')
     | header :: rows =>
         norm ← decode_rows (header_index header) rows;
         Ok (recompute norm, st')
     end)
    ([], st).

(** Line 831 of [update_bank_badges], which [update_summary] calls on line
    817: [int(v)] of the last balance of an account raises when that
    balance is an infinity or not a number. A balance that cannot be read
    counts as 0.0 (lines 826-829), and without rows nothing is drawn. *)
Definition badges_raise (df : list Row) : bool :=
  match last df with
  | None => false
  | Some r =>
      existsb (fun b => match balances r !! b with
                        | Some x => negb (is_finite x)
                        | None => false
                        end) BANK_LIST
  end.

(** Lines 646-658: the cache and the watcher's checksum are replaced; the
    window is drawn again, which ends [load_data] with an error when
    [update_bank_badges] raises; otherwise the parity check runs, with a
    fetch of its own. The drawing of the table and of the charts is taken
    to return, and so is the writing of the backup, which has a handler of
    its own. *)
Definition load_data (rows_fetch parity_fetch : result grid) (st : Sync)
  : Sync :=
  let '(df, st) := get_all_data rows_fetch st in
  let loaded := {| data := df; parity_state := parity_state (window st);
                   parity_details_last := parity_details_last (window st) |} in
  {| connected := connected st; last_checksum := last_checksum st;
     _last_sheet_checksum := last_checksum st;
     window := if badges_raise df then loaded
               else check_parity_against_api parity_fetch loaded |}.

(** What one turn of the loop meets: the outcome of the fetch for the
    checksum and, should a reload follow, of its two fetches. *)
Record outcome : Type := mkOutcome {
  checksum_fetch : result grid;
  rows_fetch : result grid;
  parity_fetch : result grid
}.

Inductive event : Type :=
| Sleep (seconds : Z)
| FetchChecksum
| Reload.

(** Lines 664-670, the body of the [try]. The reload that [self.after]
    hands to the window's thread is taken to run before the next turn. *)
Definition watcher_body (o : outcome) (st : Sync)
  : result (Sync * list event) :=
  let cs := get_sheet_checksum (checksum_fetch o) in
  match cs with
  | Some c =>
      if negb (String.eqb c "")
         && bool_decide (Some c <> _last_sheet_checksum st)
      then
        let st := {| connected := connected st;
                     last_checksum := last_checksum st;
                     _last_sheet_checksum := Some c; window := window st |} in
        Ok (load_data (rows_fetch o) (parity_fetch o) st,
            [Sleep auto_refresh_seconds; FetchChecksum; Reload])
      else Ok (st, [Sleep auto_refresh_seconds; FetchChecksum])
  | None => Ok (st, [Sleep auto_refresh_seconds; FetchChecksum])
  end.

(** One turn of [while True]: [except Exception: pass]. *)
Definition watcher_cycle (o : outcome) (st : Sync) : Sync * list event :=
  try_except (watcher_body o st) (st, [Sleep auto_refresh_seconds]).

(** The loop over the turns it is given. *)
Fixpoint watcher (os : list outcome) (st : Sync) : Sync * list event :=
  match os with
  | [] => (st, [])
  | o :: os' =>
      let '(st1, ev1) := watcher_cycle o st in
      let '(st2, ev2) := watcher os' st1 in
      (st2, (ev1 ++ ev2)%list)
  end.

Definition is_reload (ev : event) : bool :=
  match ev with
  | Reload => true
  | _ => false
  end.

(** The application connected, with [demo_sheet_before] loaded: the state
    in which [connect_to_gsheets] starts the watcher. *)
Definition sync0 : Sync :=
  {| connected := false; last_checksum := None;
     _last_sheet_checksum := None; window := app0 |}.

Definition demo_started : Sync :=
  load_data (Ok demo_sheet_before) (Ok demo_sheet_before) (connect true sync0).

(** A turn whose fetches all fail, and one that reads [demo_sheet]. *)
Definition demo_failure : outcome :=
  {| checksum_fetch := Raise IOError; rows_fetch := Raise IOError;
     parity_fetch := Raise IOError |}.

Definition demo_rows_failure : outcome :=
  {| checksum_fetch := Ok demo_sheet; rows_fetch := Raise IOError;
     parity_fetch := Raise IOError |}.

Definition demo_success : outcome :=
  {| checksum_fetch := Ok demo_sheet; rows_fetch := Ok demo_sheet;
     parity_fetch := Ok demo_sheet |}.

(** * More of the program *)

(** A turn of the watcher in which the sheet is still [demo_sheet_before]. *)
Definition demo_unchanged : outcome :=
  {| checksum_fetch := Ok demo_sheet_before;
     rows_fetch := Ok demo_sheet_before;
     parity_fetch := Ok demo_sheet_before |}.

(** A sheet with an amount of 310 digits in the column 'Credit', and a turn
    of the watcher that reads it. *)
Definition demo_sheet_overflow : grid :=
  [map CStr HEADERS;
   [CInt 1; CStr "01/01/2024 10:00:00"; CStr "ani"; CStr "BCA"; CStr "setor";
    CStr (one_and_zeros 309); CInt 0; CInt 0]].

Definition demo_overflow : outcome :=
  {| checksum_fetch := Ok demo_sheet_overflow;
     rows_fetch := Ok demo_sheet_overflow;
     parity_fetch := Ok demo_sheet_overflow |}.

(** ** Column titles *)

(** [NEW_STYLE_BANK_COLS] (line 62): the title "Saldo Akhir b" that stands
    for the account [b]. *)
Definition new_style_title (b : string) : string := "Saldo Akhir " +:+ b.

(** A header cell with the title of an account turned into its new-style
    title. *)
Definition new_style (c : cell) : cell :=
  match c with
  | CStr b => if bool_decide (b ∈ BANK_LIST) then CStr (new_style_title b) else c
  | _ => c
  end.

(** ** Texts *)

(** No character of the text is one of the digits 0 to 9. *)
Definition digitless (l : list ascii) : Prop :=
  Forall (fun c => is_ascii_digit c = false) l.

(** ** Column letters *)

(** Lines 213-218: the letters of column [n], the last letter first out of
    the loop. The loop runs while [n > 0], and [n] goes down at each turn,
    so [n] turns are enough. *)
Fixpoint col_letter_loop (turns : nat) (n : Z) (s : list ascii) : list ascii :=
  match turns with
  | O => s
  | S turns' =>
      if 0 <? n
      then col_letter_loop turns' ((n - 1) / 26)
             (ascii_of_N (Z.to_N (65 + (n - 1) mod 26)) :: s)
      else s
  end.

Definition _col_letter (n : Z) : string :=
  text (col_letter_loop (Z.to_nat n) n []).

(** The number that letters stand for: A is 1, Z is 26, AA is 27. *)
Definition col_number (s : string) : Z :=
  fold_left (fun acc c => acc * 26 + (Z.of_N (code c) - 64)) (chars s) 0.

(** Lines 205-207: the range that [_apply_currency_format] formats. *)
Definition currency_range : string :=
  _col_letter 6 +:+ "2:" +:+ _col_letter (8 + Z.of_nat (length BANK_LIST))
  +:+ "10000".

(** ** The audit trail *)

Definition nl : ascii := ascii_of_N 10.
Definition cr : ascii := ascii_of_N 13.

(** The file [backups/audit.log]: missing, or its text. *)
Definition file : Type := option string.

(** The line that [audit_log] writes (line 81). *)
Definition audit_line (ts action details : string) : string :=
  "[" +:+ ts +:+ "] " +:+ action +:+ ": " +:+ details +:+ text [nl].

(** Lines 76-81: the line is added at the end of the file, which is made
    if it is missing. [ts] is the time, as [date_format] writes it. *)
Definition audit_log (ts action details : string) (f : file) : file :=
  Some (default "" f +:+ audit_line ts action details).

(** [f.readlines()] of a text file: a line ends with a line feed, a
    carriage return or both, and is read with a line feed at its end; what
    follows the last line end is a line without one. [cur] is the line so
    far, backwards. *)
Fixpoint readlines_l (cur : list ascii) (l : list ascii) : list string :=
  match l with
  | [] =>
      match cur with
      | [] => []
      | _ => [text (rev cur)]
      end
  | c :: l' =>
      if Ascii.eqb c nl then text (rev (nl :: cur)) :: readlines_l [] l'
      else if Ascii.eqb c cr then
        match l' with
        | c' :: l'' =>
            if Ascii.eqb c' nl
            then text (rev (nl :: cur)) :: readlines_l [] l''
            else text (rev (nl :: cur)) :: readlines_l [] l'
        | [] => [text (rev (nl :: cur))]
        end
      else readlines_l (c :: cur) l'
  end.

Definition readlines (content : string) : list string :=
  readlines_l [] (chars content).

(** [lines[-limit:]] *)
Definition last_lines {A} (limit : Z) (lines : list A) : list A :=
  let start := - limit in
  let n := Z.of_nat (length lines) in
  if start <? 0 then drop (Z.to_nat (Z.max 0 (n + start))) lines
  else drop (Z.to_nat start) lines.

(** Lines 83-89 *)
Definition read_audit_lines (f : file) (limit : Z) : list string :=
  match f with
  | None => []
  | Some content => last_lines limit (readlines content)
  end.

(** An entry of the trail: the time, the action and the details. *)
Definition entry : Type := string * string * string.

Definition entry_line (e : entry) : string :=
  audit_line e.1.1 e.1.2 e.2.

(** The file after the entries were logged, the first one first. *)
Definition logged (es : list entry) (f : file) : file :=
  fold_left (fun f e => audit_log e.1.1 e.1.2 e.2 f) es f.

(** A text without a line end in it. *)
Definition one_line (s : string) : bool :=
  forallb (fun c => negb (Ascii.eqb c nl) && negb (Ascii.eqb c cr)) (chars s).

Definition entry_one_line (e : entry) : bool :=
  one_line e.1.1 && one_line e.1.2 && one_line e.2.

(** ** Writing a row *)

Definition ch_lower (c : ascii) : ascii :=
  if ((65 <=? code c) && (code c <=? 90))%N
  then ascii_of_N (code c + 32)
  else c.

(** The underscores that [float] and [int] allow in a text: each one
    after a digit and before a digit. The text without them, or [None]. *)
Fixpoint remove_underscores (prev : ascii) (l : list ascii)
  : option (list ascii) :=
  match l with
  | [] => if Ascii.eqb prev "_" then None else Some []
  | c :: l' =>
      if Ascii.eqb c "_" then
        if is_ascii_digit prev then remove_underscores c l' else None
      else if Ascii.eqb prev "_" && negb (is_ascii_digit c) then None
      else option_map (cons c) (remove_underscores c l')
  end.

Definition split_sign (l : list ascii) : bool * list ascii :=
  match l with
  | "-"%char :: l' => (true, l')
  | "+"%char :: l' => (false, l')
  | _ => (false, l)
  end.

(** The binary64 nearest to [d * 10^e], with the sign [neg]. *)
Definition scaled (neg : bool) (d : Z) (e : Z) : float :=
  match d with
  | Zpos n =>
      match e with
      | Zneg q => fdiv (S754_finite neg n 0) (S754_finite false (10 ^ q) 0)
      | _ => let x := fint (d * 10 ^ e) in if neg then fneg x else x
      end
  | _ => S754_zero neg
  end.

(** [float(s)] for any text: blanks around it, a sign, then [inf],
    [infinity] or [nan] in any case, or digits with at most one point and an
    exponent; [None] when it raises. *)
Definition float_of_text (s : string) : option float :=
  l ← remove_underscores (ascii_of_N 0) (chars (strip_num s));
  let '(neg, l) := split_sign l in
  let word := text (map ch_lower l) in
  if String.eqb word "inf" || String.eqb word "infinity"
  then Some (S754_infinity neg)
  else if String.eqb word "nan" then Some S754_nan
  else
    let '(ip, rest) := span_digits l in
    let '(fp, rest) :=
      match rest with
      | "."%char :: rest' => span_digits rest'
      | _ => ([], rest)
      end in
    let d := digits_val (ip ++ fp)%list in
    let places := Z.of_nat (length fp) in
    match (ip ++ fp)%list, rest with
    | [], _ => None
    | _, [] => Some (scaled neg d (- places))
    | _, e :: rest' =>
        if Ascii.eqb (ch_lower e) "e" then
          let '(eneg, rest') := split_sign rest' in
          let '(ed, rest'') := span_digits rest' in
          match ed, rest'' with
          | _ :: _, [] =>
              let x := digits_val ed in
              Some (scaled neg d ((if eneg then - x else x) - places))
          | _, _ => None
          end
        else None
    end.

(** [float(v)], [None] when it raises *)
Definition float_of_cell (v : cell) : option float :=
  match v with
  | CNone => None
  | CBool b => Some (fint (Z.b2z b))
  | CInt n => match float_of_int n with Ok x => Some x | Raise _ => None end
  | CFloat x => Some x
  | CStr s => float_of_text s
  end.

(** [str(v)] *)
Definition str_of_cell (v : cell) : string :=
  match v with
  | CNone => "None"
  | CBool true => "True"
  | CBool false => "False"
  | CInt n => str_of_int n
  | CFloat S754_nan => "nan"
  | CFloat (S754_infinity false) => "inf"
  | CFloat (S754_infinity true) => "-inf"
  | CFloat x => float_repr x
  | CStr s => s
  end.

(** Lines 325-332: a cell of a money column becomes a float, by [float]
    or else by [parse_amount_idr] of its text; [None] when that raises. *)
Definition clean_cell (col : string) (v : cell) : option cell :=
  if bool_decide (col ∈ MONEY_COLS) then
    match float_of_cell v with
    | Some x => Some (CFloat x)
    | None =>
        match parse_amount_idr (CStr (str_of_cell v)) with
        | Ok x => Some (CFloat x)
        | Raise _ => None
        end
    end
  else Some v.

(** Lines 323-332: the cells cleaned from cell [i] on; [HEADERS[i]] raises
    past the last title. *)
Fixpoint clean_row (i : nat) (row_list : list cell) : option (list cell) :=
  match row_list with
  | [] => Some []
  | v :: rest =>
      col ← HEADERS !! i;
      c ← clean_cell col v;
      cs ← clean_row (S i) rest;
      Some (c :: cs)
  end.

(** Lines 321-341, without the entry in the audit trail: the sheet after
    the call and what the call returns. [append_row] is the outcome of
    the request to the sheet. *)
Definition append_data (row_list : list cell) (append_row : result unit)
    (sheet : grid) : grid * bool :=
  match clean_row 0 row_list with
  | Some row_clean =>
      match append_row with
      | Ok _ => ((sheet ++ [row_clean])%list, true)
      | Raise _ => (sheet, false)
      end
  | None => (sheet, false)
  end.

(** [{b: float(last[b]) for b in BANK_LIST}] *)
Fixpoint last_balances (banks : list string) (last_row : Row)
  : result (gmap string float) :=
  match banks with
  | [] => Ok ∅
  | b :: banks' =>
      x ← account last_row b;
      m ← last_balances banks' last_row;
      Ok (<[b := x]> m)
  end.

(** [per_bank[bank] += (credit - debit)] under [bank in BANK_LIST] *)
Definition with_transaction (per_bank : gmap string float) (bank : string)
    (credit debit : float) : gmap string float :=
  if bool_decide (bank ∈ BANK_LIST)
  then <[bank := fadd (per_bank !!! bank) (fsub credit debit)]> per_bank
  else per_bank.

(** The cells of the new row, [new_total] being [sum(per_bank.values())]. *)
Definition row_cells (new_no : Z) (now user_id bank desc : string)
    (credit debit : float) (per_bank : gmap string float) : list cell :=
  ([CInt new_no; CStr now; CStr user_id; CStr bank; CStr desc;
    CFloat credit; CFloat debit; CFloat (py_sum (values per_bank))]
   ++ map (fun b => CFloat (per_bank !!! b)) BANK_LIST)%list.

(** Lines 996-1006 of [save_transaction] and 1048-1057 of
    [_append_transaction_row]: the row for a transaction, made from the
    last record of the cache. [now] is the time as [date_format] writes
    it. *)
Definition transaction_row (data : list Row)
    (now user_id bank desc : string) (credit debit : float)
  : result (list cell) :=
  per_bank ← match last data with
             | Some last_row => last_balances BANK_LIST last_row
             | None => Ok running0
             end;
  let per_bank := with_transaction per_bank bank credit debit in
  let new_no := match last data with
                | Some last_row => No last_row + 1
                | None => 1
                end in
  Ok (row_cells new_no now user_id bank desc credit debit per_bank).

(** [{b: parse_amount_idr(entries[b].get()) for b in BANK_LIST}] *)
Fixpoint entered_balances (entries : string -> string) (banks : list string)
  : result (gmap string float) :=
  match banks with
  | [] => Ok ∅
  | b :: banks' =>
      x ← parse_amount_idr (CStr (entries b));
      m ← entered_balances entries banks';
      Ok (<[b := x]> m)
  end.

(** Lines 1074-1078 of [set_initial_balance]: the row that sets the
    balances to the amounts typed in the entries. *)
Definition initial_balance_row (data : list Row) (now : string)
    (entries : string -> string) : result (list cell) :=
  per_bank ← entered_balances entries BANK_LIST;
  let total := py_sum (values per_bank) in
  let new_no := match last data with
                | Some last_row => No last_row + 1
                | None => 1
                end in
  Ok ([CInt new_no; CStr now; CStr "SYSTEM"; CStr "SALDO AWAL";
       CStr "Penyesuaian saldo awal"; CInt 0; CInt 0; CFloat total]
      ++ map (fun b => CFloat (per_bank !!! b)) BANK_LIST)%list.

(** Entries of the dialog: 1.500.000 typed for BCA, 250000 for OVO, the
    others left at 0. *)
Definition demo_entries (b : string) : string :=
  if String.eqb b "BCA" then "1.500.000"
  else if String.eqb b "OVO" then "250000"
  else "0".

(** Lines 1035-1036 of [do_transfer]: the two rows of a transfer from [s]
    to [d], each made by [_append_transaction_row] from the cache as it
    is; the data are loaded again only after both. *)
Definition transfer_rows (data : list Row) (now1 now2 s d note : string)
    (a : float) : result (list cell * list cell) :=
  row1 ← transaction_row data now1 "SYSTEM" s note fzero a;
  row2 ← transaction_row data now2 "SYSTEM" d note a fzero;
  Ok (row1, row2).

(** ** Backups *)

From stdpp Require sorting.

(** [CONFIG['backup_limit']] *)
Definition backup_limit : nat := 30.

(** [f.startswith("backup_")] *)
Definition is_backup (f : string) : bool := String.prefix "backup_" f.

(** The order of [sorted(..., reverse=True)] on names: the greater name
    first, names compared code point by code point. *)
Definition name_ge (a b : string) : Prop := String.leb b a = true.

#[global] Instance name_ge_dec a b : Decision (name_ge a b) :=
  decide (String.leb b a = true).

Definition sorted_reverse (l : list string) : list string :=
  sorting.merge_sort name_ge l.

(** The loop of line 1216: [os.remove] of the names in turn. A name that
    cannot be removed raises, which ends the loop (the handler of
    [cleanup_old] only prints). *)
Fixpoint remove_files (removable : string -> bool) (files : list string)
    (folder : gset string) : gset string :=
  match files with
  | [] => folder
  | f :: files' =>
      if removable f then remove_files removable files' (folder ∖ {[f]})
      else folder
  end.

(** The backups of a folder, the newest name first. *)
Definition backup_files (folder : gset string) : list string :=
  sorted_reverse (filter (fun f => is_backup f = true) (elements folder)).

(** [cleanup_old], on the names that the backup folder holds. *)
Definition cleanup_old (removable : string -> bool) (folder : gset string)
  : gset string :=
  remove_files removable (drop backup_limit (backup_files folder)) folder.

(** The backups of a folder that are newer than [f]. *)
Definition newer_backups (f : string) (folder : gset string) : gset string :=
  filter (fun g => is_backup g = true /\ g <> f /\ name_ge g f) folder.

(** What writing the backup file came to: written, or [open] raised, or
    [pickle.dump] raised after [open] had made the file. *)
Inductive write_outcome : Type :=
| Written
| OpenFailed
| DumpFailed.

(** [f"backup_{datetime.now().strftime('%Y%m%d_%H%M%S')}.pkl"] *)
Definition backup_name (stamp : string) : string :=
  "backup_" +:+ stamp +:+ ".pkl".

(** [CONFIG['audit_file']], which [audit_log] keeps in the backup folder *)
Definition AUDIT_FILE : string := "audit.log".

(** [create_backup] with the default file name, on the names that the
    backup folder holds. *)
Definition create_backup (stamp : string) (out : write_outcome)
    (removable : string -> bool) (folder : gset string)
  : gset string * bool :=
  let filename := backup_name stamp in
  match out with
  | Written =>
      (cleanup_old removable ({[AUDIT_FILE]} ∪ ({[filename]} ∪ folder)), true)
  | OpenFailed => ({[AUDIT_FILE]} ∪ folder, false)
  | DumpFailed => ({[AUDIT_FILE]} ∪ ({[filename]} ∪ folder), false)
  end.

(** A folder with the audit log, a file of the user and the backups of 32
    consecutive seconds. *)
Definition demo_folder : gset string :=
  list_to_set
    ("audit.log" :: "notes.txt"
     :: map (fun n => backup_name ("20240101_1200" +:+ str_of_int (Z.of_nat n)))
            (seq 10 32)).

(** ** Displaying amounts *)

(** The grouping of [format(i, ',')] on the digits of a number: a
    separator before every group of three digits counted from the right. *)
Fixpoint group3 (sep : ascii) (l : list ascii) : list ascii :=
  match l with
  | [] => []
  | c :: l' =>
      if (0 <? length l')%nat && (length l' mod 3 =? 0)%nat
      then c :: sep :: group3 sep l'
      else c :: group3 sep l'
  end.

(** [format(i, ',')] *)
Definition format_comma (i : Z) : string :=
  match chars (str_of_int i) with
  | "-"%char :: ds => text ("-"%char :: group3 "," ds)
  | ds => text (group3 "," ds)
  end.

(** Lines 135-141 of [fmt_idr]: [None] and a NaN float count as 0, and
    so does a value for which [int(round(float(val)))] raises. *)
Definition idr_int (val : cell) : Z :=
  let val := match val with
             | CNone => CInt 0
             | CFloat x => if is_nan x then CInt 0 else val
             | _ => val
             end in
  match float_of_cell val with
  | Some x => match py_round x with
              | Ok i => i
              | Raise _ => 0
              end
  | None => 0
  end.

(** Line 142: [f"Rp{format(i, ',').replace(',', '.')} IDR"] *)
Definition fmt_int (i : Z) : string :=
  "Rp" +:+ replace "," "." (format_comma i) +:+ " IDR".

(** [fmt_idr], [CONFIG['idr_decimals']] being 0 *)
Definition fmt_idr (val : cell) : string := fmt_int (idr_int val).

(** The characters of a displayed number: digits, the dot and the sign. *)
Definition amount_char (c : ascii) : bool :=
  is_ascii_digit c || Ascii.eqb c "." || Ascii.eqb c "-".

Definition all_digits (l : list ascii) : Prop :=
  Forall (fun c => is_ascii_digit c = true) l.

(** The first character, if there is one, is not a blank. *)
Definition head_not_space (l : list ascii) : Prop :=
  match l with
  | c :: _ => ch_isspace c = false
  | [] => True
  end.

(** ** Paging of the table *)

(** [self.rows_per_page] *)
Definition rows_per_page : Z := 25.

(** The part of the window that the paging uses: [self.filtered_data] and
    [self.current_page]. *)
Record Pager (A : Type) : Type := mkPager {
  filtered_data : list A;
  current_page : Z
}.
Arguments mkPager {A}.
Arguments filtered_data {A}.
Arguments current_page {A}.

Definition prev_page {A} (st : Pager A) : Pager A :=
  if (0 <? current_page st)%Z
  then {| filtered_data := filtered_data st;
          current_page := current_page st - 1 |}
  else st.

Definition next_page {A} (st : Pager A) : Pager A :=
  if ((current_page st + 1) * rows_per_page
      <? Z.of_nat (length (filtered_data st)))%Z
  then {| filtered_data := filtered_data st;
          current_page := current_page st + 1 |}
  else st.

(** Lines 756-758 of [apply_filters] and 770-771 of [reset_filters]: the
    rows that passed the filters, shown from the first page. *)
Definition set_filtered {A} (f : list A) (st : Pager A) : Pager A :=
  {| filtered_data := f; current_page := 0 |}.

(** Lines 704-705 of [refresh_table]: the rows of the page, for a page
    number that is not negative. *)
Definition page_rows {A} (st : Pager A) : list A :=
  let start := Z.to_nat (current_page st * rows_per_page) in
  match filtered_data st with
  | [] => []
  | _ => take (Z.to_nat rows_per_page) (drop start (filtered_data st))
  end.

(** Line 650 of [load_data]: the rows of the sheet just read, the page
    number being left as it is. *)
Definition set_loaded {A} (f : list A) (st : Pager A) : Pager A :=
  {| filtered_data := f; current_page := current_page st |}.

(** What happens to the table: the buttons of the pages, the filters, and
    the loading of the sheet, by the user or by the watcher. *)
Inductive paging (A : Type) : Type :=
| Prev
| Next
| Filtered (f : list A)
| Reloaded (f : list A).
Arguments Prev {A}.
Arguments Next {A}.
Arguments Filtered {A}.
Arguments Reloaded {A}.

Definition paging_step {A} (st : Pager A) (e : paging A) : Pager A :=
  match e with
  | Prev => prev_page st
  | Next => next_page st
  | Filtered f => set_filtered f st
  | Reloaded f => set_loaded f st
  end.

(** The page that is shown starts within the rows [f], or is the first. *)
Definition page_within {A} (st : Pager A) (f : list A) : Prop :=
  current_page st = 0 \/
  current_page st * rows_per_page < Z.of_nat (length f).

(** Every loading finds the page that is shown within the rows it
    brings. *)
Fixpoint loads_within {A} (events : list (paging A)) (st : Pager A) : Prop :=
  match events with
  | [] => True
  | e :: events' =>
      match e with
      | Reloaded f => page_within st f
      | _ => True
      end /\ loads_within events' (paging_step st e)
  end.

(** Sixty rows on the first page, and a walk through the pages with a
    filter and a loading in between. *)
Definition demo_pager : Pager nat := mkPager (seq 0 60) 0.

Definition demo_paging : list (paging nat) :=
  [Next; Next; Next; Prev; Reloaded (seq 0 40); Filtered (seq 0 3); Next].

(** The third page is shown, and the sheet comes back with ten rows. *)
Definition demo_paging_short : list (paging nat) :=
  [Next; Next; Reloaded (seq 0 10)].

(** The record of a row without cells: number 0, empty texts and zero
    amounts. *)
Definition blank_row : Row :=
  {| No := 0; Tanggal := CStr ""; User_ID := CStr "";
     Bank_EWallet := CStr ""; Keterangan := CStr "";
     Credit := fzero; Debit := fzero; Saldo_Akhir := fzero;
     balances := running0 |}.

(** A character that [_only_digits] keeps and that is not a parenthesis:
    a digit in the sense of [isdigit], a comma, a dot or a minus sign. *)
Definition amount_sign (c : ascii) : bool :=
  keep_char c && negb (Ascii.eqb c "(") && negb (Ascii.eqb c ")").
Local Open Scope list_scope.

(** ** Properties of the recomputation *)

Lemma BANK_LIST_NoDup : NoDup BANK_LIST.
Proof. compute_done. Qed.

(** Writing [f b] under every key [b] of a list of keys. *)
Lemma lookup_fold_insert (f : string -> float) (keys : list string)
    (m : gmap string float) (k : string) :
  fold_left (fun acc b => <[b := f b]> acc) keys m !! k
  = if bool_decide (k ∈ keys) then Some (f k) else m !! k.
Proof.
  revert m; induction keys as [|b keys IH]; intros m; simpl.
  - done.
  - rewrite IH. destruct (decide (k = b)) as [->|Hne].
    + rewrite lookup_insert_eq.
      rewrite (bool_decide_eq_true_2 (b ∈ b :: keys)) by set_solver.
      by destruct (bool_decide (b ∈ keys)).
    + rewrite lookup_insert_ne by done.
      rewrite (bool_decide_ext (k ∈ b :: keys) (k ∈ keys)); [done|].
      rewrite elem_of_cons. split; [by intros [?|?] | by right].
Qed.

Lemma lookup_total_fold_insert (f : string -> float) (keys : list string)
    (m : gmap string float) (k : string) :
  k ∈ keys ->
  fold_left (fun acc b => <[b := f b]> acc) keys m !!! k = f k.
Proof.
  intros Hk. rewrite lookup_total_alt, lookup_fold_insert.
  by rewrite bool_decide_eq_true_2.
Qed.

Lemma running0_lookup (b : string) :
  b ∈ BANK_LIST -> running0 !! b = Some fzero.
Proof.
  intros Hb. unfold running0.
  apply elem_of_list_to_map_1.
  - exact BANK_LIST_NoDup.
  - apply (list_elem_of_fmap_2 (fun b => (b, fzero)) _ _ Hb).
Qed.

Lemma emit_balances_lookup running r b :
  b ∈ BANK_LIST -> balances (emit running r) !! b = Some (running !!! b).
Proof.
  intros Hb. unfold emit; cbn [balances].
  rewrite (lookup_fold_insert (fun b => running !!! b)).
  by rewrite bool_decide_eq_true_2.
Qed.

Lemma emit_balances_other running r b :
  b ∉ BANK_LIST -> balances (emit running r) !! b = balances r !! b.
Proof.
  intros Hb. unfold emit; cbn [balances].
  rewrite (lookup_fold_insert (fun b => running !!! b)).
  by rewrite bool_decide_eq_false_2.
Qed.

Lemma recompute_from_length running df :
  length (recompute_from running df) = length df.
Proof.
  revert running; induction df as [|r df IH]; intros running; simpl;
    [done | by rewrite IH].
Qed.

(** The record emitted for row [i] snapshots the balances reached after
    rows [0..i]. *)
Lemma recompute_from_lookup running (df : list Row) i r :
  df !! i = Some r ->
  recompute_from running df !! i
  = Some (emit (fold_left update_running (take (S i) df) running) r).
Proof.
  revert running i; induction df as [|r0 df IH]; intros running i Hi.
  - done.
  - destruct i as [|i]; simpl in *.
    + by inversion Hi.
    + by apply IH.
Qed.

(** *** The rows of the frame *)

Lemma float64_cell_strip c : str_strip (float64_cell c) = str_strip c.
Proof. by destruct c. Qed.

Lemma column_cast_strip col c : str_strip (column_cast col c) = str_strip c.
Proof.
  unfold column_cast. destruct (infer_dtype col); try done.
  apply float64_cell_strip.
Qed.

Lemma float64_row_amounts r : same_amounts (float64_row r) r.
Proof.
  unfold same_amounts. cbn [float64_row User_ID Bank_EWallet Credit Debit
                            Saldo_Akhir balances].
  by rewrite !float64_cell_strip.
Qed.

Lemma iter_row_amounts df r : same_amounts (iter_row df r) r.
Proof.
  unfold iter_row. destruct (float64_rows df);
    [apply float64_row_amounts | done].
Qed.

Lemma frame_row_amounts records r : same_amounts (frame_row records r) r.
Proof.
  unfold same_amounts. cbn [frame_row User_ID Bank_EWallet Credit Debit
                            Saldo_Akhir balances].
  by rewrite !column_cast_strip.
Qed.

Lemma iter_row_balances df r : balances (iter_row df r) = balances r.
Proof. apply iter_row_amounts. Qed.

Lemma update_running_amounts running r1 r2 :
  same_amounts r1 r2 -> update_running running r1 = update_running running r2.
Proof.
  intros (Hu & Hb & Hc & Hd & _ & Hbal).
  unfold update_running, is_system_init, known_bank.
  by rewrite Hu, Hb, Hc, Hd, Hbal.
Qed.

Lemma emit_iter_row df running r :
  emit running (iter_row df r) = iter_row df (emit running r).
Proof.
  unfold iter_row. destruct (float64_rows df); [|reflexivity].
  unfold emit, float64_row.
  cbn [No Tanggal User_ID Bank_EWallet Keterangan Credit Debit Saldo_Akhir
       balances].
  reflexivity.
Qed.

Lemma emit_frame_row records running r :
  emit running (frame_row records r) = frame_row records (emit running r).
Proof.
  unfold emit, frame_row.
  cbn [No Tanggal User_ID Bank_EWallet Keterangan Credit Debit Saldo_Akhir
       balances].
  reflexivity.
Qed.

(** Another type for the cells of the rows changes nothing in the
    amounts. *)
Lemma recompute_from_map (c : Row -> Row) df :
  (forall r, same_amounts (c r) r) ->
  (forall running r, emit running (c r) = c (emit running r)) ->
  forall running,
    recompute_from running (map c df) = map c (recompute_from running df).
Proof.
  intros Hc He. induction df as [|r df IH]; intros running; [done|].
  cbn [map recompute_from].
  by rewrite (update_running_amounts _ _ _ (Hc r)), He, IH.
Qed.

Lemma same_amounts_trans r1 r2 r3 :
  same_amounts r1 r2 -> same_amounts r2 r3 -> same_amounts r1 r3.
Proof.
  intros (H1 & H2 & H3 & H4 & H5 & H6) (G1 & G2 & G3 & G4 & G5 & G6).
  unfold same_amounts. repeat split; congruence.
Qed.

Lemma out_row_amounts df r : same_amounts (out_row df r) r.
Proof.
  unfold out_row.
  apply (same_amounts_trans _ (iter_row df r));
    [apply frame_row_amounts | apply iter_row_amounts].
Qed.

Lemma out_row_balances df r : balances (out_row df r) = balances r.
Proof. apply out_row_amounts. Qed.

Lemma recompute_from_iterrows df running :
  recompute_from running (iterrows df)
  = map (iter_row df) (recompute_from running df).
Proof.
  unfold iterrows.
  apply recompute_from_map; [apply iter_row_amounts|].
  intros run r. apply emit_iter_row.
Qed.

Lemma recompute_all_balances_map df :
  recompute_all_balances df = map (out_row df) (recompute_from running0 df).
Proof.
  unfold recompute_all_balances, data_frame, out_row.
  generalize (frame_row (recompute_from running0 (iterrows df))). intros c.
  rewrite recompute_from_iterrows. by rewrite List.map_map.
Qed.

Lemma recompute_all_balances_length df :
  length (recompute_all_balances df) = length df.
Proof.
  by rewrite recompute_all_balances_map, length_map, recompute_from_length.
Qed.

Lemma recompute_all_balances_lookup (df : list Row) i r :
  df !! i = Some r ->
  recompute_all_balances df !! i
  = Some (out_row df
            (emit (fold_left update_running (take (S i) df) running0) r)).
Proof.
  intros Hi. rewrite recompute_all_balances_map, list_lookup_fmap.
  by rewrite (recompute_from_lookup _ _ _ _ Hi).
Qed.

(** The accounts are always keys of the running table, so [running[bank]]
    and [running[b]] never raise [KeyError]. *)
Lemma update_running_keys running r :
  (forall b, b ∈ BANK_LIST -> is_Some (running !! b)) ->
  forall b, b ∈ BANK_LIST -> is_Some (update_running running r !! b).
Proof.
  intros Hk b Hb. unfold update_running.
  destruct (is_system_init r).
  - rewrite (lookup_fold_insert (fun b => notna_or_zero (balances r !! b))).
    by rewrite bool_decide_eq_true_2.
  - destruct (known_bank r) as [bank|]; [|by apply Hk].
    destruct (decide (bank = b)) as [->|Hne].
    + by rewrite lookup_insert_eq.
    + rewrite lookup_insert_ne by done. by apply Hk.
Qed.

Lemma running_after_keys df b :
  b ∈ BANK_LIST -> is_Some (running_after df !! b).
Proof.
  unfold running_after. revert b.
  induction df as [|r df IH] using rev_ind; intros b Hb; simpl.
  - rewrite running0_lookup by done. by eexists.
  - rewrite fold_left_app; simpl. by apply update_running_keys.
Qed.

Lemma previous_balance_running (df : list Row) i r b :
  df !! i = Some r -> b ∈ BANK_LIST ->
  previous_balance (recompute_all_balances df) i b
  = fold_left update_running (take i df) running0 !!! b.
Proof.
  intros Hi Hb. destruct i as [|j]; simpl.
  - by rewrite lookup_total_alt, running0_lookup.
  - destruct (lookup_lt_is_Some_2 df j) as [p Hp].
    { apply lookup_lt_Some in Hi. lia. }
    rewrite (recompute_all_balances_lookup _ _ _ Hp).
    by rewrite out_row_balances, lookup_total_alt, emit_balances_lookup.
Qed.

(** C1. In [recompute_all_balances], a row that is the reset sentinel
    (user SYSTEM, account SALDO AWAL, both compared upper-cased) gives every
    account the value of the row's own account column (zero when that is
    missing or not a number), whatever the earlier rows and its credit and
    debit; another row whose account is in BANK_LIST adds credit - debit to
    that account's previous balance and keeps the previous balance of every
    other account; another row with any other account keeps the previous
    balance of every account. *)
Theorem recompute_row_effect (df : list Row) (i : nat) (r : Row) :
  df !! i = Some r ->
  exists r', recompute_all_balances df !! i = Some r' /\
    let prev := previous_balance (recompute_all_balances df) i in
    (is_system_init r = true ->
       forall b, b ∈ BANK_LIST ->
         balances r' !! b = Some (notna_or_zero (balances r !! b))) /\
    (is_system_init r = false ->
       forall bank, known_bank r = Some bank ->
         balances r' !! bank
         = Some (fadd (prev bank) (fsub (or_zero (Credit r)) (or_zero (Debit r))))
         /\ forall b, b ∈ BANK_LIST -> b <> bank ->
              balances r' !! b = Some (prev b)) /\
    (is_system_init r = false -> known_bank r = None ->
       forall b, b ∈ BANK_LIST -> balances r' !! b = Some (prev b)).
Proof.
  intros Hi. eexists. split.
  { by apply recompute_all_balances_lookup. }
  rewrite out_row_balances.
  rewrite (take_S_r _ _ _ Hi), fold_left_app. cbn [fold_left].
  set (run := fold_left update_running (take i df) running0).
  assert (Hprev : forall b, b ∈ BANK_LIST ->
            previous_balance (recompute_all_balances df) i b = run !!! b).
  { intros b Hb. by apply (previous_balance_running df i r). }
  cbn zeta. split; [|split].
  - intros Hinit b Hb. rewrite emit_balances_lookup by done.
    unfold update_running. rewrite Hinit.
    by rewrite (lookup_total_fold_insert
                  (fun b => notna_or_zero (balances r !! b))).
  - intros Hinit bank Hbank.
    assert (Hin : bank ∈ BANK_LIST).
    { unfold known_bank in Hbank.
      destruct (str_strip (Bank_EWallet r)); [|done].
      case_bool_decide; congruence. }
    unfold update_running. rewrite Hinit, Hbank. split.
    + rewrite emit_balances_lookup by done.
      by rewrite lookup_total_insert_eq, Hprev.
    + intros b Hb Hne. rewrite emit_balances_lookup by done.
      by rewrite lookup_total_insert_ne, Hprev.
  - intros Hinit Hbank b Hb. rewrite emit_balances_lookup by done.
    unfold update_running. by rewrite Hinit, Hbank, Hprev.
Qed.


(** *** The types of the cells *)

Lemma Row_eq (r1 r2 : Row) :
  No r1 = No r2 -> Tanggal r1 = Tanggal r2 -> User_ID r1 = User_ID r2 ->
  Bank_EWallet r1 = Bank_EWallet r2 -> Keterangan r1 = Keterangan r2 ->
  Credit r1 = Credit r2 -> Debit r1 = Debit r2 ->
  Saldo_Akhir r1 = Saldo_Akhir r2 -> balances r1 = balances r2 ->
  r1 = r2.
Proof.
  destruct r1, r2. cbn. intros. subst. reflexivity.
Qed.

Lemma forallb_elem {A} (f : A -> bool) (l : list A) (x : A) :
  forallb f l = true -> x ∈ l -> f x = true.
Proof.
  intros H Hx. rewrite forallb_forall in H. by apply H, list_elem_of_In.
Qed.

(** A text in a column makes it a column of objects. *)
Lemma text_object col c :
  c ∈ col -> is_text c = true -> infer_dtype col = dt_object.
Proof.
  intros Hc Ht. unfold infer_dtype.
  destruct (forallb (fun c => is_number c || is_missing c) col) eqn:Hn.
  { pose proof (forallb_elem _ _ _ Hn Hc) as H. by destruct c. }
  destruct (forallb is_bool col) eqn:Hb; [|done].
  pose proof (forallb_elem _ _ _ Hb Hc) as H. by destruct c.
Qed.

(** A numeric column has a cell, and numbers and missing cells only. *)
Lemma numeric_numbers col :
  numeric (infer_dtype col) = true ->
  col <> [] /\ forall c, c ∈ col -> is_number c || is_missing c = true.
Proof.
  unfold infer_dtype.
  destruct (forallb (fun c => is_number c || is_missing c) col) eqn:Hn;
    cbn [andb].
  - destruct (existsb is_number col) eqn:He.
    + intros _. split; [by intros ->|].
      intros c Hc. by apply (forallb_elem _ _ _ Hn Hc).
    + by destruct (forallb is_bool col && existsb is_bool col).
  - by destruct (forallb is_bool col && existsb is_bool col).
Qed.

Lemma float64_numbers col :
  infer_dtype col = dt_float64 ->
  col <> [] /\ forall c, c ∈ col -> is_number c || is_missing c = true.
Proof. intros H. apply numeric_numbers. by rewrite H. Qed.

Lemma floats_no_int (p : Z -> bool) col :
  Forall (fun c => is_float c = true) col -> existsb (int_where p) col = false.
Proof.
  induction 1 as [|c col Hc _ IH]; [done|].
  cbn [existsb]. rewrite IH. by destruct c.
Qed.

(** A column of floats has the type [float64]. *)
Lemma floats_float64 col :
  col <> [] -> Forall (fun c => is_float c = true) col ->
  infer_dtype col = dt_float64.
Proof.
  intros Hne Hf. unfold infer_dtype.
  assert (Hn : forallb (fun c => is_number c || is_missing c) col = true).
  { apply forallb_forall. intros c Hc%list_elem_of_In.
    rewrite Forall_forall in Hf. specialize (Hf c Hc). by destruct c. }
  assert (He : existsb is_float col = true /\ existsb is_number col = true).
  { destruct Hf as [|c col Hc _]; [done|]. destruct c; try done. }
  destruct He as [He1 He2].
  by rewrite Hn, He2, !floats_no_int, He1.
Qed.

Lemma float64_cell_float c :
  is_number c || is_missing c = true -> is_float (float64_cell c) = true.
Proof. by destruct c. Qed.

Lemma float64_cell_idem c : float64_cell (float64_cell c) = float64_cell c.
Proof. by destruct c. Qed.

Lemma float64_cell_text c : is_text (float64_cell c) = is_text c.
Proof. by destruct c. Qed.

Lemma column_cast_text col c : is_text (column_cast col c) = is_text c.
Proof.
  unfold column_cast. destruct (infer_dtype col); try done.
  apply float64_cell_text.
Qed.

Lemma column_cast_float64 col c :
  infer_dtype col = dt_float64 -> column_cast col c = float64_cell c.
Proof. intros H. unfold column_cast. by rewrite H. Qed.

Lemma column_cast_other col c :
  infer_dtype col <> dt_float64 -> column_cast col c = c.
Proof. intros H. unfold column_cast. by destruct (infer_dtype col). Qed.

Lemma dtype_float64_dec (dt : dtype) : {dt = dt_float64} + {dt <> dt_float64}.
Proof. destruct dt; (by left) || (by right). Qed.

(** The cells of a numeric column, as floats, make a [float64] column. *)
Lemma floats_of_numbers col :
  col <> [] -> (forall c, c ∈ col -> is_number c || is_missing c = true) ->
  infer_dtype (map float64_cell col) = dt_float64.
Proof.
  intros Hne Hn. apply floats_float64.
  - by destruct col.
  - apply Forall_forall. intros c Hc.
    apply list_elem_of_fmap in Hc as (c' & -> & Hc').
    by apply float64_cell_float, Hn.
Qed.

(** The cells of a frame have the type of their column already. *)
Lemma column_cast_idem col c :
  column_cast (map (column_cast col) col) (column_cast col c)
  = column_cast col c.
Proof.
  destruct (dtype_float64_dec (infer_dtype col)) as [E|E].
  - rewrite (map_ext _ float64_cell) by (intros; by apply column_cast_float64).
    rewrite (column_cast_float64 col c E).
    destruct (float64_numbers col E) as [Hne Hn].
    rewrite column_cast_float64 by (by apply floats_of_numbers).
    apply float64_cell_idem.
  - rewrite (map_ext _ id) by (intros; by apply column_cast_other).
    rewrite map_id. rewrite (column_cast_other col c E).
    by apply column_cast_other.
Qed.

Lemma recompute_from_column (p : Row -> cell) :
  (forall running r, p (emit running r) = p r) ->
  forall df running, map p (recompute_from running df) = map p df.
Proof.
  intros Hp. induction df as [|r df IH]; intros running; [done|].
  cbn [recompute_from map]. by rewrite Hp, IH.
Qed.

(** A frame: its cells have the types of their columns. *)
Lemma frame_rows df r : data_frame df = df -> r ∈ df -> frame_row df r = r.
Proof.
  intros Hf Hr. apply list_elem_of_lookup in Hr as [i Hi].
  assert (H : data_frame df !! i = Some (frame_row df r)).
  { unfold data_frame. by rewrite list_lookup_fmap, Hi. }
  rewrite Hf, Hi in H. by injection H.
Qed.

Lemma data_frame_columns df :
  map Tanggal (data_frame df)
  = map (column_cast (map Tanggal df)) (map Tanggal df) /\
  map User_ID (data_frame df)
  = map (column_cast (map User_ID df)) (map User_ID df) /\
  map Bank_EWallet (data_frame df)
  = map (column_cast (map Bank_EWallet df)) (map Bank_EWallet df) /\
  map Keterangan (data_frame df)
  = map (column_cast (map Keterangan df)) (map Keterangan df).
Proof.
  unfold data_frame. rewrite !List.map_map.
  repeat split; apply map_ext; intros r; reflexivity.
Qed.

Lemma data_frame_idem df : data_frame (data_frame df) = data_frame df.
Proof.
  change (map (frame_row (data_frame df)) (map (frame_row df) df)
          = map (frame_row df) df).
  rewrite List.map_map. apply map_ext. intros r.
  destruct (data_frame_columns df) as (H1 & H2 & H3 & H4).
  apply Row_eq;
    cbn [frame_row No Tanggal User_ID Bank_EWallet Keterangan Credit Debit
         Saldo_Akhir balances];
    try reflexivity.
  - rewrite H1. apply column_cast_idem.
  - rewrite H2. apply column_cast_idem.
  - rewrite H3. apply column_cast_idem.
  - rewrite H4. apply column_cast_idem.
Qed.

Section Column.
Variable p : Row -> cell.
Hypothesis p_emit : forall running r, p (emit running r) = p r.
Hypothesis p_float64 : forall r, p (float64_row r) = float64_cell (p r).
Hypothesis p_numeric :
  forall df, float64_rows df = true -> numeric (infer_dtype (map p df)) = true.

(** The cell of an emitted record has the type that its column has in the
    frame of the records. *)
Lemma column_final df r running :
  (float64_rows df = false -> column_cast (map p df) (p r) = p r) ->
  column_cast (map p (recompute_from running0 (iterrows df)))
              (p (iter_row df (emit running r)))
  = p (iter_row df (emit running r)).
Proof.
  intros Hf. rewrite (recompute_from_column p p_emit).
  unfold iterrows, iter_row. rewrite List.map_map.
  destruct (float64_rows df) eqn:E.
  - destruct (numeric_numbers _ (p_numeric df E)) as [Hne Hn].
    rewrite (map_ext _ (fun r => float64_cell (p r))) by done.
    rewrite <- (List.map_map p float64_cell).
    rewrite column_cast_float64 by (by apply floats_of_numbers).
    by rewrite p_float64, float64_cell_idem.
  - rewrite p_emit. by apply Hf.
Qed.
End Column.

Lemma float64_rows_columns df :
  float64_rows df = true ->
  numeric (infer_dtype (map Tanggal df)) = true /\
  numeric (infer_dtype (map User_ID df)) = true /\
  numeric (infer_dtype (map Bank_EWallet df)) = true /\
  numeric (infer_dtype (map Keterangan df)) = true.
Proof.
  unfold float64_rows. rewrite !andb_true_iff. tauto.
Qed.

(** When all columns are numeric, and on a frame, the frame of the emitted
    records holds them as they are. *)
Lemma out_row_iter df r running :
  (float64_rows df = false -> frame_row df r = r) ->
  out_row df (emit running r) = iter_row df (emit running r).
Proof.
  intros Hrow. unfold out_row.
  apply Row_eq;
    cbn [frame_row No Tanggal User_ID Bank_EWallet Keterangan Credit Debit
         Saldo_Akhir balances];
    try reflexivity.
  - apply (column_final Tanggal); try done.
    + intros l H. by apply float64_rows_columns.
    + intros E. by apply (f_equal Tanggal) in Hrow.
  - apply (column_final User_ID); try done.
    + intros l H. by apply float64_rows_columns.
    + intros E. by apply (f_equal User_ID) in Hrow.
  - apply (column_final Bank_EWallet); try done.
    + intros l H. by apply float64_rows_columns.
    + intros E. by apply (f_equal Bank_EWallet) in Hrow.
  - apply (column_final Keterangan); try done.
    + intros l H. by apply float64_rows_columns.
    + intros E. by apply (f_equal Keterangan) in Hrow.
Qed.

Lemma out_row_frame df r running :
  data_frame df = df -> r ∈ df ->
  out_row df (emit running r) = iter_row df (emit running r).
Proof.
  intros Hf Hr. apply out_row_iter. intros _. by apply frame_rows.
Qed.

Lemma recompute_all_balances_frame df :
  data_frame df = df ->
  recompute_all_balances df = map (iter_row df) (recompute_from running0 df).
Proof.
  intros Hf. rewrite recompute_all_balances_map.
  apply list_eq. intros i. rewrite !list_lookup_fmap.
  destruct (df !! i) as [r|] eqn:Hi.
  - rewrite (recompute_from_lookup _ _ _ _ Hi). cbn [fmap option_fmap option_map].
    f_equal. apply out_row_frame; [done|].
    apply list_elem_of_lookup. eauto.
  - rewrite (proj2 (lookup_ge_None _ i)); [done|].
    rewrite recompute_from_length. by apply lookup_ge_None.
Qed.

(** The records of the snapshot: those of the rows as they are, with
    the cells as the frame and [iterrows] give them. *)
Lemma recompute_map df :
  recompute df
  = renumber
      (map select_headers
         (map (fun r => iter_row (data_frame df) (frame_row df r))
              (recompute_from running0 df))).
Proof.
  unfold recompute.
  rewrite recompute_all_balances_frame by apply data_frame_idem.
  generalize (iter_row (data_frame df)). intros c. unfold data_frame.
  rewrite (recompute_from_map (frame_row df));
    [|apply frame_row_amounts|intros; apply emit_frame_row].
  by rewrite !List.map_map.
Qed.

Lemma recompute_length df : length (recompute df) = length df.
Proof.
  rewrite recompute_map. unfold renumber.
  by rewrite length_imap, !length_map, recompute_from_length.
Qed.

(** A text in one of the four columns: the rows keep the type
    [object]. *)
Lemma has_text_object df : has_text df -> float64_rows df = false.
Proof.
  intros H. apply Exists_exists in H as (r & Hr & Ht).
  unfold text_in in Ht. unfold float64_rows.
  rewrite !orb_true_iff in Ht.
  destruct Ht as [[[Ht|Ht]|Ht]|Ht].
  - rewrite (text_object (map Tanggal df) (Tanggal r)); [|by apply list_elem_of_fmap_2|done].
    cbn [numeric]. by rewrite !andb_false_r.
  - rewrite (text_object (map User_ID df) (User_ID r)); [|by apply list_elem_of_fmap_2|done].
    cbn [numeric]. by rewrite !andb_false_r.
  - rewrite (text_object (map Bank_EWallet df) (Bank_EWallet r)); [|by apply list_elem_of_fmap_2|done].
    cbn [numeric]. by rewrite !andb_false_r.
  - rewrite (text_object (map Keterangan df) (Keterangan r)); [|by apply list_elem_of_fmap_2|done].
    cbn [numeric]. by rewrite !andb_false_r.
Qed.

Lemma demo_rows_frame : data_frame demo_rows = demo_rows.
Proof. vm_compute. reflexivity. Qed.

(** C10, as the code has it. [recompute_all_balances] emits one record per
    row, in the order of the rows; each record keeps its row's 'Credit' and
    'Debit', and columns other than the account columns and 'Saldo Akhir'
    are not written. What becomes of 'No.', 'Tanggal', 'User ID',
    'Bank/EWallet' and 'Keterangan' depends on the types of these columns
    in the frame. When they are not all numeric (a text in one of them is
    enough) the rows of a frame keep the five cells as they are. When they
    are all numeric the rows come out of [iterrows] as rows of floats, and
    each of the five cells is the float of its number. *)
Theorem recompute_frame (df : list Row) :
  length (recompute_all_balances df) = length df /\
  forall i r, df !! i = Some r ->
    exists r', recompute_all_balances df !! i = Some r' /\
      Credit r' = Credit r /\ Debit r' = Debit r /\
      (forall k, k ∉ BANK_LIST -> balances r' !! k = balances r !! k) /\
      (data_frame df = df -> float64_rows df = false ->
         No r' = No r /\ Tanggal r' = Tanggal r /\ User_ID r' = User_ID r /\
         Bank_EWallet r' = Bank_EWallet r /\ Keterangan r' = Keterangan r) /\
      (float64_rows df = true ->
         No r' = float64_value (fint (No r)) /\
         Tanggal r' = float64_cell (Tanggal r) /\
         User_ID r' = float64_cell (User_ID r) /\
         Bank_EWallet r' = float64_cell (Bank_EWallet r) /\
         Keterangan r' = float64_cell (Keterangan r)).
Proof.
  split; [apply recompute_all_balances_length|].
  intros i r Hi. eexists. split.
  { by apply recompute_all_balances_lookup. }
  set (run := fold_left update_running (take (S i) df) running0).
  destruct (out_row_amounts df (emit run r)) as (_ & _ & Hc & Hd & _ & Hb).
  split; [exact Hc|]. split; [exact Hd|]. split.
  { intros k Hk. rewrite Hb. by apply emit_balances_other. }
  split.
  - intros Hf E. rewrite out_row_frame; [|done|].
    + unfold iter_row. rewrite E. by cbn.
    + apply list_elem_of_lookup. eauto.
  - intros E. rewrite out_row_iter by (intros E'; congruence).
    unfold iter_row. rewrite E. by cbn.
Qed.

Lemma recompute_frame_witness :
  exists r', recompute_all_balances demo_rows !! 1%nat = Some r' /\
    No r' = 7 /\ Tanggal r' = CStr "01/01/2024 10:00:00" /\
    User_ID r' = CStr "ani" /\ Credit r' = fint 500.
Proof.
  destruct (recompute_frame demo_rows) as [_ H].
  destruct (H 1%nat (demo_row "ani" "BCA" 500 0 0) eq_refl)
    as (r' & Hr & Hc & _ & _ & Hobj & _).
  destruct (Hobj demo_rows_frame eq_refl) as (Hn & Ht & Hu & _).
  exists r'. repeat split; assumption.
Defined.

(** C10 as stated fails: in a frame of numbers only, a date kept as the
    number 2^53+1 comes out as the float 2^53, and the user 12 as the
    float 12.0. *)
Lemma recompute_frame_numbers :
  exists r r', demo_numbers !! 0%nat = Some r /\
    recompute_all_balances demo_numbers !! 0%nat = Some r' /\
    data_frame demo_numbers = demo_numbers /\
    Tanggal r = CInt (2 ^ 53 + 1) /\ Tanggal r' = CFloat (fint (2 ^ 53)) /\
    User_ID r = CInt 12 /\ User_ID r' = CFloat (fint 12) /\
    Tanggal r' <> Tanggal r /\ User_ID r' <> User_ID r.
Proof.
  eexists _, _. split; [reflexivity|]. split; [vm_compute; reflexivity|].
  split; [vm_compute; reflexivity|].
  repeat split; try (vm_compute; reflexivity); discriminate.
Qed.
(** *** Idempotence *)

Lemma fold_insert_ext (f g : string -> float) (keys : list string)
    (m : gmap string float) :
  (forall b, b ∈ keys -> f b = g b) ->
  fold_left (fun acc b => <[b := f b]> acc) keys m
  = fold_left (fun acc b => <[b := g b]> acc) keys m.
Proof.
  intros Hfg. apply map_eq. intros k.
  rewrite !lookup_fold_insert. case_bool_decide; [|done].
  by rewrite Hfg.
Qed.

Lemma is_system_init_inputs r1 r2 :
  User_ID r1 = User_ID r2 -> Bank_EWallet r1 = Bank_EWallet r2 ->
  is_system_init r1 = is_system_init r2.
Proof. intros Hu Hb. unfold is_system_init. by rewrite Hu, Hb. Qed.

Lemma update_running_ext running r1 r2 :
  same_inputs r1 r2 -> update_running running r1 = update_running running r2.
Proof.
  intros (_ & Hu & Hb & _ & Hc & Hd & Hreset).
  unfold update_running, known_bank.
  rewrite <- (is_system_init_inputs r1 r2 Hu Hb), Hb, Hc, Hd.
  destruct (is_system_init r1); [|done].
  apply fold_insert_ext. intros b Hin. by apply Hreset.
Qed.

(** After [df[HEADERS]] the account columns of an emitted record are the
    running balances and nothing else. *)
Lemma select_emit_balances running r1 r2 :
  balances (select_headers (emit running r1))
  = balances (select_headers (emit running r2)).
Proof.
  apply map_eq. intros k. apply option_eq. intros v.
  cbn [balances select_headers].
  rewrite !map_lookup_filter_Some. cbn [fst].
  split; intros [Hk Hin]; split; try done;
    rewrite emit_balances_lookup in Hk |- * by done; done.
Qed.

Lemma number_from_cons k r df :
  number_from k (r :: df) = set_no k r :: number_from (k + 1) df.
Proof.
  unfold number_from. rewrite imap_cons. f_equal.
  apply imap_ext. intros i x _. unfold compose. f_equal. lia.
Qed.

Lemma snapshot_row_ext k running r1 r2 :
  same_inputs r1 r2 ->
  set_no k (select_headers (emit running r1))
  = set_no k (select_headers (emit running r2)).
Proof.
  intros (Ht & Hu & Hb & Hk & Hc & Hd & _).
  pose proof (select_emit_balances running r1 r2) as Hbal.
  apply Row_eq;
    cbn [No Tanggal User_ID Bank_EWallet Keterangan Credit Debit Saldo_Akhir
         balances set_no select_headers emit] in *;
    first [ assumption | exact eq_refl ].
Qed.

Lemma snapshot_ext k running df1 df2 :
  Forall2 same_inputs df1 df2 ->
  number_from k (map select_headers (recompute_from running df1))
  = number_from k (map select_headers (recompute_from running df2)).
Proof.
  intros H. revert k running.
  induction H as [|r1 r2 df1 df2 Hr _ IH]; intros k running; [done|].
  cbn [recompute_from map]. rewrite !number_from_cons.
  rewrite <- (update_running_ext running r1 r2 Hr).
  rewrite (snapshot_row_ext k _ r1 r2 Hr). by rewrite IH.
Qed.

Lemma notna_or_zero_idem (val : option float) :
  notna_or_zero (Some (notna_or_zero val)) = notna_or_zero val.
Proof. by destruct val as [[| | |]|]. Qed.

Lemma snapshot_same_inputs k running df :
  Forall2 same_inputs
    (number_from k (map select_headers (recompute_from running df))) df.
Proof.
  revert k running. induction df as [|r df IH]; intros k running.
  - constructor.
  - cbn [recompute_from map]. rewrite number_from_cons.
    constructor; [|apply IH].
    repeat split; try reflexivity.
    intros Hinit b Hb.
    cbn [balances set_no select_headers].
    assert (Hr : is_system_init r = true) by exact Hinit.
    rewrite (map_lookup_filter_Some_2 _ _ b
               (update_running running r !!! b)).
    + unfold update_running. rewrite Hr.
      rewrite (lookup_total_fold_insert
                 (fun b => notna_or_zero (balances r !! b))) by done.
      apply notna_or_zero_idem.
    + by apply emit_balances_lookup.
    + done.
Qed.

(** *** Writing the snapshot back *)

Lemma rbind_ok {A B} (a : A) (k : A -> result B) : (Ok a ≫= k) = k a.
Proof. reflexivity. Qed.

Lemma rbind_raise {A B} e (k : A -> result B) : (Raise e ≫= k) = Raise e.
Proof. reflexivity. Qed.

Lemma header_index_snoc header c :
  header_index (header ++ [c])
  = match c with
    | CStr h => <[h := length header]> (header_index header)
    | _ => header_index header
    end.
Proof.
  unfold header_index. rewrite imap_app, fold_left_app.
  cbn [imap fold_left snd fst]. rewrite Nat.add_0_r. reflexivity.
Qed.

Lemma lookup_snoc_other {A} (l : list A) (c x : A) i :
  c <> x -> (l ++ [c]) !! i = Some x <-> l !! i = Some x.
Proof.
  intros Hne. destruct (decide (i < length l)%nat) as [Hlt|Hge].
  - now rewrite lookup_app_l.
  - rewrite lookup_app_r by lia. rewrite (lookup_ge_None_2 l i) by lia.
    destruct (i - length l)%nat; cbn; split; intros H; try discriminate H.
    injection H as H. now elim Hne.
Qed.

Lemma cell_is_title (c : cell) (h : string) : {c = CStr h} + {c <> CStr h}.
Proof.
  destruct c as [ |b|n|x|h']; try (right; discriminate).
  destruct (decide (h' = h)) as [->|Hne]; [now left|].
  right. intros E. injection E as E. now apply Hne.
Qed.

Lemma header_index_some header h i :
  header_index header !! h = Some i <->
  header !! i = Some (CStr h) /\
  forall j, (i < j)%nat -> header !! j <> Some (CStr h).
Proof.
  revert i. induction header as [|c header IH] using rev_ind; intros i.
  - unfold header_index. cbn. rewrite lookup_empty. split; [discriminate|].
    intros [H _]. discriminate H.
  - rewrite header_index_snoc.
    destruct (cell_is_title c h) as [->|Hne].
    + rewrite lookup_insert_eq. split.
      * intros H. injection H as <-. split.
        -- now rewrite lookup_app_r, Nat.sub_diag by lia.
        -- intros j Hj. rewrite lookup_ge_None_2; [discriminate|].
           rewrite length_app. cbn. lia.
      * intros [Hi Hlast]. f_equal.
        destruct (Nat.lt_trichotomy i (length header)) as [Hlt|[->|Hgt]];
          [|reflexivity|].
        -- elim (Hlast (length header) Hlt).
           now rewrite lookup_app_r, Nat.sub_diag by lia.
        -- rewrite lookup_ge_None_2 in Hi; [discriminate Hi|].
           rewrite length_app. cbn. lia.
    + assert (E : (match c with
                   | CStr h' => <[h' := length header]> (header_index header)
                   | _ => header_index header
                   end) !! h = header_index header !! h).
      { destruct c as [ |b|n|x|h']; try reflexivity.
        apply lookup_insert_ne. intros ->. now apply Hne. }
      rewrite E, IH, (lookup_snoc_other _ _ _ _ Hne). split.
      * intros [Hi Hlast]. split; [exact Hi|]. intros j Hj.
        rewrite (lookup_snoc_other _ _ _ _ Hne). now apply Hlast.
      * intros [Hi Hlast]. split; [exact Hi|]. intros j Hj.
        rewrite <- (lookup_snoc_other _ c _ _ Hne). now apply Hlast.
Qed.

Lemma header_index_none header h :
  header_index header !! h = None <-> CStr h ∉ header.
Proof.
  induction header as [|c header IH] using rev_ind.
  - unfold header_index. cbn. rewrite lookup_empty. split; [|reflexivity].
    intros _. apply not_elem_of_nil.
  - rewrite header_index_snoc, not_elem_of_app, list_elem_of_singleton.
    destruct (cell_is_title c h) as [->|Hne].
    + rewrite lookup_insert_eq. split; [discriminate|]. intros [_ H]. now elim H.
    + assert (E : (match c with
                   | CStr h' => <[h' := length header]> (header_index header)
                   | _ => header_index header
                   end) !! h = header_index header !! h).
      { destruct c as [ |b|n|x|h']; try reflexivity.
        apply lookup_insert_ne. intros ->. now apply Hne. }
      rewrite E, IH. split; [|tauto]. intros H. split; [exact H|].
      intros E'. now apply Hne.
Qed.

Lemma new_style_fresh :
  Forall (fun b => new_style_title b ∉ HEADERS) BANK_LIST.
Proof. compute_done. Qed.

Lemma HEADERS_NoDup : NoDup HEADERS.
Proof. compute_done. Qed.

Lemma canonical_index h i :
  HEADERS !! i = Some h -> header_index header_row !! h = Some i.
Proof.
  intros H. apply header_index_some. unfold header_row. split.
  - now rewrite list_lookup_fmap, H.
  - intros j Hj E. rewrite list_lookup_fmap in E.
    destruct (HEADERS !! j) as [h'|] eqn:Hj'; [|discriminate E].
    cbn in E. injection E as ->.
    pose proof (NoDup_lookup _ _ _ _ HEADERS_NoDup H Hj'). lia.
Qed.

Lemma canonical_new_style h :
  h ∈ BANK_LIST -> header_index header_row !! new_style_title h = None.
Proof.
  intros Hb. apply header_index_none. unfold header_row. intros Hin.
  apply list_elem_of_fmap in Hin as (s & E & Hs). injection E as <-.
  pose proof new_style_fresh as F. rewrite Forall_forall in F.
  now apply (F h Hb).
Qed.

(** With the header that the program writes, the cell of a column is the
    cell at the place of its title in HEADERS. *)
Lemma canonical_get_cell row h i :
  HEADERS !! i = Some h ->
  get_cell (header_index header_row) row h = default (CStr "") (row !! i).
Proof.
  intros H. unfold get_cell, at_column. rewrite (canonical_index _ _ H).
  cbn [mbind option_bind]. destruct (row !! i) as [v|]; [reflexivity|].
  case_bool_decide as Hb; [|reflexivity].
  fold (new_style_title h). now rewrite (canonical_new_style h Hb).
Qed.

Lemma whole_or_zero x : whole x -> or_zero x = x.
Proof.
  destruct x as [[]| | |]; try reflexivity.
  intros H. vm_compute in H. discriminate H.
Qed.

Lemma whole_notna x : whole x -> notna_or_zero (Some x) = x.
Proof.
  destruct x as [| | |]; try reflexivity. intros H. discriminate H.
Qed.

Lemma parse_accounts_floats idx row (f : string -> float) banks :
  (forall b, b ∈ banks -> get_cell idx row b = CFloat (f b) /\ whole (f b)) ->
  exists m, parse_accounts idx row banks = Ok m /\
    forall k, m !! k = if bool_decide (k ∈ banks) then Some (f k) else None.
Proof.
  induction banks as [|b banks IH]; intros H.
  - exists ∅. split; [reflexivity|]. intros k. now rewrite lookup_empty.
  - destruct IH as (m & Hm & Hk); [intros b' Hb'; apply H; now right|].
    destruct (H b) as [Hc Hw]; [left|].
    exists (<[b := f b]> m). split.
    + cbn [parse_accounts]. rewrite Hc.
      change (parse_amount_idr (CFloat (f b))) with (round_idr (f b)).
      rewrite Hw, rbind_ok, Hm. reflexivity.
    + intros k. destruct (decide (k = b)) as [->|Hne].
      * rewrite lookup_insert_eq, bool_decide_eq_true_2; [reflexivity|left].
      * rewrite lookup_insert_ne, Hk by congruence.
        apply (f_equal (fun c : bool => if c then Some (f k) else None)).
        apply bool_decide_ext. rewrite elem_of_cons. tauto.
Qed.

Lemma BANK_LIST_place b :
  b ∈ BANK_LIST -> exists k, BANK_LIST !! k = Some b /\
                             HEADERS !! (8 + k)%nat = Some b.
Proof.
  intros Hb. apply list_elem_of_lookup in Hb as [k Hk]. exists k.
  split; [exact Hk|]. unfold HEADERS.
  rewrite lookup_app_r by (cbn; lia). cbn [length].
  now replace (8 + k - 8)%nat with k by lia.
Qed.

Lemma snapshot_balances running r k b :
  balances (set_no k (select_headers (emit running r))) !! b
  = if bool_decide (b ∈ BANK_LIST) then Some (running !!! b) else None.
Proof.
  cbn [set_no select_headers balances].
  case_bool_decide as Hb.
  - apply map_lookup_filter_Some. split; [|exact Hb].
    now apply emit_balances_lookup.
  - apply map_lookup_filter_None. right. intros x _. exact Hb.
Qed.

(** A record whose amounts are whole and whose account columns are those
    of BANK_LIST is read back from its row as it is. *)
Lemma store_row_account r b :
  b ∈ BANK_LIST -> is_Some (balances r !! b) ->
  get_cell (header_index header_row) (store_row r) b
  = CFloat (balances r !!! b).
Proof.
  intros Hb [x Hx]. destruct (BANK_LIST_place b Hb) as (k & Hk & Hh).
  rewrite (canonical_get_cell _ _ _ Hh). unfold store_row.
  rewrite lookup_app_r by (cbn; lia). cbn [length].
  replace (8 + k - 8)%nat with k by lia.
  rewrite list_lookup_fmap, Hk. cbn [fmap option_fmap option_map default].
  by rewrite lookup_total_alt, Hx.
Qed.

Lemma store_row_decode r :
  whole_row r ->
  (forall k, is_Some (balances r !! k) <-> k ∈ BANK_LIST) ->
  decode_row (header_index header_row) (store_row r) = Ok r.
Proof.
  intros (Hc & Hd & Ht & Hw) Hkeys.
  destruct (parse_accounts_floats (header_index header_row) (store_row r)
              (fun b => balances r !!! b) BANK_LIST)
    as (m & Hm & Hk).
  { intros b Hb. split; [|by apply Hw].
    apply store_row_account; [done|]. by apply Hkeys. }
  assert (Em : m = balances r).
  { apply map_eq. intros k. rewrite Hk. case_bool_decide as Hin.
    - apply Hkeys in Hin as [x Hx]. by rewrite lookup_total_alt, Hx.
    - symmetry. apply eq_None_not_Some. by rewrite Hkeys. }
  subst m. unfold decode_row.
  rewrite (canonical_get_cell (store_row r) "Credit" 5 eq_refl).
  rewrite (canonical_get_cell (store_row r) "Debit" 6 eq_refl).
  rewrite (canonical_get_cell (store_row r) "Saldo Akhir" 7 eq_refl).
  rewrite (canonical_get_cell (store_row r) "No." 0 eq_refl).
  rewrite (canonical_get_cell (store_row r) "Tanggal" 1 eq_refl).
  rewrite (canonical_get_cell (store_row r) "User ID" 2 eq_refl).
  rewrite (canonical_get_cell (store_row r) "Bank/EWallet" 3 eq_refl).
  rewrite (canonical_get_cell (store_row r) "Keterangan" 4 eq_refl).
  rewrite Hm. unfold store_row.
  cbn [app lookup list_lookup default from_option id].
  change (parse_amount_idr (CFloat (Credit r))) with (round_idr (Credit r)).
  change (parse_amount_idr (CFloat (Debit r))) with (round_idr (Debit r)).
  change (parse_amount_idr (CFloat (Saldo_Akhir r)))
    with (round_idr (Saldo_Akhir r)).
  unfold whole in Hc, Hd, Ht.
  rewrite Hc, rbind_ok, Hd, rbind_ok, Ht, !rbind_ok.
  f_equal. by destruct r.
Qed.

Lemma store_rows_decode (l : list Row) :
  (forall r, r ∈ l ->
     whole_row r /\ forall k, is_Some (balances r !! k) <-> k ∈ BANK_LIST) ->
  decode_rows (header_index header_row) (map store_row l) = Ok l.
Proof.
  induction l as [|r l IH]; intros H; [done|].
  cbn [map decode_rows].
  destruct (H r) as [Hw Hk]; [left|].
  rewrite (store_row_decode r Hw Hk), rbind_ok.
  rewrite IH by (intros r' Hr'; apply H; by right).
  by rewrite rbind_ok.
Qed.

(** *** The records of the snapshot *)

Lemma snapshot_cells_amounts df r : same_amounts (snapshot_cells df r) r.
Proof.
  unfold snapshot_cells.
  apply (same_amounts_trans _ (frame_row df r));
    [apply iter_row_amounts | apply frame_row_amounts].
Qed.

Lemma snapshot_cells_balances df r :
  balances (snapshot_cells df r) = balances r.
Proof. apply snapshot_cells_amounts. Qed.

Lemma recompute_lookup df i r' :
  recompute df !! i = Some r' ->
  exists r, df !! i = Some r /\
    r' = set_no (Z.of_nat i + 1)
           (select_headers
              (snapshot_cells df
                 (emit (fold_left update_running (take (S i) df) running0)
                       r))).
Proof.
  rewrite recompute_map. unfold renumber.
  rewrite list_lookup_imap, !list_lookup_fmap.
  destruct (df !! i) as [r|] eqn:Hr.
  - rewrite (recompute_from_lookup _ _ _ _ Hr).
    cbn [fmap option_fmap option_map]. intros H. injection H as <-.
    by exists r.
  - rewrite (proj2 (lookup_ge_None _ i)); [done|].
    rewrite recompute_from_length. by apply lookup_ge_None.
Qed.

Lemma snapshot_cells_accounts df running r k b :
  balances (set_no k (select_headers (snapshot_cells df (emit running r))))
    !! b
  = if bool_decide (b ∈ BANK_LIST) then Some (running !!! b) else None.
Proof.
  rewrite <- (snapshot_balances running r k b).
  cbn [set_no select_headers balances].
  by rewrite snapshot_cells_balances.
Qed.

Lemma recompute_accounts df i r' b :
  recompute df !! i = Some r' ->
  is_Some (balances r' !! b) <-> b ∈ BANK_LIST.
Proof.
  intros H. apply recompute_lookup in H as (r & _ & ->).
  rewrite snapshot_cells_accounts.
  case_bool_decide as Hb; split; intros H; try done.
Qed.

(** *** The snapshot of a snapshot *)

Lemma text_in_frame_row df r : text_in (frame_row df r) = text_in r.
Proof.
  unfold text_in. cbn [frame_row Tanggal User_ID Bank_EWallet Keterangan].
  by rewrite !column_cast_text.
Qed.

Lemma has_text_frame df : has_text df -> has_text (data_frame df).
Proof.
  intros H. apply Exists_exists in H as (r & Hr & Ht).
  apply Exists_exists. exists (frame_row df r). split.
  - unfold data_frame. by apply list_elem_of_fmap_2.
  - by rewrite text_in_frame_row.
Qed.

(** With a text in the table, [iterrows] yields the rows of the frame as
    they are. *)
Lemma recompute_text df :
  has_text df ->
  recompute df
  = number_from 1
      (map select_headers (recompute_from running0 (data_frame df))).
Proof.
  intros H. unfold recompute.
  rewrite recompute_all_balances_frame by apply data_frame_idem.
  rewrite (map_ext (iter_row (data_frame df)) id).
  - by rewrite map_id.
  - intros r. unfold iter_row.
    by rewrite (has_text_object _ (has_text_frame _ H)).
Qed.

Lemma snapshot_column (p : Row -> cell) :
  (forall k running r, p (set_no k (select_headers (emit running r))) = p r) ->
  forall l k running,
    map p (number_from k (map select_headers (recompute_from running l)))
    = map p l.
Proof.
  intros Hp. induction l as [|r l IH]; intros k running; [done|].
  cbn [recompute_from map]. rewrite number_from_cons. cbn [map].
  by rewrite Hp, IH.
Qed.

Lemma frame_row_columns l1 l2 r :
  map Tanggal l1 = map Tanggal l2 -> map User_ID l1 = map User_ID l2 ->
  map Bank_EWallet l1 = map Bank_EWallet l2 ->
  map Keterangan l1 = map Keterangan l2 ->
  frame_row l1 r = frame_row l2 r.
Proof. intros H1 H2 H3 H4. unfold frame_row. by rewrite H1, H2, H3, H4. Qed.

Lemma snapshot_frame_rows F : forall l k running,
  (forall f, f ∈ l -> frame_row F f = f) ->
  map (frame_row F)
      (number_from k (map select_headers (recompute_from running l)))
  = number_from k (map select_headers (recompute_from running l)).
Proof.
  induction l as [|r l IH]; intros k running H; [done|].
  cbn [recompute_from map]. rewrite number_from_cons. cbn [map].
  rewrite IH by (intros f Hf; apply H; by right).
  pose proof (H r ltac:(left)) as Hr.
  set (running' := update_running running r).
  assert (E : frame_row F (set_no k (select_headers (emit running' r)))
              = set_no k (select_headers (emit running' r))).
  { apply Row_eq;
      cbn [frame_row set_no select_headers emit No Tanggal User_ID
           Bank_EWallet Keterangan Credit Debit Saldo_Akhir balances];
      try reflexivity.
    - by apply (f_equal Tanggal) in Hr.
    - by apply (f_equal User_ID) in Hr.
    - by apply (f_equal Bank_EWallet) in Hr.
    - by apply (f_equal Keterangan) in Hr. }
  by rewrite E.
Qed.

Lemma has_text_snapshot l :
  has_text l -> forall k running,
  has_text (number_from k (map select_headers (recompute_from running l))).
Proof.
  induction 1 as [r l Hr|r l _ IH]; intros k running;
    cbn [recompute_from map]; rewrite number_from_cons.
  - apply Exists_cons_hd. unfold text_in in *.
    cbn [set_no select_headers emit Tanggal User_ID Bank_EWallet Keterangan].
    exact Hr.
  - apply Exists_cons_tl, IH.
Qed.

(** The snapshot of a table with a text in it is a frame whose
    recomputation changes nothing. *)
Lemma recompute_recompute df :
  has_text df -> recompute (recompute df) = recompute df.
Proof.
  intros H. rewrite (recompute_text df H).
  pose proof (has_text_frame df H) as HF.
  set (F := data_frame df) in *.
  set (S := number_from 1 (map select_headers (recompute_from running0 F))).
  assert (HS : has_text S) by (by apply has_text_snapshot).
  rewrite (recompute_text S HS).
  assert (E : data_frame S = S).
  { unfold data_frame.
    rewrite (map_ext (frame_row S) (frame_row F)).
    - apply snapshot_frame_rows. intros f Hf.
      apply frame_rows; [apply data_frame_idem | done].
    - intros r. apply frame_row_columns; by apply snapshot_column. }
  rewrite E. apply snapshot_ext, snapshot_same_inputs.
Qed.


Lemma same_float_eq x y : same_float x y = true -> x = y.
Proof.
  destruct x as [s|s| |s m e], y as [t|t| |t n f]; cbn; try discriminate.
  - by intros ->%eqb_prop.
  - by intros ->%eqb_prop.
  - done.
  - rewrite !andb_true_iff.
    by intros [[->%eqb_prop ->%Pos.eqb_eq] ->%Z.eqb_eq].
Qed.

Lemma is_whole_spec x : is_whole x = true -> whole x.
Proof.
  unfold is_whole, whole. destruct (round_idr x) as [y|e]; [|done].
  by intros ->%same_float_eq.
Qed.

Lemma is_whole_row_spec r : is_whole_row r = true -> whole_row r.
Proof.
  unfold is_whole_row, whole_row. rewrite !andb_true_iff.
  intros [[[Hc Hd] Hs] Hb].
  repeat split; try by apply is_whole_spec.
  intros b Hin. apply is_whole_spec. by apply (forallb_elem _ _ _ Hb).
Qed.

Lemma whole_rows (l : list Row) r :
  forallb is_whole_row l = true -> r ∈ l -> whole_row r.
Proof. intros H Hr. by apply is_whole_row_spec, (forallb_elem _ _ _ H). Qed.



(** *** Tables with a row of texts

    Every row that the program writes has texts in 'Tanggal', 'User ID',
    'Bank/EWallet' and 'Keterangan'. With one such row, the four columns
    are columns of objects, and the cells go through the frames and
    through [iterrows] as they are. *)

Lemma text_row_cells r :
  text_row r = true ->
  is_text (Tanggal r) = true /\ is_text (User_ID r) = true /\
  is_text (Bank_EWallet r) = true /\ is_text (Keterangan r) = true.
Proof. unfold text_row. rewrite !andb_true_iff. tauto. Qed.

Lemma text_row_has_text df :
  Exists (fun r => text_row r = true) df -> has_text df.
Proof.
  intros H. apply (Exists_impl _ _ _ H). intros r Hr.
  apply text_row_cells in Hr as (Ht & _). unfold text_in. by rewrite Ht.
Qed.

Lemma text_row_frame df r :
  Exists (fun r => text_row r = true) df -> frame_row df r = r.
Proof.
  intros H. apply Exists_exists in H as (t & Ht & Hrow).
  apply text_row_cells in Hrow as (H1 & H2 & H3 & H4).
  apply Row_eq;
    cbn [frame_row No Tanggal User_ID Bank_EWallet Keterangan Credit Debit
         Saldo_Akhir balances];
    try reflexivity; apply column_cast_other.
  - rewrite (text_object _ (Tanggal t)); [done|by apply list_elem_of_fmap_2|done].
  - rewrite (text_object _ (User_ID t)); [done|by apply list_elem_of_fmap_2|done].
  - rewrite (text_object _ (Bank_EWallet t)); [done|by apply list_elem_of_fmap_2|done].
  - rewrite (text_object _ (Keterangan t)); [done|by apply list_elem_of_fmap_2|done].
Qed.

Lemma text_columns_frame df : text_columns df -> data_frame df = df.
Proof.
  intros [->|H]; [done|]. unfold data_frame.
  rewrite (map_ext (frame_row df) id); [apply map_id|].
  intros r. by apply text_row_frame.
Qed.

Lemma text_columns_iterrows df : text_columns df -> iterrows df = df.
Proof.
  intros [->|H]; [done|]. unfold iterrows.
  rewrite (map_ext (iter_row df) id); [apply map_id|].
  intros r. unfold iter_row.
  by rewrite (has_text_object _ (text_row_has_text _ H)).
Qed.

Lemma text_columns_recompute_from df running :
  text_columns df -> text_columns (recompute_from running df).
Proof.
  intros [->|H]; [by left|]. right. revert running.
  induction H as [r l Hr|r l _ IH]; intros running; cbn [recompute_from].
  - apply Exists_cons_hd. unfold text_row in *.
    cbn [emit Tanggal User_ID Bank_EWallet Keterangan]. exact Hr.
  - apply Exists_cons_tl, IH.
Qed.

(** On such a table the recomputation is the fold over the rows as they
    are. *)
Lemma text_columns_all_balances df :
  text_columns df -> recompute_all_balances df = recompute_from running0 df.
Proof.
  intros H. unfold recompute_all_balances.
  rewrite (text_columns_iterrows df H).
  apply text_columns_frame. by apply text_columns_recompute_from.
Qed.

Lemma text_columns_recompute df :
  text_columns df ->
  recompute df = renumber (map select_headers (recompute_from running0 df)).
Proof.
  intros H. unfold recompute.
  by rewrite (text_columns_frame df H), (text_columns_all_balances df H).
Qed.

Lemma text_columns_app df1 df2 :
  text_columns df1 -> text_columns df2 -> text_columns (df1 ++ df2).
Proof.
  intros [->|H1] H2; [done|]. right. apply Exists_app. by left.
Qed.

Lemma text_columns_snoc df r :
  text_row r = true -> text_columns (df ++ [r]).
Proof.
  intros H. right. apply Exists_app. right. by apply Exists_cons_hd.
Qed.
(** *** Instances on the scenario rows *)

Lemma recompute_row_effect_witness :
  exists r', recompute_all_balances demo_rows !! 1%nat = Some r' /\
    balances r' !! "BCA" = Some (fint 1500) /\
    balances r' !! "OVO" = Some fzero.
Proof.
  destruct (recompute_row_effect demo_rows 1 (demo_row "ani" "BCA" 500 0 0)
              eq_refl) as (r' & Hr & _ & Hmut & _).
  exists r'. split; [exact Hr|].
  destruct (Hmut eq_refl "BCA" eq_refl) as [Hbca Hother].
  split.
  - rewrite Hbca. vm_compute. reflexivity.
  - rewrite (Hother "OVO"); [vm_compute; reflexivity | compute_done | discriminate].
Defined.


(** ** Amount parsing *)

Lemma parse_examples :
  parse_amount_idr (CStr "Rp1.234.567") = Ok (fint 1234567) /\
  parse_amount_idr (CStr "(500)") = Ok (fint (-500)) /\
  parse_amount_idr (CStr "1,234.56") = Ok (fint 1235).
Proof. repeat split; vm_compute; reflexivity. Qed.

Lemma parse_ties :
  parse_amount_idr (CStr "0.5") = Ok (fint 0) /\
  parse_amount_idr (CStr "1.5") = Ok (fint 2) /\
  parse_amount_idr (CStr "2.5") = Ok (fint 2) /\
  parse_amount_idr (CStr "3.5") = Ok (fint 4).
Proof. repeat split; vm_compute; reflexivity. Qed.

(** C5, as the code has it. [parse_amount_idr] gives 1234567 for
    "Rp1.234.567", -500 for "(500)" and 1235 for "1,234.56"; the rounding is
    to the nearest integer and a half goes to the even neighbour: 0.5 gives
    0, 1.5 and 2.5 give 2, 3.5 gives 4. *)
Theorem parse_amount_idr_examples :
  parse_amount_idr (CStr "Rp1.234.567") = Ok (fint 1234567) /\
  parse_amount_idr (CStr "(500)") = Ok (fint (-500)) /\
  parse_amount_idr (CStr "1,234.56") = Ok (fint 1235) /\
  parse_amount_idr (CStr "0.5") = Ok (fint 0) /\
  parse_amount_idr (CStr "1.5") = Ok (fint 2) /\
  parse_amount_idr (CStr "2.5") = Ok (fint 2) /\
  parse_amount_idr (CStr "3.5") = Ok (fint 4).
Proof.
  destruct parse_examples as (H1 & H2 & H3).
  destruct parse_ties as (H4 & H5 & H6 & H7).
  repeat split; assumption.
Qed.

(** C5 as stated fails: 2.5 is a half, rounding halves up gives 3, and
    [parse_amount_idr] gives 2. *)
Lemma parse_amount_idr_not_half_up :
  float_of_str "2.5" = Ok (S754_finite false (5 * 2 ^ 50) (-51)) /\
  (n ← spec_round_half_up (S754_finite false (5 * 2 ^ 50) (-51));
   float_of_int n) = Ok (fint 3) /\
  parse_amount_idr (CStr "2.5") = Ok (fint 2) /\
  fint 2 <> fint 3.
Proof.
  destruct parse_ties as (_ & _ & H & _).
  split; [vm_compute; reflexivity|].
  split; [vm_compute; reflexivity|].
  split; [exact H|].
  intros E. vm_compute in E. discriminate E.
Qed.

(** C6 fails on the code: a text of 310 digits parses to an infinity,
    which [int(round(val))] refuses; a NaN or an infinity given as a number
    is refused in the same place. *)
Theorem parse_amount_idr_raises :
  parse_amount_idr (CStr (one_and_zeros 309)) = Raise OverflowError /\
  parse_amount_idr (CFloat S754_nan) = Raise ValueError /\
  parse_amount_idr (CFloat (S754_infinity false)) = Raise OverflowError.
Proof. repeat split; vm_compute; reflexivity. Qed.

(** *** Texts as character lists *)


Lemma chars_text l : chars (text l) = l.
Proof. apply list_ascii_of_string_of_list_ascii. Qed.

Lemma text_chars s : text (chars s) = s.
Proof. apply string_of_list_ascii_of_string. Qed.

Lemma text_app l1 l2 : text (l1 ++ l2) = (text l1 ++ text l2)%string.
Proof.
  induction l1 as [|c l1 IH]; [reflexivity|].
  change (String c (text (l1 ++ l2)) = String c (text l1 ++ text l2)%string).
  now rewrite IH.
Qed.

Lemma chars_app s1 s2 : chars (s1 +:+ s2) = chars s1 ++ chars s2.
Proof.
  rewrite <- (chars_text (chars s1 ++ chars s2)), text_app, !text_chars.
  reflexivity.
Qed.


Lemma split_l_without sep l : forall cur,
  existsb (Ascii.eqb sep) l = false -> split_l sep cur l = [rev cur ++ l].
Proof.
  induction l as [|c l IH]; intros cur H; simpl in *.
  - now rewrite app_nil_r.
  - apply orb_false_iff in H as [Hc Hl].
    rewrite Ascii.eqb_sym, Hc, (IH _ Hl). simpl.
    now rewrite <- app_assoc.
Qed.

Lemma split_l_with sep l : forall cur,
  existsb (Ascii.eqb sep) l = true ->
  split_l sep cur l
  = (rev cur ++ before_l sep l) :: split_l sep [] (after_l sep l).
Proof.
  induction l as [|c l IH]; intros cur H; simpl in *; [discriminate|].
  rewrite (Ascii.eqb_sym sep c) in H.
  destruct (Ascii.eqb c sep).
  - now rewrite app_nil_r.
  - simpl in H. rewrite (IH _ H). simpl. now rewrite <- app_assoc.
Qed.

Lemma split_l_two sep l :
  existsb (Ascii.eqb sep) l = true ->
  (length (split_l sep [] l) =? 2)%nat
  = negb (existsb (Ascii.eqb sep) (after_l sep l)).
Proof.
  intros H. rewrite (split_l_with _ _ _ H).
  destruct (existsb (Ascii.eqb sep) (after_l sep l)) eqn:E.
  - rewrite (split_l_with _ _ _ E).
    destruct (existsb (Ascii.eqb sep) (after_l sep (after_l sep l))) eqn:E'.
    + now rewrite (split_l_with _ _ _ E').
    + now rewrite (split_l_without _ _ _ E').
  - now rewrite (split_l_without _ _ _ E).
Qed.

Lemma replace_l_char c new l :
  replace_l [c] new O l
  = flat_map (fun x => if Ascii.eqb c x then new else [x]) l.
Proof.
  induction l as [|x l IH]; [reflexivity|].
  cbn [replace_l starts_with length Nat.pred flat_map].
  destruct (Ascii.eqb c x); rewrite IH; [|reflexivity].
  now destruct l.
Qed.

Lemma replace_l_absent c new l :
  existsb (Ascii.eqb c) l = false -> replace_l [c] new O l = l.
Proof.
  rewrite replace_l_char.
  induction l as [|x l IH]; simpl; [reflexivity|].
  intros H. apply orb_false_iff in H as [Hx Hl].
  now rewrite Hx, (IH Hl).
Qed.

Lemma drop_commas l :
  flat_map (fun x => if Ascii.eqb "," x then [] else [x]) l
  = List.filter (fun c => negb (Ascii.eqb c ",")) l.
Proof.
  induction l as [|x l IH]; [reflexivity|].
  cbn [flat_map List.filter]. rewrite <- IH, (Ascii.eqb_sym x ",").
  now destruct (Ascii.eqb "," x).
Qed.

Lemma comma_to_dot l :
  existsb (Ascii.eqb ",") l = true ->
  existsb (Ascii.eqb ",") (after_l "," l) = false ->
  flat_map (fun x => if Ascii.eqb "," x then ["."%char] else [x]) l
  = before_l "," l ++ "."%char :: after_l "," l.
Proof.
  induction l as [|x l IH]; [discriminate|].
  cbn [existsb flat_map before_l after_l].
  rewrite (Ascii.eqb_sym x ","). destruct (Ascii.eqb "," x).
  - intros _ H. cbn [app orb]. f_equal.
    rewrite <- replace_l_char. apply replace_l_absent, H.
  - intros H1 H2. cbn [orb] in H1. cbn [app]. now rewrite (IH H1 H2).
Qed.

(** C4, as the code has it. For a cleaned text with a comma and no dot,
    the comma is the decimal separator exactly when it is the only comma
    and what follows it is digits only, at least one and any number of
    them: the result is then the text before the comma, a dot, and the
    digits. Otherwise every comma is removed. *)
Theorem comma_rule (s : string) :
  contains "," s = true -> contains "." s = false ->
  separators s
  = if one_comma_then_digits s
    then (before_comma s ++ "." ++ after_comma s)%string
    else without_commas s.
Proof.
  intros Hc Hd. unfold separators. rewrite Hc, Hd. cbn [andb negb].
  unfold one_comma_then_digits, after_comma, before_comma, without_commas,
    split, replace, contains in *.
  rewrite !chars_text, length_map, (split_l_two _ _ Hc).
  rewrite (split_l_with _ _ _ Hc). cbn [map nth app rev].
  change (chars ".") with ["."%char]. change (chars ",") with [","%char].
  change (chars "") with (@nil ascii).
  destruct (existsb (Ascii.eqb ",") (after_l "," (chars s))) eqn:E;
    cbn [negb andb].
  - now rewrite replace_l_char, drop_commas.
  - rewrite (split_l_without _ _ _ E). cbn [map nth rev app].
    destruct (isdigit (text (after_l "," (chars s)))).
    + rewrite ?chars_text, (replace_l_absent _ _ _ Hd), replace_l_char.
      rewrite (comma_to_dot _ Hc E), text_app. reflexivity.
    + now rewrite replace_l_char, drop_commas.
Qed.

Lemma comma_rule_witness :
  separators "12,5" = "12.5" /\ separators "1,234,567" = "1234567".
Proof.
  split.
  - exact (comma_rule "12,5" eq_refl eq_refl).
  - exact (comma_rule "1,234,567" eq_refl eq_refl).
Defined.

(** C4 as stated fails: in "1,234" three digits follow the comma, so the
    stated rule removes it and reads 1234; the code makes it a decimal
    point and the amount is 1. *)
Lemma comma_rule_not_two_digits :
  contains "," "1,234" = true /\ contains "." "1,234" = false /\
  spec_two_digits_follow "1,234" = false /\
  spec_comma_rule "1,234" = "1234" /\
  separators "1,234" = "1.234" /\
  parse_amount_idr (CStr "1,234") = Ok (fint 1).
Proof. repeat split; vm_compute; reflexivity. Qed.

(** ** The parity check *)

Lemma decode_rows_length idx rows df :
  decode_rows idx rows = Ok df -> length df = length rows.
Proof.
  revert df. induction rows as [|r rows IH]; intros df H.
  - injection H as <-. reflexivity.
  - cbn [decode_rows] in H.
    destruct (decode_row idx r) as [item|e]; [|discriminate H].
    rewrite rbind_ok in H.
    destruct (decode_rows idx rows) as [items|e]; [|discriminate H].
    rewrite rbind_ok in H. injection H as <-.
    cbn [length]. f_equal. now apply IH.
Qed.

Lemma py_int_float_finite x :
  is_finite x = true -> exists n, py_int_float x = Ok n.
Proof. destruct x; try discriminate; intros _; eexists; reflexivity. Qed.

Lemma last_line_ok mk a u :
  is_finite a = true -> is_finite u = true ->
  exists d, last_line mk a u = Ok d /\
    (d = [] /\ differs a u = false \/ d <> [] /\ differs a u = true) /\
    (forall x, x ∈ d -> exists p q, x = mk p q).
Proof.
  intros Ha Hu. unfold last_line.
  destruct (py_int_float_finite a Ha) as [p ->].
  destruct (py_int_float_finite u Hu) as [q ->].
  destruct (differs a u).
  - exists [mk p q]. split; [reflexivity|]. split; [now right|].
    intros x Hx. apply list_elem_of_singleton in Hx. eauto.
  - exists []. split; [reflexivity|]. split; [now left|].
    intros x Hx. now apply elem_of_nil in Hx.
Qed.

Lemma bank_lines_ok banks la lu :
  (forall b, b ∈ banks ->
     exists x, balances la !! b = Some x /\ is_finite x = true) ->
  (forall b, b ∈ banks ->
     exists x, balances lu !! b = Some x /\ is_finite x = true) ->
  exists ds, bank_lines banks la lu = Ok ds /\
    (ds = [] /\
     (forall b, b ∈ banks ->
        differs (balances la !!! b) (balances lu !!! b) = false)
     \/ ds <> [] /\
        exists b, b ∈ banks /\
          differs (balances la !!! b) (balances lu !!! b) = true) /\
    (forall x, x ∈ ds -> exists b p q, x = LastBank b p q).
Proof.
  induction banks as [|b banks IH]; intros Ha Hu.
  - exists []. split; [reflexivity|]. split.
    + left. split; [reflexivity|]. intros b Hb. now apply elem_of_nil in Hb.
    + intros x Hx. now apply elem_of_nil in Hx.
  - destruct (Ha b) as (a & Hab & Hfa); [left|].
    destruct (Hu b) as (u & Hub & Hfu); [left|].
    destruct IH as (ds & Hds & Hcases & Hshape).
    { intros b' Hb'. apply Ha. now right. }
    { intros b' Hb'. apply Hu. now right. }
    destruct (last_line_ok (LastBank b) a u Hfa Hfu) as (d & Hd & Hdc & Hdshape).
    exists (d ++ ds). split.
    { cbn [bank_lines]. unfold account. rewrite Hab, Hub, !rbind_ok, Hd,
        rbind_ok, Hds. reflexivity. }
    assert (Ea : balances la !!! b = a) by now apply lookup_total_correct.
    assert (Eu : balances lu !!! b = u) by now apply lookup_total_correct.
    split.
    + destruct Hdc as [[-> Hdf]|[Hdn Hdt]].
      * destruct Hcases as [[-> Hall]|[Hn (b' & Hb' & Hbt)]].
        -- left. split; [reflexivity|]. intros b' Hb'.
           apply elem_of_cons in Hb' as [->|Hb']; [now rewrite Ea, Eu|auto].
        -- right. split; [exact Hn|]. exists b'. split; [now right|exact Hbt].
      * right. split.
        -- destruct d; [now elim Hdn|discriminate].
        -- exists b. split; [left|now rewrite Ea, Eu].
    + intros x Hx. apply elem_of_app in Hx as [Hx|Hx]; [|auto].
      destruct (Hdshape x Hx) as (p & q & ->). eauto.
Qed.

Lemma last_nil_inv {A} (l : list A) : last l = None -> l = [].
Proof.
  destruct l as [|x l]; [reflexivity|]. intros H.
  assert (Hs : is_Some (last (x :: l))) by now apply last_is_Some.
  rewrite H in Hs. now destruct Hs.
Qed.

Lemma last_some_inv {A} (l : list A) x : last l = Some x -> l <> [].
Proof. now intros H ->. Qed.

Lemma parity_diffs_lengths api ui :
  last api = None \/ last ui = None ->
  exists ds, parity_diffs api ui = Ok ds /\
    (ds <> [] <-> mismatch api ui) /\ TotalCredit ∉ ds.
Proof.
  intros Hnone.
  exists (if (length api =? length ui)%nat then []
          else [RowCount (length api) (length ui)]).
  split.
  { unfold parity_diffs.
    destruct Hnone as [-> | H]; [reflexivity|].
    rewrite H. now destruct (last api). }
  split.
  - split.
    + intros Hne. left. intros E. apply Nat.eqb_eq in E. now rewrite E in Hne.
    + intros [Hlen|(la & lu & Ha & Hu & _)].
      * apply Nat.eqb_neq in Hlen. now rewrite Hlen.
      * destruct Hnone as [H|H]; congruence.
  - destruct (length api =? length ui)%nat.
    + apply not_elem_of_nil.
    + intros H. apply list_elem_of_singleton in H. discriminate H.
Qed.

Lemma presentable_last df r :
  presentable df = true -> last df = Some r ->
  is_finite (Saldo_Akhir r) = true /\
  forall b, b ∈ BANK_LIST ->
    exists x, balances r !! b = Some x /\ is_finite x = true.
Proof.
  unfold presentable. intros H Hl. rewrite Hl in H.
  apply andb_true_iff in H as [Hs Hall]. split; [exact Hs|].
  intros b Hb. rewrite forallb_forall in Hall.
  specialize (Hall b). rewrite <- list_elem_of_In in Hall.
  specialize (Hall Hb).
  destruct (balances r !! b) as [x|]; [|discriminate Hall]. eauto.
Qed.

Lemma parity_diffs_ok api ui :
  presentable api = true -> presentable ui = true ->
  exists ds, parity_diffs api ui = Ok ds /\
    (ds <> [] <-> mismatch api ui) /\
    (TotalCredit ∈ ds <->
     ui <> [] /\ api <> [] /\
     differs (pd_sum (map Credit api)) (pd_sum (map Credit ui)) = true).
Proof.
  intros Hpa Hpu.
  destruct (last api) as [la|] eqn:Hla; cycle 1.
  { destruct (parity_diffs_lengths api ui) as (ds & Hds & Hm & Hc); [now left|].
    exists ds. split; [exact Hds|]. split; [exact Hm|].
    split; [intros H; now elim Hc|].
    intros (_ & Hne & _). now apply last_nil_inv in Hla. }
  destruct (last ui) as [lu|] eqn:Hlu; cycle 1.
  { destruct (parity_diffs_lengths api ui) as (ds & Hds & Hm & Hc); [now right|].
    exists ds. split; [exact Hds|]. split; [exact Hm|].
    split; [intros H; now elim Hc|].
    intros (Hne & _). now apply last_nil_inv in Hlu. }
  destruct (presentable_last _ _ Hpa Hla) as [Hfa Haccs].
  destruct (presentable_last _ _ Hpu Hlu) as [Hfu Huccs].
  destruct (last_line_ok LastSaldo _ _ Hfa Hfu) as (d3 & Hd3 & Hc3 & Hs3).
  destruct (bank_lines_ok BANK_LIST la lu Haccs Huccs)
    as (d4 & Hd4 & Hc4 & Hs4).
  unfold parity_diffs. rewrite Hla, Hlu, Hd3, rbind_ok, Hd4, rbind_ok.
  set (d0 := if (length api =? length ui)%nat then []
             else [RowCount (length api) (length ui)]).
  set (d1 := if differs (pd_sum (map Credit api)) (pd_sum (map Credit ui))
             then [TotalCredit] else []).
  set (d2 := if differs (pd_sum (map Debit api)) (pd_sum (map Debit ui))
             then [TotalDebit] else []).
  eexists. split; [reflexivity|]. split.
  - split.
    + intros Hne.
      destruct (Nat.eqb_spec (length api) (length ui)) as [_|Hlen];
        [|now left].
      right. exists la, lu. split; [exact Hla|]. split; [exact Hlu|].
      destruct (differs (pd_sum (map Credit api)) (pd_sum (map Credit ui)));
        [now left|].
      destruct (differs (pd_sum (map Debit api)) (pd_sum (map Debit ui)));
        [now right; left|].
      destruct Hc3 as [[-> _]|[_ H3]]; [|now right; right; left].
      destruct Hc4 as [[-> _]|[_ H4]]; [|now right; right; right].
      now elim Hne.
    + intros Hm Hnil.
      apply app_eq_nil in Hnil as [H0 Hnil].
      apply app_eq_nil in Hnil as [H1 Hnil].
      apply app_eq_nil in Hnil as [H2 Hnil].
      apply app_eq_nil in Hnil as [H3 H4].
      subst d0 d1 d2.
      destruct Hm as [Hlen|(la' & lu' & Ea & Eu & Hm)].
      * apply Nat.eqb_neq in Hlen. rewrite Hlen in H0. discriminate H0.
      * assert (la' = la) as -> by congruence.
        assert (lu' = lu) as -> by congruence.
        destruct Hm as [Hm|[Hm|[Hm|(b & Hb & Hm)]]].
        -- rewrite Hm in H1. discriminate H1.
        -- rewrite Hm in H2. discriminate H2.
        -- destruct Hc3 as [[_ H]|[H _]]; [congruence|now elim H].
        -- destruct Hc4 as [[_ H]|[H _]]; [|now elim H].
           rewrite (H b Hb) in Hm. discriminate Hm.
  - rewrite !elem_of_app. split.
    + intros [H|[H|[H|[H|H]]]].
      * subst d0. destruct (length api =? length ui)%nat.
        -- now apply elem_of_nil in H.
        -- apply list_elem_of_singleton in H. discriminate H.
      * subst d1. split; [now apply last_some_inv in Hlu|].
        split; [now apply last_some_inv in Hla|].
        destruct (differs (pd_sum (map Credit api)) (pd_sum (map Credit ui)));
          [reflexivity|now apply elem_of_nil in H].
      * subst d2.
        destruct (differs (pd_sum (map Debit api)) (pd_sum (map Debit ui))).
        -- apply list_elem_of_singleton in H. discriminate H.
        -- now apply elem_of_nil in H.
      * destruct (Hs3 _ H) as (p & q & E). discriminate E.
      * destruct (Hs4 _ H) as (b & p & q & E). discriminate E.
    + intros (_ & _ & H). right. left. subst d1. rewrite H. now left.
Qed.

Lemma parity_run_rows header r rows df ui :
  decode_rows (header_index header) (r :: rows) = Ok df ->
  parity_run (Ok (header :: r :: rows)) ui
  = (diffs ← parity_diffs (recompute df) ui;
     match diffs with
     | [] => Ok (OK, Some AllMatch)
     | _ => Ok (Drift, Some (Diffs diffs))
     end).
Proof.
  intros H. unfold parity_run. rewrite rbind_ok, H, rbind_ok.
  apply decode_rows_length in H. now destruct df.
Qed.

(** C7, as the code has it. A fetch that raises, or an amount that does
    not parse, gives Unknown with the error in the details; a sheet
    without a data row gives Unknown and leaves the details as they were.
    Otherwise, the last balances on both sides being finite: the state is
    Drift exactly when the row counts differ or, the cached snapshot having
    rows, one of the credit totals, the debit totals, the last 'Saldo
    Akhir' and the last balance of an account differs by more than 1e-6;
    it is OK, with "Semua cocok" as details, exactly when none does; and
    the details of a drift have the line about Total Credit exactly when
    the cached snapshot has rows and the credit totals differ. *)
Theorem parity_verdict (app : App) :
  (forall e,
     let app' := check_parity_against_api (Raise e) app in
     parity_state app' = Unknown /\ parity_details_last app' = Failed e) /\
  (forall vals, (length vals < 2)%nat ->
     let app' := check_parity_against_api (Ok vals) app in
     parity_state app' = Unknown /\
     parity_details_last app' = parity_details_last app) /\
  (forall header rows e,
     decode_rows (header_index header) rows = Raise e ->
     let app' := check_parity_against_api (Ok (header :: rows)) app in
     parity_state app' = Unknown /\ parity_details_last app' = Failed e) /\
  (forall header rows df,
     rows <> [] ->
     decode_rows (header_index header) rows = Ok df ->
     presentable (recompute df) = true ->
     presentable (data app) = true ->
     let app' := check_parity_against_api (Ok (header :: rows)) app in
     (parity_state app' = Drift <-> mismatch (recompute df) (data app)) /\
     (parity_state app' = OK <-> ~ mismatch (recompute df) (data app)) /\
     (parity_state app' = OK -> parity_details_last app' = AllMatch) /\
     (parity_state app' = Drift ->
      exists ds, parity_details_last app' = Diffs ds /\
        (TotalCredit ∈ ds <->
         data app <> [] /\
         differs (pd_sum (map Credit (recompute df)))
                 (pd_sum (map Credit (data app))) = true))).
Proof.
  split; [|split; [|split]].
  - intros e. split; reflexivity.
  - intros vals Hlen. destruct vals as [|h [|r vals]];
      [split; reflexivity | split; reflexivity | cbn [length] in Hlen; lia].
  - intros header rows e H.
    destruct rows as [|r rows]; [discriminate H|].
    unfold check_parity_against_api, parity_run.
    rewrite rbind_ok, H, rbind_raise. split; reflexivity.
  - intros header rows df Hrows Hdec Hpa Hpu.
    destruct rows as [|r rows]; [now elim Hrows|].
    assert (Hne : recompute df <> []).
    { intros E. apply (f_equal length) in E.
      rewrite recompute_length, (decode_rows_length _ _ _ Hdec) in E.
      discriminate E. }
    unfold check_parity_against_api.
    rewrite (parity_run_rows _ _ _ _ _ Hdec).
    destruct (parity_diffs_ok _ _ Hpa Hpu) as (ds & -> & Hm & Hc).
    rewrite rbind_ok.
    destruct ds as [|d ds]; cbn [parity_state parity_details_last].
    + assert (Hnm : ~ mismatch (recompute df) (data app)).
      { intros H. apply Hm in H. now elim H. }
      repeat split; try discriminate; try reflexivity; try tauto.
    + assert (Hmm : mismatch (recompute df) (data app)).
      { apply Hm. discriminate. }
      repeat split; try discriminate; try tauto.
      intros _. eexists. split; [reflexivity|].
      rewrite Hc. tauto.
Qed.

Lemma parity_verdict_witness :
  let app' := check_parity_against_api (Ok demo_sheet) demo_cache in
  length (data demo_cache) = 1%nat /\
  pd_sum (map Credit (recompute demo_decoded)) = fint 1 /\
  pd_sum (map Credit (data demo_cache)) = fzero /\
  parity_state app' = Drift /\
  exists ds, parity_details_last app' = Diffs ds /\ TotalCredit ∈ ds.
Proof.
  assert (Hrows : tl demo_sheet <> []) by discriminate.
  assert (Hdec : decode_rows (header_index (map CStr HEADERS)) (tl demo_sheet)
                 = Ok demo_decoded) by (vm_compute; reflexivity).
  assert (Hpa : presentable (recompute demo_decoded) = true)
    by (vm_compute; reflexivity).
  assert (Hpu : presentable (data demo_cache) = true)
    by (vm_compute; reflexivity).
  assert (Hc : differs (pd_sum (map Credit (recompute demo_decoded)))
                       (pd_sum (map Credit (data demo_cache))) = true)
    by (vm_compute; reflexivity).
  destruct (proj2 (proj2 (proj2 (parity_verdict demo_cache)))
              (map CStr HEADERS) (tl demo_sheet) demo_decoded
              Hrows Hdec Hpa Hpu) as (Hd & _ & _ & Ht).
  assert (Hdrift : parity_state
                     (check_parity_against_api
                        (Ok (map CStr HEADERS :: tl demo_sheet)) demo_cache)
                   = Drift).
  { apply Hd. right. eexists _, _.
    split; [vm_compute; reflexivity|]. split; [vm_compute; reflexivity|].
    left. exact Hc. }
  cbv zeta.
  split; [vm_compute; reflexivity|].
  split; [vm_compute; reflexivity|].
  split; [vm_compute; reflexivity|].
  split; [exact Hdrift|].
  destruct (Ht Hdrift) as (ds & Hds & Hin).
  exists ds. split; [exact Hds|].
  apply Hin. split; [discriminate|exact Hc].
Defined.

(** C7 as stated fails. With no rows in the cache and a sheet whose only
    row credits 1, the credit totals differ by one unit and the state is
    Drift, but the details have the line about the row counts only: the
    totals and the last balances are compared when both sides have rows.
    One unit, the smallest of precision 0, is not a tolerated difference:
    the bound is 1e-6, whatever the precision. And the totals are sums of
    floats: with credits of 2^53 and 1 in the sheet and of 2^53 and 0 in
    the cache, both totals and both balances are 2^53, and the state is
    OK. *)
Lemma parity_without_total_credit :
  let app' := check_parity_against_api (Ok demo_sheet) app0 in
  let app'' := check_parity_against_api (Ok demo_sheet_lost) demo_cache_lost in
  data app0 = [] /\
  pd_sum (map Credit (load_snapshot (Ok demo_sheet))) = fint 1 /\
  pd_sum (map Credit (data app0)) = fzero /\
  parity_state app' = Drift /\
  parity_details_last app' = Diffs [RowCount 1 0] /\
  (TotalCredit ∉ [RowCount 1 0]) /\
  differs (fint 1) fzero = true /\
  float_of_str "0.000001" = Ok tolerance /\
  map Credit (load_snapshot (Ok demo_sheet_lost)) = [fint (2 ^ 53); fint 1] /\
  map Credit (data demo_cache_lost) = [fint (2 ^ 53); fzero] /\
  pd_sum (map Credit (load_snapshot (Ok demo_sheet_lost))) = fint (2 ^ 53) /\
  pd_sum (map Credit (data demo_cache_lost)) = fint (2 ^ 53) /\
  parity_state app'' = OK /\
  parity_details_last app'' = AllMatch.
Proof.
  cbv zeta. repeat split; try (vm_compute; reflexivity).
  intros H. apply list_elem_of_singleton in H. discriminate H.
Qed.
(** ** The checksum *)

Lemma w32_range x : 0 <= w32 x < 2 ^ 32.
Proof. unfold w32. apply Z.mod_pos_bound. reflexivity. Qed.

Lemma sha1_range msg : 0 <= sha1 msg < 2 ^ 160.
Proof.
  unfold sha1.
  destruct (fold_left compress _ sha1_init) as [[[[h0 h1] h2] h3] h4].
  pose proof (w32_range h0). pose proof (w32_range h1).
  pose proof (w32_range h2). pose proof (w32_range h3).
  pose proof (w32_range h4).
  change (2 ^ 32) with 4294967296 in *.
  change (2 ^ 64) with (4294967296 * 4294967296).
  change (2 ^ 96) with (4294967296 * 4294967296 * 4294967296).
  change (2 ^ 128) with (4294967296 * 4294967296 * 4294967296 * 4294967296).
  change (2 ^ 160)
    with (4294967296 * 4294967296 * 4294967296 * 4294967296 * 4294967296).
  nia.
Qed.

(** *** Words that do not begin one another *)

Lemma conflict_app {A} (eqb : A -> A -> bool) (l1 l2 r1 r2 : list A) :
  (forall x y, eqb x y = true -> x = y) ->
  (forall x, eqb x x = true) ->
  conflict eqb l1 l2 = true -> l1 ++ r1 <> l2 ++ r2.
Proof.
  intros Heq Hrefl. revert l2.
  induction l1 as [|x l1 IH]; intros [|y l2] H; try discriminate H.
  cbn [conflict] in H. cbn [app]. intros E. injection E as -> E.
  rewrite Hrefl in H. by apply (IH l2).
Qed.

Lemma all_ascii_elem c : In c all_ascii.
Proof.
  unfold all_ascii. rewrite <- (ascii_nat_embedding c).
  apply in_map, in_seq. pose proof (nat_ascii_bounded c). lia.
Qed.

Section Code.
Context {A : Type} (eqb : A -> A -> bool) (f : ascii -> list A) (t : A).
Hypothesis eqb_eq : forall x y, eqb x y = true -> x = y.
Hypothesis eqb_refl : forall x, eqb x x = true.
Hypothesis code : prefix_code eqb f t = true.

Lemma code_head c : exists x l, f c = x :: l /\ x <> t.
Proof.
  unfold prefix_code in code. rewrite forallb_forall in code.
  specialize (code c (all_ascii_elem c)).
  apply andb_true_iff in code as [H _].
  destruct (f c) as [|x l]; [discriminate H|].
  exists x, l. split; [done|]. intros ->.
  by rewrite eqb_refl in H.
Qed.

Lemma code_word c1 c2 r1 r2 :
  f c1 ++ r1 = f c2 ++ r2 -> c1 = c2 /\ r1 = r2.
Proof.
  intros E. unfold prefix_code in code. rewrite forallb_forall in code.
  specialize (code c1 (all_ascii_elem c1)).
  apply andb_true_iff in code as [_ H]. rewrite forallb_forall in H.
  specialize (H c2 (all_ascii_elem c2)).
  apply orb_true_iff in H as [H|H].
  - apply Ascii.eqb_eq in H as ->. split; [done|].
    by apply app_inv_head in E.
  - by elim (conflict_app eqb _ _ r1 r2 eqb_eq eqb_refl H).
Qed.

(** A text written character by character and closed by [t] is read back
    in one way. *)
Lemma code_text l1 : forall l2 r1 r2,
  flat_map f l1 ++ t :: r1 = flat_map f l2 ++ t :: r2 ->
  l1 = l2 /\ r1 = r2.
Proof.
  induction l1 as [|c1 l1 IH]; intros [|c2 l2] r1 r2 E; cbn [flat_map] in E.
  - by injection E.
  - destruct (code_head c2) as (x & l & Hx & Hne).
    rewrite Hx in E. cbn [app] in E. injection E as E _. by elim Hne.
  - destruct (code_head c1) as (x & l & Hx & Hne).
    rewrite Hx in E. cbn [app] in E. injection E as E _. by elim Hne.
  - rewrite <- !app_assoc in E.
    apply code_word in E as [-> E]. by apply IH in E as [-> ->].
Qed.
End Code.

Lemma json_char_code : prefix_code Ascii.eqb json_char quote = true.
Proof. vm_compute. reflexivity. Qed.

Lemma utf8_char_code : prefix_code Z.eqb utf8_char (-1) = true.
Proof. vm_compute. reflexivity. Qed.

Lemma chars_inj s1 s2 : chars s1 = chars s2 -> s1 = s2.
Proof. intros H. by rewrite <- (text_chars s1), H, text_chars. Qed.

(** The bytes of a text are the bytes of no other text. *)
Lemma encode_utf8_inj s1 s2 : encode_utf8 s1 = encode_utf8 s2 -> s1 = s2.
Proof.
  intros E. apply chars_inj. unfold encode_utf8 in E.
  apply (code_text Z.eqb utf8_char (-1)
           (fun x y => proj1 (Z.eqb_eq x y)) Z.eqb_refl utf8_char_code
           _ _ [] []).
  by rewrite E.
Qed.

(** *** The text of a cell *)

Lemma uint_number_chars d :
  Forall (fun c => number_char c = true) (chars (NilEmpty.string_of_uint d)).
Proof.
  induction d; cbn [NilEmpty.string_of_uint]; try constructor;
    try reflexivity; assumption.
Qed.

Lemma int_number_chars n :
  exists x l, chars (str_of_int n) = x :: l /\
    Forall (fun c => number_char c = true) (x :: l).
Proof.
  unfold str_of_int, NilZero.string_of_int.
  destruct (Z.to_int n) as [d|d].
  - destruct d; try (eexists _, _; split; [reflexivity|];
      constructor; [reflexivity|apply (uint_number_chars d)]).
    by eexists _, _; split; [reflexivity|]; repeat constructor.
  - eexists _, _. split; [reflexivity|]. constructor; [reflexivity|].
    destruct d; try apply (uint_number_chars (_ d)).
    by repeat constructor.
Qed.

Lemma str_of_int_inj n1 n2 : str_of_int n1 = str_of_int n2 -> n1 = n2.
Proof.
  unfold str_of_int. intros E. apply DecimalZ.to_int_inj.
  assert (H : forall n, NilZero.int_of_string
                          (NilZero.string_of_int (Z.to_int n))
                        = Some (Z.to_int n)).
  { intros n. apply NilZero.isi; destruct n as [|p|p]; cbn; try discriminate;
      intros H; injection H as H;
      by apply DecimalPos.Unsigned.to_uint_nonnil in H. }
  pose proof (H n1) as H1. rewrite E, H in H1. by injection H1.
Qed.

(** A span of number characters ends where the text goes on with another
    character. *)
Lemma number_span l1 : forall l2 r1 r2,
  Forall (fun c => number_char c = true) l1 ->
  Forall (fun c => number_char c = true) l2 ->
  delimited r1 -> delimited r2 ->
  l1 ++ r1 = l2 ++ r2 -> l1 = l2 /\ r1 = r2.
Proof.
  assert (Hd : forall r c l, delimited r -> r = c :: l ->
                 number_char c = false).
  { intros r c l (d & l' & -> & Hdl) E. injection E as <- _.
    by destruct Hdl as [->| ->]. }
  induction l1 as [|c1 l1 IH]; intros [|c2 l2] r1 r2 H1 H2 D1 D2 E;
    cbn [app] in E.
  - done.
  - apply (Hd r1 c2 _ D1) in E. inversion H2; congruence.
  - symmetry in E. apply (Hd r2 c1 _ D2) in E. inversion H1; congruence.
  - injection E as -> E. inversion H1; inversion H2; subst.
    by apply IH in E as [-> ->].
Qed.

Lemma json_str_chars s :
  chars (json_str s) = quote :: flat_map json_char (chars s) ++ [quote].
Proof. unfold json_str. by rewrite chars_text. Qed.

(** The text of a cell that is not a float begins with a character that is
    neither a comma nor a bracket. *)
Lemma cell_head c :
  plain_cell c = true ->
  exists x l, chars (json_cell c) = x :: l /\ x <> ","%char /\ x <> "]"%char.
Proof.
  destruct c as [|[]|n|x|s]; intros H; try discriminate H;
    try by (eexists _, _; split; [reflexivity|]).
  - destruct (int_number_chars n) as (x & l & E & Hn).
    exists x, l. split; [exact E|]. inversion Hn as [|? ? Hx _]; subst.
    split; intros ->; discriminate Hx.
Qed.

(** The text of a cell, followed by a comma or a bracket, is the text of
    no other cell. *)
Lemma cell_text c1 c2 r1 r2 :
  plain_cell c1 = true -> plain_cell c2 = true ->
  delimited r1 -> delimited r2 ->
  chars (json_cell c1) ++ r1 = chars (json_cell c2) ++ r2 ->
  c1 = c2 /\ r1 = r2.
Proof.
  intros P1 P2 D1 D2 E.
  destruct c1 as [|[]|n1|x1|s1]; try discriminate P1;
    destruct c2 as [|[]|n2|x2|s2]; try discriminate P2;
    cbn [json_cell] in E;
    try (by injection E);
    try discriminate E;
    try (destruct (int_number_chars n1) as (x & l & En & Hn);
         rewrite En in E; inversion Hn as [|? ? Hx _]; subst;
         injection E as -> _; discriminate Hx);
    try (destruct (int_number_chars n2) as (x & l & En & Hn);
         rewrite En in E; inversion Hn as [|? ? Hx _]; subst;
         injection E as <- _; discriminate Hx);
    try (rewrite json_str_chars in E; discriminate E).
  - destruct (int_number_chars n1) as (x1 & l1 & E1 & H1).
    destruct (int_number_chars n2) as (x2 & l2 & E2 & H2).
    rewrite E1, E2 in E.
    apply number_span in E as [E ->]; try done.
    split; [|done]. f_equal. apply str_of_int_inj, chars_inj. congruence.
  - rewrite !json_str_chars in E. cbn [app] in E. injection E as E.
    rewrite <- !app_assoc in E. cbn [app] in E.
    apply (code_text Ascii.eqb json_char quote
             (fun x y => proj1 (Ascii.eqb_eq x y)) Ascii.eqb_refl
             json_char_code) in E as [E ->].
    split; [|done]. f_equal. by apply chars_inj.
Qed.

(** *** The text of a list *)

Lemma join_comma_chars {A} (g : A -> string) (l : list A) : forall x,
  chars (join_comma (map g (x :: l)))
  = chars (g x) ++ flat_map (fun y => ","%char :: chars (g y)) l.
Proof.
  induction l as [|y l IH]; intros x.
  - cbn [map join_comma flat_map]. by rewrite app_nil_r.
  - change (join_comma (map g (x :: y :: l)))
      with (g x +:+ "," +:+ join_comma (map g (y :: l))).
    rewrite !chars_app, IH. reflexivity.
Qed.

Lemma json_list_chars {A} (g : A -> string) (l : list A) :
  chars (json_list (map g l))
  = "["%char ::
    match l with
    | [] => ["]"%char]
    | x :: l' =>
        chars (g x) ++ flat_map (fun y => ","%char :: chars (g y)) l'
        ++ ["]"%char]
    end.
Proof.
  unfold json_list. rewrite !chars_app.
  destruct l as [|x l]; [reflexivity|].
  rewrite join_comma_chars, <- app_assoc. reflexivity.
Qed.

Lemma delimited_items {A} (w : A -> list ascii) (l : list A) r :
  delimited (flat_map (fun y => ","%char :: w y) l ++ "]"%char :: r).
Proof.
  destruct l as [|x l]; cbn [flat_map app].
  - eexists _, _. split; [reflexivity|]. by right.
  - eexists _, _. split; [reflexivity|]. by left.
Qed.

Section Items.
Context {A : Type} (g : A -> string) (ok : A -> Prop).
Hypothesis item_text : forall a1 a2 r1 r2,
  ok a1 -> ok a2 -> delimited r1 -> delimited r2 ->
  chars (g a1) ++ r1 = chars (g a2) ++ r2 -> a1 = a2 /\ r1 = r2.
Hypothesis item_head : forall a,
  ok a ->
  exists x l, chars (g a) = x :: l /\ x <> ","%char /\ x <> "]"%char.

Lemma items_text l1 : forall l2 r1 r2,
  Forall ok l1 -> Forall ok l2 ->
  flat_map (fun y => ","%char :: chars (g y)) l1 ++ "]"%char :: r1
  = flat_map (fun y => ","%char :: chars (g y)) l2 ++ "]"%char :: r2 ->
  l1 = l2 /\ r1 = r2.
Proof.
  induction l1 as [|a1 l1 IH]; intros [|a2 l2] r1 r2 H1 H2 E;
    cbn [flat_map app] in E; try discriminate E.
  - by injection E.
  - injection E as E. rewrite <- !app_assoc in E.
    inversion H1; inversion H2; subst.
    apply item_text in E as [-> E]; try done; try apply delimited_items.
    by apply IH in E as [-> ->].
Qed.

(** The text of a list, whatever follows it, is the text of no other
    list. *)
Lemma list_text l1 l2 r1 r2 :
  Forall ok l1 -> Forall ok l2 ->
  chars (json_list (map g l1)) ++ r1 = chars (json_list (map g l2)) ++ r2 ->
  l1 = l2 /\ r1 = r2.
Proof.
  intros H1 H2. rewrite !json_list_chars. cbn [app]. intros E.
  injection E as E.
  destruct l1 as [|a1 l1], l2 as [|a2 l2].
  - by injection E.
  - inversion H2; subst. destruct (item_head a2) as (x & l & Hx & _ & Hne);
      [done|].
    rewrite Hx in E. cbn [app] in E. injection E as E _. by elim Hne.
  - inversion H1; subst. destruct (item_head a1) as (x & l & Hx & _ & Hne);
      [done|].
    rewrite Hx in E. cbn [app] in E. injection E as E _. by elim Hne.
  - inversion H1; inversion H2; subst.
    rewrite <- !app_assoc in E. cbn [app] in E.
    apply item_text in E as [-> E]; try done; try apply delimited_items.
    by apply items_text in E as [-> ->].
Qed.
End Items.

Lemma plain_row_text row1 row2 r1 r2 :
  Forall (fun c => plain_cell c = true) row1 ->
  Forall (fun c => plain_cell c = true) row2 ->
  chars (json_list (map json_cell row1)) ++ r1
  = chars (json_list (map json_cell row2)) ++ r2 ->
  row1 = row2 /\ r1 = r2.
Proof.
  apply (list_text json_cell (fun c => plain_cell c = true)).
  - intros. by apply cell_text.
  - intros. by apply cell_head.
Qed.

Lemma forallb_Forall {A} (p : A -> bool) l :
  forallb p l = true -> Forall (fun x => p x = true) l.
Proof.
  intros H. apply Forall_forall. intros x Hx.
  by apply (forallb_elem _ _ _ H).
Qed.

(** The text of a grid without floats is the text of no other such
    grid. *)
Lemma json_dumps_inj (X Y : grid) :
  plain_grid X = true -> plain_grid Y = true ->
  json_dumps X = json_dumps Y -> X = Y.
Proof.
  intros HX HY E. apply (f_equal chars) in E.
  apply (f_equal (fun l => l ++ [])) in E.
  unfold json_dumps in E.
  apply (list_text (fun row => json_list (map json_cell row))
           (Forall (fun c => plain_cell c = true))) in E as [E _];
    try done.
  - intros a1 a2 r1 r2 H1 H2 _ _. by apply plain_row_text.
  - intros a _. rewrite json_list_chars. by eexists _, _.
  - apply Forall_forall. intros row Hrow.
    by apply forallb_Forall, (forallb_elem _ _ _ HX).
  - apply Forall_forall. intros row Hrow.
    by apply forallb_Forall, (forallb_elem _ _ _ HY).
Qed.

(** *** The digits of the digest *)

Lemma be_bytes_length k n : length (be_bytes k n) = k.
Proof. induction k as [|k IH]; [done|]. cbn [be_bytes length]. by rewrite IH. Qed.

Lemma be_word_from (bs : list Z) : forall acc,
  fold_left (fun acc b => acc * 256 + b) bs acc
  = acc * 256 ^ Z.of_nat (length bs) + be_word bs.
Proof.
  unfold be_word. induction bs as [|b bs IH]; intros acc.
  - cbn. lia.
  - cbn [fold_left length]. rewrite IH, (IH (0 * 256 + b)).
    rewrite Nat2Z.inj_succ, Z.pow_succ_r by lia. lia.
Qed.

Lemma be_word_bytes k n : 0 <= n -> be_word (be_bytes k n) = n mod 256 ^ Z.of_nat k.
Proof.
  intros Hn. induction k as [|k IH].
  - cbn. by rewrite Z.mod_1_r.
  - cbn [be_bytes]. unfold be_word. cbn [fold_left].
    rewrite be_word_from, be_bytes_length, IH.
    rewrite Nat2Z.inj_succ, Z.pow_succ_r by lia.
    rewrite (Z.mul_comm 256), Z.rem_mul_r by lia. lia.
Qed.

Lemma be_bytes_inj n1 n2 :
  0 <= n1 < 2 ^ 160 -> 0 <= n2 < 2 ^ 160 ->
  be_bytes 20 n1 = be_bytes 20 n2 -> n1 = n2.
Proof.
  intros H1 H2 E. apply (f_equal be_word) in E.
  rewrite !be_word_bytes in E by lia.
  change (256 ^ Z.of_nat 20) with (2 ^ 160) in E.
  by rewrite !Z.mod_small in E.
Qed.

Lemma hex_digit_code n :
  (n < 16)%N -> code (hex_digit n) = if (n <? 10)%N then (48 + n)%N else (87 + n)%N.
Proof.
  intros H. unfold hex_digit, code.
  destruct (n <? 10)%N; apply N_ascii_embedding; lia.
Qed.

Lemma hex_digit_inj a b :
  (a < 16)%N -> (b < 16)%N -> hex_digit a = hex_digit b -> a = b.
Proof.
  intros Ha Hb E. apply (f_equal code) in E.
  rewrite !hex_digit_code in E by done.
  destruct (N.ltb_spec a 10), (N.ltb_spec b 10); lia.
Qed.

Lemma hex_pairs_inj (bs1 : list Z) : forall bs2,
  Forall (fun b => 0 <= b < 256) bs1 -> Forall (fun b => 0 <= b < 256) bs2 ->
  flat_map (fun b => [hex_digit (Z.to_N (b / 16));
                      hex_digit (Z.to_N (b mod 16))]) bs1
  = flat_map (fun b => [hex_digit (Z.to_N (b / 16));
                        hex_digit (Z.to_N (b mod 16))]) bs2 ->
  bs1 = bs2.
Proof.
  induction bs1 as [|b1 bs1 IH]; intros [|b2 bs2] H1 H2 E;
    try discriminate E; [done|].
  cbn [flat_map app] in E. injection E as Eh El E.
  inversion H1; inversion H2; subst.
  assert (Hq : forall b, 0 <= b < 256 -> 0 <= b / 16 < 16).
  { intros b Hb. split; [apply Z.div_pos; lia|].
    apply Z.div_lt_upper_bound; lia. }
  pose proof (Hq b1 ltac:(done)). pose proof (Hq b2 ltac:(done)).
  pose proof (Z.mod_pos_bound b1 16 ltac:(lia)).
  pose proof (Z.mod_pos_bound b2 16 ltac:(lia)).
  apply hex_digit_inj in Eh; [|lia|lia].
  apply hex_digit_inj in El; [|lia|lia].
  f_equal; [|by apply IH].
  rewrite (Z.div_mod b1 16), (Z.div_mod b2 16) by lia. lia.
Qed.

Lemma be_bytes_range k n : Forall (fun b => 0 <= b < 256) (be_bytes k n).
Proof.
  induction k as [|k IH]; [constructor|]. cbn [be_bytes].
  constructor; [|exact IH]. apply Z.mod_pos_bound. lia.
Qed.

(** The 40 digits of a digest are those of no other digest. *)
Lemma hexdigest_inj n1 n2 :
  0 <= n1 < 2 ^ 160 -> 0 <= n2 < 2 ^ 160 ->
  hexdigest n1 = hexdigest n2 -> n1 = n2.
Proof.
  intros H1 H2 E. unfold hexdigest in E.
  apply (f_equal chars) in E. rewrite !chars_text in E.
  apply hex_pairs_inj in E; try apply be_bytes_range.
  by apply be_bytes_inj.
Qed.

Lemma hexdigest_length n : String.length (hexdigest n) = 40%nat.
Proof.
  unfold hexdigest.
  cbn [be_bytes flat_map app text string_of_list_ascii String.length].
  reflexivity.
Qed.

Lemma checksum_sha1 (X Y : grid) :
  _compute_checksum X = _compute_checksum Y <->
  sha1 (encode_utf8 (json_dumps X)) = sha1 (encode_utf8 (json_dumps Y)).
Proof.
  unfold _compute_checksum. split; [|by intros ->].
  apply hexdigest_inj; apply sha1_range.
Qed.
Lemma checksum_not_empty vals : _compute_checksum vals <> "".
Proof.
  unfold _compute_checksum, hexdigest.
  generalize (sha1 (encode_utf8 (json_dumps vals))). intros n.
  cbn [be_bytes flat_map app text string_of_list_ascii]. discriminate.
Qed.

(** *** Two grids with one digest *)

(** A value is taken below [K] or it is not. *)
Lemma find_value (f : Z -> Z) (y K : Z) :
  0 <= K ->
  (exists i, 0 <= i < K /\ f i = y) \/ (forall i, 0 <= i < K -> f i <> y).
Proof.
  intros HK. pattern K. apply natlike_ind; [| |exact HK].
  - right. intros i Hi. lia.
  - intros k Hk [(i & Hi & E)|Hnone].
    + left. exists i. split; [lia|exact E].
    + destruct (Z.eq_dec (f k) y) as [E|N].
      * left. exists k. split; [lia|exact E].
      * right. intros i Hi. destruct (Z.eq_dec i k) as [->|Hik]; [exact N|].
        apply Hnone. lia.
Qed.

(** [K + 1] arguments and [K] values: two arguments share a value. *)
Lemma pigeonhole (K : Z) :
  0 <= K ->
  forall f : Z -> Z,
    (forall i, 0 <= i <= K -> 0 <= f i < K) ->
    exists i j, 0 <= i < j /\ j <= K /\ f i = f j.
Proof.
  intros HK. pattern K. apply natlike_ind; [| |exact HK].
  - intros f Hf. specialize (Hf 0). lia.
  - intros k Hk IH f Hf.
    destruct (find_value f (f (Z.succ k)) (Z.succ k)) as [(i & Hi & E)|Hnone];
      [lia| |].
    + exists i, (Z.succ k). split; [lia|]. split; [lia|exact E].
    + set (y := f (Z.succ k)) in *.
      destruct (IH (fun i => if f i <? y then f i else f i - 1))
        as (i & j & Hij & Hj & E).
      { intros i Hi. pose proof (Hf i ltac:(lia)). pose proof (Hnone i ltac:(lia)).
        pose proof (Hf (Z.succ k) ltac:(lia)). fold y in H1.
        destruct (Z.ltb_spec (f i) y); lia. }
      exists i, j. split; [exact Hij|]. split; [lia|].
      pose proof (Hnone i ltac:(lia)). pose proof (Hnone j ltac:(lia)).
      cbv beta in E.
      destruct (Z.ltb_spec (f i) y), (Z.ltb_spec (f j) y); lia.
Qed.

(** More texts of digits than digests: two of them, as the one cell of a
    grid, have the same digest. *)
Lemma checksum_collision :
  exists i j : Z, 0 <= i < j /\ j <= 2 ^ 160 /\
    [[CStr (str_of_int i)]] <> [[CStr (str_of_int j)]] /\
    _compute_checksum [[CStr (str_of_int i)]]
    = _compute_checksum [[CStr (str_of_int j)]].
Proof.
  destruct (pigeonhole (2 ^ 160) ltac:(apply Z.pow_nonneg; lia)
              (fun n => sha1 (encode_utf8 (json_dumps [[CStr (str_of_int n)]]))))
    as (i & j & Hij & Hj & E).
  { intros i _. apply sha1_range. }
  exists i, j. split; [exact Hij|]. split; [exact Hj|]. split.
  - intros H. injection H as H. apply str_of_int_inj in H. lia.
  - apply checksum_sha1. exact E.
Qed.



(** ** The watcher *)

Lemma check_parity_data fetch a :
  data (check_parity_against_api fetch a) = data a.
Proof.
  unfold check_parity_against_api.
  destruct (parity_run fetch (data a)) as [[state [text|]]|e]; reflexivity.
Qed.

Lemma load_data_connected rf pf st :
  connected (load_data rf pf st) = connected st.
Proof.
  unfold load_data, get_all_data.
  destruct rf as [vals|e]; [|reflexivity].
  rewrite rbind_ok. destruct vals as [|h [|r rows]]; try reflexivity.
  destruct (decode_rows (header_index h) (r :: rows)); reflexivity.
Qed.

Lemma watcher_cycle_events o st :
  List.filter (fun ev => negb (is_reload ev)) (watcher_cycle o st).2
  = [Sleep auto_refresh_seconds; FetchChecksum].
Proof.
  unfold watcher_cycle, watcher_body.
  destruct (get_sheet_checksum (checksum_fetch o)) as [c|]; [|reflexivity].
  destruct (negb (String.eqb c "")
            && bool_decide (Some c <> _last_sheet_checksum st)); reflexivity.
Qed.

Lemma watcher_events os : forall st,
  List.filter (fun ev => negb (is_reload ev)) (watcher os st).2
  = flat_map (fun _ => [Sleep auto_refresh_seconds; FetchChecksum]) os.
Proof.
  induction os as [|o os IH]; intros st; [reflexivity|].
  cbn [watcher flat_map].
  pose proof (watcher_cycle_events o st) as Hc.
  destruct (watcher_cycle o st) as [st1 ev1].
  specialize (IH st1). destruct (watcher os st1) as [st2 ev2].
  cbn [snd] in *. now rewrite List.filter_app, Hc, IH.
Qed.

(** C8, as the code has it. A turn of the watcher is a sleep of the
    configured interval and then a fetch for the checksum, whatever the
    fetches of the turns before gave, so a fetch that failed is made again
    one interval later; a failed fetch raises nothing in the loop. No turn
    changes the connectivity flag: it is what [connect] left. A failed
    checksum fetch changes nothing at all. A reload whose row fetch fails
    empties the cache and sets the watcher's checksum back to that of the
    last sheet read, so that the next checksum that differs from it starts
    a reload again. *)
Theorem watcher_failed_fetch (st : Sync) (o : outcome) (os : list outcome) :
  List.filter (fun ev => negb (is_reload ev)) (watcher os st).2
  = flat_map (fun _ => [Sleep auto_refresh_seconds; FetchChecksum]) os /\
  connected (watcher_cycle o st).1 = connected st /\
  (forall e, checksum_fetch o = Raise e ->
     watcher_cycle o st = (st, [Sleep auto_refresh_seconds; FetchChecksum])) /\
  (forall e, rows_fetch o = Raise e -> Reload ∈ (watcher_cycle o st).2 ->
     data (window (watcher_cycle o st).1) = [] /\
     last_checksum (watcher_cycle o st).1 = last_checksum st /\
     _last_sheet_checksum (watcher_cycle o st).1 = last_checksum st) /\
  (forall vals, checksum_fetch o = Ok vals ->
     Some (_compute_checksum vals) <> _last_sheet_checksum st ->
     Reload ∈ (watcher_cycle o st).2).
Proof.
  split; [apply watcher_events|].
  unfold watcher_cycle, watcher_body, get_sheet_checksum.
  destruct o as [cf rf pf]. cbn [checksum_fetch rows_fetch parity_fetch].
  destruct cf as [vals|e0].
  - rewrite rbind_ok. cbn [try_except].
    pose proof (checksum_not_empty vals) as Hne.
    apply String.eqb_neq in Hne. rewrite Hne. cbn [negb andb].
    destruct (bool_decide (Some (_compute_checksum vals)
                           <> _last_sheet_checksum st)) eqn:Hd;
      cbn [try_except fst snd].
    + split; [now rewrite load_data_connected|]. split; [discriminate|]. split.
      * intros e -> _. unfold load_data, get_all_data.
        rewrite rbind_raise. cbn [try_except window data last_checksum
          _last_sheet_checksum badges_raise last].
        rewrite check_parity_data. split; [|split]; reflexivity.
      * intros v _ _. apply list_elem_of_In. right. right. now left.
    + split; [reflexivity|]. split; [discriminate|]. split.
      * intros e _ H. apply list_elem_of_In in H.
        destruct H as [H|[H|[]]]; discriminate H.
      * intros v Hv Hneq. injection Hv as <-.
        apply bool_decide_eq_false in Hd. now elim Hd.
  - rewrite rbind_raise. cbn [try_except fst snd].
    split; [reflexivity|]. split; [reflexivity|]. split.
    + intros e _ H. apply list_elem_of_In in H.
      destruct H as [H|[H|[]]]; discriminate H.
    + intros v Hv. discriminate Hv.
Qed.

Lemma watcher_failed_fetch_witness :
  watcher_cycle demo_failure demo_started
  = (demo_started, [Sleep auto_refresh_seconds; FetchChecksum]) /\
  data (window (watcher_cycle demo_rows_failure demo_started).1) = [] /\
  Reload ∈ (watcher_cycle demo_success
              (watcher_cycle demo_rows_failure demo_started).1).2.
Proof.
  split; [|split].
  - exact (proj1 (proj2 (proj2 (watcher_failed_fetch demo_started demo_failure [])))
             IOError eq_refl).
  - apply (proj1 (proj2 (proj2 (proj2
             (watcher_failed_fetch demo_started demo_rows_failure []))))
             IOError eq_refl).
    vm_compute. apply list_elem_of_In. right. right. now left.
  - apply (proj2 (proj2 (proj2 (proj2
             (watcher_failed_fetch
                (watcher_cycle demo_rows_failure demo_started).1
                demo_success []))))
             demo_sheet eq_refl).
    vm_compute. discriminate.
Defined.

(** C8 as stated fails: the watcher is started connected, and after a
    turn whose checksum fetch fails, and after one whose row fetch fails
    in the reload, the connectivity flag is still true. *)
Lemma watcher_keeps_connected :
  connected demo_started = true /\
  checksum_fetch demo_failure = Raise IOError /\
  connected (watcher_cycle demo_failure demo_started).1 = true /\
  rows_fetch demo_rows_failure = Raise IOError /\
  (watcher_cycle demo_rows_failure demo_started).2
  = [Sleep auto_refresh_seconds; FetchChecksum; Reload] /\
  connected (watcher_cycle demo_rows_failure demo_started).1 = true.
Proof. repeat split; vm_compute; reflexivity. Qed.
(** * More properties *)

(** ** Recomputation and the snapshot *)

Lemma recompute_from_app running df1 df2 :
  recompute_from running (df1 ++ df2)
  = recompute_from running df1
    ++ recompute_from (fold_left update_running df1 running) df2.
Proof.
  revert running. induction df1 as [|r df1 IH]; intros running; [reflexivity|].
  cbn [app recompute_from fold_left]. now rewrite IH.
Qed.

(** Rows that come later never change the records of the rows before
    them, in a table whose rows so far are none or have a row of texts (so
    that the later rows cannot change the types of the columns): the
    recomputation of the table with more rows appended begins with the
    recomputation of the table. *)
Theorem recompute_append (df1 df2 : list Row) :
  text_columns df1 ->
  take (length df1) (recompute_all_balances (df1 ++ df2))
  = recompute_all_balances df1 /\
  take (length df1) (recompute (df1 ++ df2)) = recompute df1.
Proof.
  intros [->|H]; [done|].
  assert (H1 : text_columns df1) by (by right).
  assert (H2 : text_columns (df1 ++ df2)).
  { right. apply Exists_app. by left. }
  rewrite (text_columns_all_balances _ H1), (text_columns_all_balances _ H2).
  rewrite (text_columns_recompute _ H1), (text_columns_recompute _ H2).
  rewrite recompute_from_app. split.
  - rewrite take_app_length'; [reflexivity|].
    by rewrite recompute_from_length.
  - unfold renumber. rewrite map_app, imap_app.
    rewrite take_app_length'; [reflexivity|].
    by rewrite length_imap, length_map, recompute_from_length.
Qed.

Lemma recompute_append_witness :
  take 2 (recompute demo_rows) = recompute (take 2 demo_rows).
Proof.
  assert (H : text_columns (take 2 demo_rows)).
  { right. apply Exists_cons_hd. reflexivity. }
  exact (proj2 (recompute_append (take 2 demo_rows) (drop 2 demo_rows) H)).
Defined.

(** The snapshot that [get_all_data] returns and the parity check
    compares: whatever the column 'No.' of the sheet holds, the records are
    numbered 1, 2, 3 and so on in the order of the rows; and a record has
    an account column for each name of BANK_LIST and for nothing else. *)
Theorem snapshot_schema (df : list Row) (i : nat) (r' : Row) :
  recompute df !! i = Some r' ->
  No r' = Z.of_nat i + 1 /\
  forall b, is_Some (balances r' !! b) <-> b ∈ BANK_LIST.
Proof.
  intros H. split.
  - apply recompute_lookup in H as (r & _ & ->). reflexivity.
  - intros b. exact (recompute_accounts _ _ _ b H).
Qed.

Lemma snapshot_schema_witness :
  exists r', recompute demo_rows !! 3%nat = Some r' /\
    No r' = 4 /\ forall b, is_Some (balances r' !! b) <-> b ∈ BANK_LIST.
Proof.
  destruct (recompute demo_rows !! 3%nat) as [r'|] eqn:Hr;
    [|vm_compute in Hr; discriminate Hr].
  exists r'. split; [reflexivity|].
  exact (snapshot_schema demo_rows 3 r' Hr).
Defined.
(** ** A parity check after a load *)

Lemma differs_refl x : differs x x = false.
Proof.
  unfold differs, fsub, fabs, fltb.
  destruct x as [s|s| |s m e]; try (destruct s; reflexivity); try reflexivity.
  unfold SFsub. rewrite Z.sub_diag. reflexivity.
Qed.

Lemma bank_lines_same banks r :
  (forall b, b ∈ banks -> is_Some (balances r !! b)) ->
  bank_lines banks r r = Ok [].
Proof.
  induction banks as [|b banks IH]; intros H; [reflexivity|].
  cbn [bank_lines]. unfold account.
  destruct (H b) as [x ->]; [left|]. rewrite !rbind_ok.
  unfold last_line. rewrite differs_refl, rbind_ok, IH; [reflexivity|].
  intros b' Hb'. apply H. now right.
Qed.

Lemma parity_diffs_same df : parity_diffs (recompute df) (recompute df) = Ok [].
Proof.
  unfold parity_diffs. rewrite Nat.eqb_refl, !differs_refl.
  destruct (last (recompute df)) as [r|] eqn:Hl; [|reflexivity].
  unfold last_line at 1. rewrite differs_refl, rbind_ok.
  rewrite bank_lines_same; [reflexivity|].
  intros b Hb. rewrite last_lookup in Hl.
  now apply (recompute_accounts _ _ _ b Hl).
Qed.

Lemma get_all_data_rows st header r rows df :
  decode_rows (header_index header) (r :: rows) = Ok df ->
  get_all_data (Ok (header :: r :: rows)) st
  = (recompute df,
     {| connected := connected st;
        last_checksum := Some (_compute_checksum (header :: r :: rows));
        _last_sheet_checksum := _last_sheet_checksum st;
        window := window st |}).
Proof.
  intros H. unfold get_all_data. now rewrite rbind_ok, H, rbind_ok.
Qed.

(** The check that [load_data] makes right after loading. The sheet has a
    data row and its amounts parse: the cache is the snapshot of the sheet
    and the watcher's checksum is the checksum of the sheet. When the last
    balances of the snapshot are finite, so that the badges of line 831 are
    drawn, and the fetch of the check returns the sheet that was just
    loaded, the state is OK with "Semua cocok" as details. When one of the
    last balances is not finite, [int(v)] of line 831 raises, the check is
    not reached, and the state and the details stay as they were. *)
Theorem parity_after_load (st : Sync) (header : list cell)
    (rows : list (list cell)) (df : list Row) :
  rows <> [] ->
  decode_rows (header_index header) rows = Ok df ->
  let st' := load_data (Ok (header :: rows)) (Ok (header :: rows)) st in
  data (window st') = recompute df /\
  _last_sheet_checksum st' = Some (_compute_checksum (header :: rows)) /\
  (badges_raise (recompute df) = false ->
   parity_state (window st') = OK /\
   parity_details_last (window st') = AllMatch) /\
  (badges_raise (recompute df) = true ->
   parity_state (window st') = parity_state (window st) /\
   parity_details_last (window st') = parity_details_last (window st)).
Proof.
  intros Hrows Hdec. destruct rows as [|r rows]; [now elim Hrows|].
  cbv zeta. unfold load_data. rewrite (get_all_data_rows _ _ _ _ _ Hdec).
  cbn [window last_checksum _last_sheet_checksum connected].
  destruct (badges_raise (recompute df)) eqn:Hb.
  - cbn [data parity_state parity_details_last].
    repeat split; try discriminate; reflexivity.
  - unfold check_parity_against_api. cbn [data].
    rewrite (parity_run_rows _ _ _ _ _ Hdec), parity_diffs_same, rbind_ok.
    cbn [data parity_state parity_details_last].
    repeat split; try discriminate; reflexivity.
Qed.

Lemma parity_after_load_witness :
  let st' := load_data (Ok demo_sheet) (Ok demo_sheet) sync0 in
  data (window st') = recompute demo_decoded /\
  parity_state (window st') = OK /\
  parity_details_last (window st') = AllMatch /\
  _last_sheet_checksum st' = Some (_compute_checksum demo_sheet).
Proof.
  destruct (parity_after_load sync0 (map CStr HEADERS) (tl demo_sheet)
              demo_decoded) as (Hd & Hc & Hok & _).
  - discriminate.
  - vm_compute. reflexivity.
  - destruct Hok as [Hs Hl]; [vm_compute; reflexivity|].
    cbv zeta. repeat split; assumption.
Defined.
(** ** The watcher and the loading *)

Lemma watcher_cycle_same_checksum o st (vals : grid) :
  checksum_fetch o = Ok vals ->
  _last_sheet_checksum st = Some (_compute_checksum vals) ->
  watcher_cycle o st = (st, [Sleep auto_refresh_seconds; FetchChecksum]).
Proof.
  intros Hf Hc. unfold watcher_cycle, watcher_body, get_sheet_checksum.
  rewrite Hf, rbind_ok. cbn [try_except]. rewrite Hc.
  rewrite (bool_decide_eq_false_2 (Some _ <> Some _)); [|intros H; now apply H].
  now rewrite andb_false_r.
Qed.

Lemma load_data_checksum (vals : grid) pf st :
  (length vals < 2)%nat \/
  (exists header rows df, vals = header :: rows /\
     decode_rows (header_index header) rows = Ok df) ->
  _last_sheet_checksum (load_data (Ok vals) pf st)
  = Some (_compute_checksum vals) /\
  last_checksum (load_data (Ok vals) pf st) = Some (_compute_checksum vals).
Proof.
  intros H. unfold load_data, get_all_data. rewrite rbind_ok.
  destruct vals as [|header [|r rows]]; try (split; reflexivity).
  destruct H as [H|(h & rs & df & E & Hdec)]; [cbn [length] in H; lia|].
  injection E as <- <-. rewrite Hdec, rbind_ok. split; reflexivity.
Qed.

(** A sheet that has not changed since it was loaded starts no reload:
    after [load_data] read a sheet, one with no data row or one whose
    amounts parse, a turn of the watcher that fetches the same sheet leaves
    the state as it is, and any number of such turns do. *)
Theorem watcher_unchanged_sheet (st : Sync) (vals : grid) (pf : result grid)
    (os : list outcome) :
  (length vals < 2)%nat \/
  (exists header rows df, vals = header :: rows /\
     decode_rows (header_index header) rows = Ok df) ->
  Forall (fun o => checksum_fetch o = Ok vals) os ->
  let loaded := load_data (Ok vals) pf st in
  watcher os loaded
  = (loaded, flat_map (fun _ => [Sleep auto_refresh_seconds; FetchChecksum]) os).
Proof.
  intros Hvals Hos. cbv zeta.
  destruct (load_data_checksum vals pf st Hvals) as [Hc _].
  revert Hc. generalize (load_data (Ok vals) pf st). intros loaded Hc.
  induction Hos as [|o os Ho Hos IH]; [reflexivity|].
  cbn [watcher flat_map].
  rewrite (watcher_cycle_same_checksum o loaded vals Ho Hc), IH. reflexivity.
Qed.

Lemma watcher_unchanged_sheet_witness :
  watcher [demo_unchanged; demo_unchanged] demo_started
  = (demo_started,
     [Sleep auto_refresh_seconds; FetchChecksum;
      Sleep auto_refresh_seconds; FetchChecksum]).
Proof.
  apply (watcher_unchanged_sheet (connect true sync0) demo_sheet_before
           (Ok demo_sheet_before) [demo_unchanged; demo_unchanged]).
  - right. exists (map CStr HEADERS), (tl demo_sheet_before).
    eexists. split; [reflexivity | vm_compute; reflexivity].
  - repeat constructor.
Defined.

Lemma get_all_data_fails rf st :
  (exists e, rf = Raise e) \/
  (exists header rows e, rf = Ok (header :: rows) /\
     decode_rows (header_index header) rows = Raise e) ->
  get_all_data rf st = ([], st).
Proof.
  intros [(e & ->)|(header & rows & e & -> & Hdec)]; [reflexivity|].
  unfold get_all_data. rewrite rbind_ok.
  destruct rows as [|r rows]; [discriminate Hdec|].
  now rewrite Hdec, rbind_raise.
Qed.

Lemma watcher_cycle_failed_load o st (vals : grid) :
  checksum_fetch o = Ok vals ->
  _last_sheet_checksum st <> Some (_compute_checksum vals) ->
  get_all_data (rows_fetch o)
    {| connected := connected st; last_checksum := last_checksum st;
       _last_sheet_checksum := Some (_compute_checksum vals);
       window := window st |}
  = ([], {| connected := connected st; last_checksum := last_checksum st;
            _last_sheet_checksum := Some (_compute_checksum vals);
            window := window st |}) ->
  exists st',
    watcher_cycle o st
    = (st', [Sleep auto_refresh_seconds; FetchChecksum; Reload]) /\
    data (window st') = [] /\
    last_checksum st' = last_checksum st /\
    _last_sheet_checksum st' = last_checksum st.
Proof.
  intros Hf Hc Hload. unfold watcher_cycle, watcher_body, get_sheet_checksum.
  rewrite Hf, rbind_ok. cbn [try_except].
  pose proof (checksum_not_empty vals) as Hne.
  apply String.eqb_neq in Hne. rewrite Hne. cbn [negb andb].
  rewrite bool_decide_eq_true_2 by (intros E; now apply Hc).
  cbn [try_except]. eexists. split; [reflexivity|].
  unfold load_data. rewrite Hload.
  cbn [window data last_checksum _last_sheet_checksum badges_raise last].
  rewrite check_parity_data. repeat split.
Qed.

(** A sheet that cannot be loaded is loaded again on every turn. When the
    fetch of the rows raises, or an amount of the sheet makes the parsing
    raise, [load_data] empties the cache and puts the watcher's checksum
    back to the one of the last sheet that was read; the checksum of the
    sheet differing from that one, each turn of the watcher that meets the
    same failure starts a reload, and leaves the cache empty. *)
Theorem watcher_reloads_failed_sheet (st : Sync) (o : outcome) (vals : grid)
    (n : nat) :
  checksum_fetch o = Ok vals ->
  ((exists e, rows_fetch o = Raise e) \/
   (exists header rows e, rows_fetch o = Ok (header :: rows) /\
      decode_rows (header_index header) rows = Raise e)) ->
  last_checksum st <> Some (_compute_checksum vals) ->
  _last_sheet_checksum st <> Some (_compute_checksum vals) ->
  (watcher (replicate n o) st).2
  = flat_map (fun _ => [Sleep auto_refresh_seconds; FetchChecksum; Reload])
             (replicate n o) /\
  last_checksum (watcher (replicate n o) st).1 = last_checksum st /\
  (n <> O -> data (window (watcher (replicate n o) st).1) = []).
Proof.
  intros Hf Hrows. revert st.
  induction n as [|n IH]; intros st Hl Hc; [now repeat split|].
  cbn [replicate watcher flat_map].
  destruct (watcher_cycle_failed_load o st vals Hf Hc)
    as (st1 & -> & Hd & Hl1 & Hc1); [now apply get_all_data_fails|].
  destruct (IH st1) as (Ht & Hl2 & Hd2); [congruence|congruence|].
  destruct (watcher (replicate n o) st1) as [st2 ev2] eqn:E.
  cbn [fst snd] in *. split; [now rewrite Ht|].
  split; [congruence|]. intros _. destruct n as [|n].
  - cbn [replicate watcher] in E. now injection E as <- _.
  - now apply Hd2.
Qed.

Lemma watcher_reloads_failed_sheet_witness :
  (watcher (replicate 3 demo_overflow) demo_started).2
  = flat_map (fun _ => [Sleep auto_refresh_seconds; FetchChecksum; Reload])
             (replicate 3 demo_overflow) /\
  last_checksum (watcher (replicate 3 demo_overflow) demo_started).1
  = last_checksum demo_started /\
  (3%nat <> O ->
   data (window (watcher (replicate 3 demo_overflow) demo_started).1) = []).
Proof.
  apply (watcher_reloads_failed_sheet demo_started demo_overflow
           demo_sheet_overflow 3).
  - reflexivity.
  - right. exists (map CStr HEADERS), (tl demo_sheet_overflow), OverflowError.
    split; [reflexivity | vm_compute; reflexivity].
  - vm_compute. discriminate.
  - vm_compute. discriminate.
Defined.

(** ** The header of the sheet *)

(** The index of the columns, [{h: i for i, h in enumerate(header)}]: a
    title is looked up at its last column when the header has it more than
    once, and is missing exactly when no cell of the header is that
    text. *)
Theorem header_index_lookup (header : list cell) (h : string) :
  (forall i,
     header_index header !! h = Some i <->
     header !! i = Some (CStr h) /\
     forall j, (i < j)%nat -> header !! j <> Some (CStr h)) /\
  (header_index header !! h = None <-> CStr h ∉ header).
Proof.
  split; [intros i; apply header_index_some | apply header_index_none].
Qed.

Lemma header_index_snoc_lookup header c h :
  header_index (header ++ [c]) !! h
  = if cell_is_title c h then Some (length header)
    else header_index header !! h.
Proof.
  rewrite header_index_snoc. destruct (cell_is_title c h) as [->|Hne].
  - apply lookup_insert_eq.
  - destruct c as [ |b|n|x|h']; try reflexivity.
    apply lookup_insert_ne. intros ->. now apply Hne.
Qed.

(** Renaming the titles: the column of the new title is the column of the
    old one. *)
Lemma header_index_map (f : cell -> cell) header k' k :
  (forall c, c ∈ header -> f c = CStr k' <-> c = CStr k) ->
  header_index (map f header) !! k' = header_index header !! k.
Proof.
  induction header as [|c header IH] using rev_ind; intros H; [reflexivity|].
  rewrite map_app. cbn [map].
  rewrite !header_index_snoc_lookup, length_map, IH.
  - assert (Hc : f c = CStr k' <-> c = CStr k)
      by (apply H, elem_of_app; right; now left).
    destruct (cell_is_title (f c) k') as [E|N],
             (cell_is_title c k) as [E'|N']; try reflexivity.
    + elim N'. now apply Hc.
    + elim N. now apply Hc.
  - intros c' Hc'. apply H, elem_of_app. now left.
Qed.

Lemma new_style_title_inj b1 b2 :
  new_style_title b1 = new_style_title b2 -> b1 = b2.
Proof. unfold new_style_title. cbn. intros H. now injection H. Qed.

Lemma BANK_LIST_HEADERS b : b ∈ BANK_LIST -> b ∈ HEADERS.
Proof. intros H. unfold HEADERS. apply elem_of_app. now right. Qed.

Section NewStyle.
Variable header : list cell.
Hypothesis Hfresh :
  forall b, b ∈ BANK_LIST -> CStr (new_style_title b) ∉ header.

Lemma new_style_plain h :
  h ∈ HEADERS -> h ∉ BANK_LIST ->
  header_index (map new_style header) !! h = header_index header !! h.
Proof.
  intros Hh Hnb. apply header_index_map. intros c _.
  destruct c as [ |b|n|x|s]; try (split; discriminate).
  cbn [new_style]. case_bool_decide as Hs; [|reflexivity].
  split; intros E; injection E as E.
  - pose proof new_style_fresh as F. rewrite Forall_forall in F.
    elim (F s Hs). now rewrite E.
  - subst s. now elim Hnb.
Qed.

Lemma new_style_account h :
  h ∈ BANK_LIST ->
  header_index (map new_style header) !! h = None /\
  header_index (map new_style header) !! new_style_title h
  = header_index header !! h /\
  header_index header !! new_style_title h = None.
Proof.
  intros Hh. pose proof new_style_fresh as F. rewrite Forall_forall in F.
  split; [|split].
  - apply header_index_none. intros Hin.
    apply list_elem_of_fmap in Hin as (c & E & Hc).
    destruct c as [ |b|n|x|s]; try discriminate E.
    cbn [new_style] in E. case_bool_decide as Hs; injection E as E.
    + elim (F s Hs). rewrite <- E. now apply BANK_LIST_HEADERS.
    + subst s. now elim Hs.
  - apply header_index_map. intros c Hc.
    destruct c as [ |b|n|x|s]; try (split; discriminate).
    cbn [new_style]. case_bool_decide as Hs; split; intros E;
      injection E as E.
    + f_equal. first [exact E | now apply new_style_title_inj].
    + now subst s.
    + subst s. now elim (Hfresh h Hh).
    + subst s. now elim Hs.
  - apply header_index_none. now apply Hfresh.
Qed.

Lemma new_style_get_cell r h :
  h ∈ HEADERS ->
  get_cell (header_index (map new_style header)) r h
  = get_cell (header_index header) r h.
Proof.
  intros Hh. unfold get_cell, at_column.
  destruct (decide (h ∈ BANK_LIST)) as [Hb|Hnb].
  - destruct (new_style_account h Hb) as (E1 & E2 & E3).
    rewrite (bool_decide_eq_true_2 _ Hb).
    fold (new_style_title h). rewrite E1, E2, E3. cbn.
    now destruct ((header_index header) !! h ≫= (r !!.)).
  - rewrite (new_style_plain h Hh Hnb), (bool_decide_eq_false_2 _ Hnb).
    reflexivity.
Qed.

Lemma new_style_accounts r banks :
  (forall b, b ∈ banks -> b ∈ BANK_LIST) ->
  parse_accounts (header_index (map new_style header)) r banks
  = parse_accounts (header_index header) r banks.
Proof.
  induction banks as [|b banks IH]; intros H; [reflexivity|].
  cbn [parse_accounts]. rewrite new_style_get_cell, IH; [reflexivity| |].
  - intros b' Hb'. apply H. now right.
  - apply BANK_LIST_HEADERS, H. now left.
Qed.

Lemma new_style_decode_row r :
  decode_row (header_index (map new_style header)) r
  = decode_row (header_index header) r.
Proof.
  unfold decode_row.
  rewrite !new_style_get_cell by compute_done.
  now rewrite new_style_accounts.
Qed.

Lemma new_style_decode_rows rows :
  decode_rows (header_index (map new_style header)) rows
  = decode_rows (header_index header) rows.
Proof.
  induction rows as [|r rows IH]; [reflexivity|].
  cbn [decode_rows]. now rewrite new_style_decode_row, IH.
Qed.
End NewStyle.

(** The account columns may be titled "Saldo Akhir b" instead of "b": a
    sheet whose header has no new-style title decodes to the same records
    when the titles of its account columns are turned into the new-style
    ones. *)
Theorem decode_new_style (header : list cell) (rows : list (list cell)) :
  (forall b, b ∈ BANK_LIST -> CStr (new_style_title b) ∉ header) ->
  decode_rows (header_index (map new_style header)) rows
  = decode_rows (header_index header) rows.
Proof. intros H. now apply new_style_decode_rows. Qed.

Lemma decode_new_style_witness :
  decode_rows (header_index (map new_style (map CStr HEADERS))) (tl demo_sheet)
  = decode_rows (header_index (map CStr HEADERS)) (tl demo_sheet).
Proof.
  apply decode_new_style. intros b Hb Hin.
  apply list_elem_of_fmap in Hin as (s & E & Hs). injection E as <-.
  pose proof new_style_fresh as F. rewrite Forall_forall in F.
  now apply (F b Hb).
Defined.

(** ** Amounts without a digit *)

Lemma digitless_lstrip l : digitless l -> digitless (lstrip_l l).
Proof.
  induction 1 as [|c l Hc Hl IH]; [constructor|].
  cbn [lstrip_l]. destruct (ch_isspace c); [exact IH|now constructor].
Qed.

Lemma digitless_strip s : digitless (chars s) -> digitless (chars (strip s)).
Proof.
  intros H. unfold strip. rewrite chars_text.
  apply Forall_rev, digitless_lstrip, Forall_rev, digitless_lstrip, H.
Qed.

Lemma digitless_replace_l old new l :
  digitless new -> digitless l -> forall k, digitless (replace_l old new k l).
Proof.
  intros Hnew. induction 1 as [|c l Hc Hl IH]; intros k; [constructor|].
  cbn [replace_l]. destruct k as [|k]; [|apply IH].
  destruct (starts_with old (c :: l)).
  - apply Forall_app. split; [exact Hnew|apply IH].
  - constructor; [exact Hc|apply IH].
Qed.

Lemma digitless_replace old new s :
  digitless (chars new) -> digitless (chars s) ->
  digitless (chars (replace old new s)).
Proof.
  intros Hn Hs. unfold replace. rewrite chars_text.
  now apply digitless_replace_l.
Qed.

Lemma digitless_tokens tokens : forall s,
  digitless (chars s) ->
  digitless (chars (fold_left (fun s token => replace token "" s) tokens s)).
Proof.
  induction tokens as [|t tokens IH]; intros s H; [exact H|].
  cbn [fold_left]. apply IH, digitless_replace; [constructor|exact H].
Qed.

Lemma digitless_only_digits s :
  digitless (chars s) -> digitless (chars (_only_digits s)).
Proof.
  intros H. unfold _only_digits. rewrite chars_text.
  unfold digitless in *. rewrite Forall_forall in *.
  intros c Hc. apply list_elem_of_In, List.filter_In in Hc as [Hc _].
  apply H, list_elem_of_In, Hc.
Qed.

Lemma digitless_removelast l : digitless l -> digitless (removelast l).
Proof.
  induction 1 as [|c l Hc Hl IH]; [constructor|].
  cbn [removelast]. destruct l; [constructor|now constructor].
Qed.

Lemma digitless_slice s :
  digitless (chars s) -> digitless (chars (slice_1_m1 s)).
Proof.
  intros H. unfold slice_1_m1. rewrite chars_text.
  apply digitless_removelast. destruct H; [constructor|assumption].
Qed.

Lemma digitless_separators s :
  digitless (chars s) -> digitless (chars (separators s)).
Proof.
  intros H. unfold separators.
  assert (Hdot : digitless (chars ".")) by (repeat constructor).
  assert (Hnil : digitless (chars "")) by constructor.
  repeat match goal with
         | |- context [if ?b then _ else _] => destruct b
         end;
    repeat apply digitless_replace; assumption.
Qed.

Lemma span_digits_digitless l : digitless l -> span_digits l = ([], l).
Proof.
  intros H. destruct H as [|c l Hc Hl]; [reflexivity|].
  cbn [span_digits]. now rewrite Hc.
Qed.

Lemma float_of_str_digitless s :
  digitless (chars s) -> float_of_str s = Raise ValueError.
Proof.
  intros H. unfold float_of_str.
  assert (Hraise : forall l, digitless l ->
            (let '(ip, rest) := span_digits l in
             match rest with
             | [] => match ip with
                     | [] => Raise ValueError
                     | _ => Ok (decimal_val false ip [])
                     end
             | "."%char :: rest' =>
                 let '(fp, rest'') := span_digits rest' in
                 match rest'', (ip ++ fp)%list with
                 | [], _ :: _ => Ok (decimal_val false ip fp)
                 | _, _ => Raise ValueError
                 end
             | _ => Raise ValueError
             end) = Raise ValueError
            /\
            (let '(ip, rest) := span_digits l in
             match rest with
             | [] => match ip with
                     | [] => Raise ValueError
                     | _ => Ok (decimal_val true ip [])
                     end
             | "."%char :: rest' =>
                 let '(fp, rest'') := span_digits rest' in
                 match rest'', (ip ++ fp)%list with
                 | [], _ :: _ => Ok (decimal_val true ip fp)
                 | _, _ => Raise ValueError
                 end
             | _ => Raise ValueError
             end) = Raise ValueError).
  { intros l Hl. rewrite (span_digits_digitless l Hl).
    destruct Hl as [|c l Hc Hl]; [split; reflexivity|].
    destruct (Ascii.eqb_spec c "."%char) as [->|Hne].
    - rewrite (span_digits_digitless l Hl). cbn [app].
      destruct l; split; reflexivity.
    - destruct c as [[] [] [] [] [] [] [] []]; try (split; reflexivity).
      now elim Hne. }
  destruct H as [|c l Hc Hl]; [reflexivity|].
  destruct (Ascii.eqb_spec c "-"%char) as [->|Hm].
  - exact (proj2 (Hraise l Hl)).
  - destruct (Ascii.eqb_spec c "+"%char) as [->|Hp].
    + exact (proj1 (Hraise l Hl)).
    + assert (Hcl : digitless (c :: l)) by now constructor.
      destruct c as [[] [] [] [] [] [] [] []];
        try exact (proj1 (Hraise _ Hcl)); first [now elim Hm | now elim Hp].
Qed.

(** A text of characters below code point 256, as all texts are here,
    without any of the digits 0 to 9 reads as the amount 0: what is left of
    it after the cleaning is no number, [float] raises inside the [try],
    and the zero it is replaced by is rounded to 0, with or without
    parentheses. Nothing is raised. The bound on the code points matters:
    [str.isdigit] keeps the digits of other scripts, which are above it and
    which [float] reads as numbers. *)
Theorem parse_amount_idr_digitless (s : string) :
  forallb (fun c => negb (is_ascii_digit c)) (chars s) = true ->
  parse_amount_idr (CStr s) = Ok fzero.
Proof.
  intros H.
  assert (Hs : digitless (chars s)).
  { unfold digitless. rewrite Forall_forall. intros c Hc.
    rewrite forallb_forall in H. apply negb_true_iff, H, list_elem_of_In, Hc. }
  cbn [parse_amount_idr].
  destruct (String.eqb (strip s) ""); [reflexivity|].
  set (c := _only_digits _).
  assert (Hc : digitless (chars c)).
  { apply digitless_only_digits, digitless_tokens, digitless_strip, Hs. }
  destruct (startswith "(" c && endswith ")" c).
  - rewrite float_of_str_digitless; [reflexivity|].
    apply digitless_separators, digitless_slice, Hc.
  - rewrite float_of_str_digitless; [reflexivity|].
    apply digitless_separators, Hc.
Qed.

Lemma parse_amount_idr_digitless_witness :
  parse_amount_idr (CStr " (Rp -,. lunas) ") = Ok fzero.
Proof. apply parse_amount_idr_digitless. reflexivity. Defined.

(** ** Column letters *)

Lemma col_value_acc l acc :
  fold_left (fun acc c => acc * 26 + (Z.of_N (code c) - 64)) l acc
  = acc * 26 ^ Z.of_nat (length l)
    + fold_left (fun acc c => acc * 26 + (Z.of_N (code c) - 64)) l 0.
Proof.
  revert acc. induction l as [|c l IH]; intros acc.
  - cbn. lia.
  - cbn [fold_left length]. rewrite IH, (IH (0 * 26 + _)).
    rewrite Nat2Z.inj_succ, Z.pow_succ_r by lia. lia.
Qed.

Lemma letter_code r :
  0 <= r < 26 -> Z.of_N (code (ascii_of_N (Z.to_N (65 + r)))) = 65 + r.
Proof.
  intros H. unfold code. rewrite N_ascii_embedding; lia.
Qed.

Lemma col_letter_loop_value turns : forall n s,
  0 <= n <= Z.of_nat turns ->
  fold_left (fun acc c => acc * 26 + (Z.of_N (code c) - 64))
            (col_letter_loop turns n s) 0
  = n * 26 ^ Z.of_nat (length s)
    + fold_left (fun acc c => acc * 26 + (Z.of_N (code c) - 64)) s 0.
Proof.
  induction turns as [|turns IH]; intros n s Hn.
  - cbn [col_letter_loop]. replace n with 0 by lia. lia.
  - cbn [col_letter_loop]. destruct (Z.ltb_spec 0 n) as [Hpos|Hz].
    + pose proof (Z.mod_pos_bound (n - 1) 26 ltac:(lia)) as Hr.
      pose proof (Z.div_mod (n - 1) 26 ltac:(lia)) as Hdm.
      assert (Hq : 0 <= (n - 1) / 26 <= Z.of_nat turns).
      { split; [apply Z.div_pos; lia|].
        assert ((n - 1) / 26 <= n - 1) by (apply Z.div_le_upper_bound; lia).
        lia. }
      rewrite (IH _ _ Hq). cbn [fold_left length].
      rewrite (col_value_acc s), letter_code by exact Hr.
      rewrite Nat2Z.inj_succ, Z.pow_succ_r by lia. nia.
    + replace n with 0 by lia. lia.
Qed.

Lemma col_letter_loop_upper turns : forall n s,
  Forall (fun c => 65 <= Z.of_N (code c) <= 90) s ->
  Forall (fun c => 65 <= Z.of_N (code c) <= 90) (col_letter_loop turns n s).
Proof.
  induction turns as [|turns IH]; intros n s Hs; [exact Hs|].
  cbn [col_letter_loop]. destruct (0 <? n); [|exact Hs].
  apply IH. constructor; [|exact Hs].
  pose proof (Z.mod_pos_bound (n - 1) 26 ltac:(lia)) as Hr.
  rewrite letter_code by exact Hr. lia.
Qed.

(** [_col_letter] writes a column number the way a spreadsheet names its
    columns: for [n >= 1] the letters are capitals and stand for [n] (A is
    1, Z is 26, AA is 27 and so on), so two numbers never get the same
    letters; for [n <= 0] there is no letter. The range formatted as
    currency, from column 6 to column 8 + len(BANK_LIST), is F2:S10000,
    and the titles of these columns are MONEY_COLS. *)
Theorem col_letter_number (n : Z) :
  (1 <= n ->
   col_number (_col_letter n) = n /\
   Forall (fun c => 65 <= Z.of_N (code c) <= 90) (chars (_col_letter n))) /\
  (n <= 0 -> _col_letter n = "") /\
  currency_range = "F2:S10000" /\
  drop 5 HEADERS = MONEY_COLS.
Proof.
  split; [|split; [|split; reflexivity]].
  - intros Hn. unfold col_number, _col_letter. rewrite chars_text. split.
    + rewrite col_letter_loop_value by lia. cbn. lia.
    + apply col_letter_loop_upper. constructor.
  - intros Hn. unfold _col_letter.
    destruct (Z.to_nat n) eqn:E; [reflexivity|lia].
Qed.

Lemma col_letter_number_witness :
  col_number (_col_letter 703) = 703 /\ _col_letter 703 = "AAA" /\
  _col_letter 0 = "".
Proof.
  split; [|split].
  - exact (proj1 (proj1 (col_letter_number 703) ltac:(lia))).
  - reflexivity.
  - exact (proj1 (proj2 (col_letter_number 0)) ltac:(lia)).
Defined.

(** ** The audit trail *)

Lemma readlines_l_line line : forall cur rest,
  forallb (fun c => negb (Ascii.eqb c nl) && negb (Ascii.eqb c cr)) line = true ->
  readlines_l cur (line ++ nl :: rest)
  = text (rev cur ++ line ++ [nl]) :: readlines_l [] rest.
Proof.
  induction line as [|c line IH]; intros cur rest H.
  - cbn [app readlines_l]. rewrite Ascii.eqb_refl. reflexivity.
  - cbn [forallb] in H. apply andb_true_iff in H as [Hc Hl].
    apply andb_true_iff in Hc as [Hn Hr].
    apply negb_true_iff in Hn, Hr.
    cbn [app readlines_l]. rewrite Hn, Hr, (IH _ _ Hl).
    cbn [rev]. now rewrite <- app_assoc.
Qed.

Lemma one_line_app s1 s2 :
  one_line s1 = true -> one_line s2 = true -> one_line (s1 +:+ s2) = true.
Proof.
  unfold one_line. rewrite chars_app, forallb_app. intros -> ->. reflexivity.
Qed.

(** The line of an entry is a text of one line and a line feed. *)
Lemma entry_line_chars e :
  entry_one_line e = true ->
  exists body,
    chars (entry_line e) = body ++ [nl] /\
    forallb (fun c => negb (Ascii.eqb c nl) && negb (Ascii.eqb c cr)) body
    = true.
Proof.
  destruct e as [[ts action] details]. unfold entry_one_line, entry_line,
    audit_line. cbn [fst snd]. intros H.
  apply andb_true_iff in H as [H Hd]. apply andb_true_iff in H as [Ht Ha].
  exists (chars ("[" +:+ ts +:+ "] " +:+ action +:+ ": " +:+ details)).
  split.
  - rewrite !chars_app, chars_text, <- !app_assoc. reflexivity.
  - fold (one_line ("[" +:+ ts +:+ "] " +:+ action +:+ ": " +:+ details)).
    repeat apply one_line_app; try assumption; reflexivity.
Qed.

Lemma readlines_entries es : forall rest,
  forallb entry_one_line es = true ->
  readlines_l [] (flat_map (fun e => chars (entry_line e)) es ++ rest)
  = map entry_line es ++ readlines_l [] rest.
Proof.
  induction es as [|e es IH]; intros rest H; [reflexivity|].
  cbn [forallb] in H. apply andb_true_iff in H as [He Hes].
  destruct (entry_line_chars e He) as (body & Hb & Hone).
  cbn [flat_map map app]. rewrite <- (text_chars (entry_line e)) at 2.
  rewrite Hb, <- !app_assoc. cbn [app].
  rewrite (readlines_l_line body [] _ Hone). cbn [rev app].
  now rewrite (IH _ Hes).
Qed.

Lemma logged_cons e es f :
  logged (e :: es) f = logged es (Some (default "" f +:+ entry_line e)).
Proof. reflexivity. Qed.

Lemma logged_chars es : forall content,
  logged es (Some content)
  = Some (text (chars content ++ flat_map (fun e => chars (entry_line e)) es)).
Proof.
  induction es as [|e es IH]; intros content.
  - cbn. now rewrite app_nil_r, text_chars.
  - rewrite logged_cons. cbn [default flat_map].
    rewrite IH, chars_app, <- app_assoc. reflexivity.
Qed.

Lemma read_logged es :
  forallb entry_one_line es = true ->
  forall limit,
    read_audit_lines (logged es None) limit
    = last_lines limit (map entry_line es).
Proof.
  intros H limit. destruct es as [|e es].
  - cbn. unfold last_lines. cbn.
    destruct (- limit <? 0); now rewrite drop_nil.
  - rewrite logged_cons. cbn [default].
    rewrite logged_chars. unfold read_audit_lines, readlines.
    rewrite chars_text. f_equal.
    pose proof (readlines_entries (e :: es) [] H) as R.
    rewrite app_nil_r in R. cbn [readlines_l] in R. rewrite app_nil_r in R.
    exact R.
Qed.

(** The trail read back is the trail written. After entries without a
    line end in them were logged to a file that did not exist,
    [read_audit_lines] returns their lines in the order they were written:
    the last [limit] of them for [limit >= 1], never more than [limit]
    lines; and all of them for the limit 0, since [lines[-0:]] is the whole
    list. *)
Theorem audit_trail_read_back (es : list entry) (limit : Z) :
  forallb entry_one_line es = true ->
  (1 <= limit ->
   read_audit_lines (logged es None) limit
   = drop (length es - Z.to_nat limit) (map entry_line es) /\
   Z.of_nat (length (read_audit_lines (logged es None) limit)) <= limit) /\
  read_audit_lines (logged es None) 0 = map entry_line es.
Proof.
  intros H. split.
  - intros Hl. rewrite (read_logged es H). unfold last_lines.
    rewrite length_map. destruct (Z.ltb_spec (- limit) 0) as [_|Hge]; [|lia].
    replace (Z.to_nat (Z.max 0 (Z.of_nat (length es) + - limit)))
      with (length es - Z.to_nat limit)%nat by lia.
    split; [reflexivity|]. rewrite length_drop, length_map. lia.
  - rewrite (read_logged es H). reflexivity.
Qed.

Lemma audit_trail_read_back_witness :
  read_audit_lines
    (logged [("01/01/2024 10:00:00", "GSheets Connect", "Berhasil");
             ("01/01/2024 10:00:05", "Append Row", "[1, 2] ...")] None) 1
  = [audit_line "01/01/2024 10:00:05" "Append Row" "[1, 2] ..."].
Proof.
  exact (proj1 (proj1 (audit_trail_read_back
    [("01/01/2024 10:00:00", "GSheets Connect", "Berhasil");
     ("01/01/2024 10:00:05", "Append Row", "[1, 2] ...")] 1 eq_refl)
    ltac:(lia))).
Defined.

(** ** Writing a transaction *)

Lemma last_balances_lookup (f : string -> float) last_row banks :
  (forall b, b ∈ banks -> balances last_row !! b = Some (f b)) ->
  exists m, last_balances banks last_row = Ok m /\
    forall k, m !! k = if bool_decide (k ∈ banks) then Some (f k) else None.
Proof.
  induction banks as [|b banks IH]; intros H.
  - exists ∅. split; [reflexivity|]. intros k. now rewrite lookup_empty.
  - destruct IH as (m & Hm & Hk); [intros b' Hb'; apply H; now right|].
    exists (<[b := f b]> m). split.
    + cbn [last_balances]. unfold account. rewrite (H b) by left.
      rewrite rbind_ok, Hm. reflexivity.
    + intros k. destruct (decide (k = b)) as [->|Hne].
      * rewrite lookup_insert_eq, bool_decide_eq_true_2; [reflexivity|left].
      * rewrite lookup_insert_ne, Hk by congruence.
        apply (f_equal (fun c : bool => if c then Some (f k) else None)).
        apply bool_decide_ext. rewrite elem_of_cons. tauto.
Qed.

Lemma running0_lookup_all k :
  running0 !! k = if bool_decide (k ∈ BANK_LIST) then Some fzero else None.
Proof.
  case_bool_decide as Hk; [now apply running0_lookup|].
  unfold running0. apply not_elem_of_list_to_map_1.
  rewrite <- list_fmap_compose. intros Hin.
  apply list_elem_of_fmap in Hin as (b & -> & Hb). now apply Hk.
Qed.

Lemma running_after_running0 k :
  k ∈ BANK_LIST -> running_after [] !!! k = fzero.
Proof.
  intros Hk. unfold running_after. cbn [fold_left].
  now rewrite lookup_total_alt, running0_lookup.
Qed.

(** What the writer reads in the cache: the running balances after the
    rows, and the number of the next row. *)
Lemma cache_last df :
  exists per_bank,
    match last (recompute df) with
    | Some last_row => last_balances BANK_LIST last_row
    | None => Ok running0
    end = Ok per_bank /\
    (forall k, per_bank !! k
               = if bool_decide (k ∈ BANK_LIST)
                 then Some (running_after df !!! k) else None) /\
    match last (recompute df) with
    | Some last_row => No last_row + 1
    | None => 1
    end = Z.of_nat (length df) + 1.
Proof.
  destruct (last (recompute df)) as [l|] eqn:Hl.
  - rewrite last_lookup, recompute_length in Hl.
    destruct (recompute_lookup _ _ _ Hl) as (r & Hr & ->).
    assert (Hlen : S (Nat.pred (length df)) = length df).
    { apply lookup_lt_Some in Hr. lia. }
    rewrite Hlen, firstn_all.
    fold (running_after df).
    destruct (last_balances_lookup (fun b => running_after df !!! b)
                (set_no (Z.of_nat (Nat.pred (length df)) + 1)
                   (select_headers
                      (snapshot_cells df (emit (running_after df) r))))
                BANK_LIST)
      as (m & Hm & Hk).
    { intros b Hb. rewrite snapshot_cells_accounts.
      now rewrite bool_decide_eq_true_2. }
    exists m. split; [exact Hm|]. split; [exact Hk|].
    cbn [No set_no]. lia.
  - apply last_nil_inv in Hl. apply (f_equal length) in Hl.
    rewrite recompute_length in Hl. destruct df; [|discriminate Hl].
    exists running0. split; [reflexivity|]. split; [|reflexivity].
    intros k. rewrite running0_lookup_all.
    case_bool_decide as Hk; [|reflexivity].
    now rewrite running_after_running0.
Qed.

Lemma recompute_snoc df item :
  text_columns df -> text_row item = true ->
  recompute (df ++ [item])
  = recompute df
    ++ [set_no (Z.of_nat (length df) + 1)
          (select_headers
             (emit (update_running (running_after df) item) item))].
Proof.
  intros Hdf Hitem.
  rewrite (text_columns_recompute df Hdf).
  rewrite (text_columns_recompute _ (text_columns_snoc df item Hitem)).
  unfold renumber.
  rewrite recompute_from_app, map_app, imap_app.
  cbn [recompute_from map imap].
  rewrite length_map, recompute_from_length, Nat.add_0_r. reflexivity.
Qed.

Lemma money_column i col :
  HEADERS !! i = Some col -> col ∈ MONEY_COLS <-> (5 <= i)%nat.
Proof.
  intros H. change MONEY_COLS with (drop 5 HEADERS). split.
  - intros Hin. apply list_elem_of_lookup in Hin as [j Hj].
    rewrite lookup_drop in Hj.
    pose proof (NoDup_lookup _ _ _ _ HEADERS_NoDup H Hj). lia.
  - intros Hi. apply list_elem_of_lookup. exists (i - 5)%nat.
    rewrite lookup_drop. now replace (5 + (i - 5))%nat with i by lia.
Qed.

(** A row of 19 cells with floats in the money columns goes to the sheet
    as it is. *)
Lemma clean_row_floats cells : forall i,
  (i + length cells = 19)%nat ->
  (forall j v, (5 <= i + j)%nat -> cells !! j = Some v ->
     exists x, v = CFloat x) ->
  clean_row i cells = Some cells.
Proof.
  induction cells as [|v cells IH]; intros i Hlen Hfl; [reflexivity|].
  cbn [length] in Hlen. cbn [clean_row].
  destruct (lookup_lt_is_Some_2 HEADERS i) as [col Hcol].
  { change (length HEADERS) with 19%nat. lia. }
  rewrite Hcol. cbn [mbind option_bind].
  assert (Hv : clean_cell col v = Some v).
  { unfold clean_cell. case_bool_decide as Hm; [|reflexivity].
    apply (money_column _ _ Hcol) in Hm.
    destruct (Hfl 0%nat v) as [x ->]; [lia|reflexivity|reflexivity]. }
  rewrite Hv. cbn [option_bind]. rewrite IH; [reflexivity|lia|].
  intros j w Hj Hw. apply (Hfl (S j) w); [lia|exact Hw].
Qed.

Section NewRow.
Variable df : list Row.
Variables now user_id bank desc : string.
Variables credit debit : float.

(** The balances that a new row carries, its cells and the record they
    decode to. *)
Variable new_balances : gmap string float.
Hypothesis Hkeys :
  forall k, new_balances !! k
            = if bool_decide (k ∈ BANK_LIST)
              then Some (new_balances !!! k) else None.

Variable new_cells : list cell.
Hypothesis Hcells :
  new_cells = row_cells (Z.of_nat (length df) + 1) now user_id bank desc
                        credit debit new_balances.

Variable item : Row.
Hypothesis Hitem :
  item = {| No := Z.of_nat (length df) + 1; Tanggal := CStr now;
            User_ID := CStr user_id; Bank_EWallet := CStr bank;
            Keterangan := CStr desc; Credit := credit; Debit := debit;
            Saldo_Akhir := py_sum (values new_balances);
            balances := new_balances |}.

Hypothesis Hwhole : forall x, CFloat x ∈ new_cells -> whole x.

Lemma new_cells_account b :
  b ∈ BANK_LIST ->
  get_cell (header_index header_row) new_cells b
  = CFloat (new_balances !!! b) /\ whole (new_balances !!! b).
Proof.
  intros Hb. destruct (BANK_LIST_place b Hb) as (k & Hk & Hh).
  assert (Hc : new_cells !! (8 + k)%nat = Some (CFloat (new_balances !!! b))).
  { rewrite Hcells. unfold row_cells.
    rewrite lookup_app_r by (cbn; lia). cbn [length].
    replace (8 + k - 8)%nat with k by lia.
    now rewrite list_lookup_fmap, Hk. }
  split.
  - now rewrite (canonical_get_cell _ _ _ Hh), Hc.
  - apply Hwhole. apply list_elem_of_lookup. eauto.
Qed.

Lemma new_cells_whole :
  whole credit /\ whole debit /\ whole (py_sum (values new_balances)).
Proof.
  repeat split; apply Hwhole; rewrite Hcells; unfold row_cells;
    apply elem_of_app; left; repeat first [ left | right ].
Qed.

(** The cells go to the sheet as they are. *)
Lemma new_cells_clean : clean_row 0 new_cells = Some new_cells.
Proof.
  apply clean_row_floats.
  - rewrite Hcells. unfold row_cells. rewrite length_app, length_map.
    reflexivity.
  - intros j v Hj Hv. rewrite Hcells in Hv. unfold row_cells in Hv.
    do 5 (destruct j as [|j]; [lia|]).
    do 3 (destruct j as [|j];
          [cbn [app lookup list_lookup] in Hv; injection Hv as <-; eauto|]).
    cbn [app lookup list_lookup] in Hv.
    apply list_lookup_fmap_Some in Hv as (b & -> & _). eauto.
Qed.

(** The cells decode to [item]. *)
Lemma new_cells_decode :
  decode_row (header_index header_row) new_cells = Ok item.
Proof.
  destruct new_cells_whole as (Hc & Hd & Ht).
  destruct (parse_accounts_floats (header_index header_row) new_cells
              (fun b => new_balances !!! b) BANK_LIST new_cells_account)
    as (m & Hm & Hk).
  assert (Em : m = new_balances).
  { apply map_eq. intros k. now rewrite Hk, Hkeys. }
  subst m. unfold decode_row.
  rewrite (canonical_get_cell new_cells "Credit" 5 eq_refl).
  rewrite (canonical_get_cell new_cells "Debit" 6 eq_refl).
  rewrite (canonical_get_cell new_cells "Saldo Akhir" 7 eq_refl).
  rewrite (canonical_get_cell new_cells "No." 0 eq_refl).
  rewrite (canonical_get_cell new_cells "Tanggal" 1 eq_refl).
  rewrite (canonical_get_cell new_cells "User ID" 2 eq_refl).
  rewrite (canonical_get_cell new_cells "Bank/EWallet" 3 eq_refl).
  rewrite (canonical_get_cell new_cells "Keterangan" 4 eq_refl).
  rewrite Hm, Hcells. unfold row_cells.
  cbn [app lookup list_lookup default from_option id].
  change (parse_amount_idr (CFloat credit)) with (round_idr credit).
  change (parse_amount_idr (CFloat debit)) with (round_idr debit).
  change (parse_amount_idr (CFloat (py_sum (values new_balances))))
    with (round_idr (py_sum (values new_balances))).
  unfold whole in Hc, Hd, Ht.
  rewrite Hc, rbind_ok, Hd, rbind_ok, Ht, !rbind_ok, Hitem. reflexivity.
Qed.

Hypothesis Hdf : text_columns df.

(** When the balances that the recomputation reaches with [item] are
    those that the row carries, the record is shown as it was written. *)
Lemma new_item_recomputed :
  (forall b, b ∈ BANK_LIST ->
     update_running (running_after df) item !!! b = new_balances !!! b) ->
  recompute (df ++ [item]) = recompute df ++ [item].
Proof.
  rewrite recompute_snoc; [|exact Hdf|by rewrite Hitem].
  generalize (update_running (running_after df) item). intros running Hrun.
  f_equal. f_equal. rewrite Hitem. apply Row_eq;
    cbn [No Tanggal User_ID Bank_EWallet Keterangan Credit Debit Saldo_Akhir
         balances set_no select_headers emit];
    try reflexivity.
  - unfold values. f_equal.
    apply map_ext_in. intros b Hb. apply Hrun. now apply list_elem_of_In.
  - apply map_eq. intros k. rewrite Hkeys.
    case_bool_decide as Hk.
    + apply map_lookup_filter_Some. split; [|exact Hk].
      rewrite (lookup_fold_insert (fun b => running !!! b)).
      rewrite bool_decide_eq_true_2 by exact Hk.
      now rewrite Hrun.
    + apply map_lookup_filter_None. right. intros x _. exact Hk.
Qed.
End NewRow.

Lemma with_transaction_keys df per_bank bank credit debit :
  (forall k, per_bank !! k
             = if bool_decide (k ∈ BANK_LIST)
               then Some (running_after df !!! k) else None) ->
  forall k, with_transaction per_bank bank credit debit !! k
            = if bool_decide (k ∈ BANK_LIST)
              then Some (with_transaction per_bank bank credit debit !!! k)
              else None.
Proof.
  intros Hpb k. rewrite lookup_total_alt. unfold with_transaction.
  case_bool_decide as Hb.
  - destruct (decide (bank = k)) as [->|Hne].
    + rewrite lookup_insert_eq, bool_decide_eq_true_2 by exact Hb.
      reflexivity.
    + rewrite lookup_insert_ne, Hpb by exact Hne.
      now case_bool_decide.
  - rewrite Hpb. now case_bool_decide.
Qed.

(** The balances that the recomputation reaches with the row of a
    transaction are those that the writer computed. *)
Lemma with_transaction_running df per_bank now user_id bank desc credit debit
    saldo b :
  strip bank = bank ->
  (forall k, per_bank !! k
             = if bool_decide (k ∈ BANK_LIST)
               then Some (running_after df !!! k) else None) ->
  whole credit -> whole debit ->
  (forall k, k ∈ BANK_LIST ->
     whole (with_transaction per_bank bank credit debit !!! k)) ->
  b ∈ BANK_LIST ->
  update_running (running_after df)
    {| No := Z.of_nat (length df) + 1; Tanggal := CStr now;
       User_ID := CStr user_id; Bank_EWallet := CStr bank;
       Keterangan := CStr desc; Credit := credit; Debit := debit;
       Saldo_Akhir := saldo;
       balances := with_transaction per_bank bank credit debit |} !!! b
  = with_transaction per_bank bank credit debit !!! b.
Proof.
  intros Hbank Hper Hc Hd Hw Hb.
  assert (Hpb : forall k, k ∈ BANK_LIST ->
                  per_bank !!! k = running_after df !!! k).
  { intros k Hk. rewrite lookup_total_alt, Hper.
    now rewrite bool_decide_eq_true_2. }
  unfold update_running.
  cbn [Credit Debit balances]. rewrite (whole_or_zero _ Hc), (whole_or_zero _ Hd).
  destruct (is_system_init _).
  - rewrite (lookup_total_fold_insert
               (fun b => notna_or_zero
                           (with_transaction per_bank bank credit debit !! b)))
      by exact Hb.
    rewrite (with_transaction_keys df _ _ _ _ Hper),
      bool_decide_eq_true_2 by exact Hb.
    apply whole_notna. now apply Hw.
  - unfold known_bank. cbn [Bank_EWallet str_strip].
    rewrite Hbank. unfold with_transaction.
    case_bool_decide as Hk.
    + rewrite (Hpb bank Hk).
      destruct (decide (bank = b)) as [->|Hne].
      * now rewrite !lookup_total_insert_eq.
      * rewrite !lookup_total_insert_ne by exact Hne. symmetry. now apply Hpb.
    + symmetry. now apply Hpb.
Qed.

(** What the program writes is what it reads back. When a transaction is
    saved on top of a cache that is the snapshot of the rows of the sheet,
    these being none or having a row of texts (as the rows that the program
    writes are), the account as the writer read it from its combo box
    (without blanks around it), and every amount of the new row a whole
    number: the row goes to the sheet as it was made, it decodes under the
    header HEADERS to a record, and the snapshot of the rows with that
    record added is the cache with that record added, its number, its
    'Saldo Akhir' and its account balances being those that the writer
    computed. *)
Theorem transaction_row_recomputed (df : list Row)
    (now user_id bank desc : string) (credit debit : float)
    (row : list cell) :
  text_columns df ->
  strip bank = bank ->
  transaction_row (recompute df) now user_id bank desc credit debit = Ok row ->
  (forall x, CFloat x ∈ row -> whole x) ->
  clean_row 0 row = Some row /\
  exists item,
    decode_row (header_index header_row) row = Ok item /\
    recompute (df ++ [item]) = recompute df ++ [item].
Proof.
  intros Hdf Hbank Hrow Hwhole.
  destruct (cache_last df) as (per_bank & Hpb & Hk & Hno).
  unfold transaction_row in Hrow. rewrite Hpb, rbind_ok, Hno in Hrow.
  injection Hrow as Hrow. symmetry in Hrow.
  pose proof (with_transaction_keys df per_bank bank credit debit Hk) as Hkeys.
  split.
  - exact (new_cells_clean df now user_id bank desc credit debit _ _ Hrow).
  - eexists. split.
    + exact (new_cells_decode df now user_id bank desc credit debit _ Hkeys
               _ Hrow _ eq_refl Hwhole).
    + apply (new_item_recomputed df now user_id bank desc credit debit _
               Hkeys _ eq_refl Hdf).
      destruct (new_cells_whole df now user_id bank desc credit debit _ _
                  Hrow Hwhole) as (Hc & Hd & _).
      intros b Hb. apply (with_transaction_running df); try assumption.
      intros k Hk'.
      now apply (new_cells_account df now user_id bank desc credit debit _
                   _ Hrow Hwhole).
Qed.

Lemma demo_decoded_text : text_columns demo_decoded.
Proof. right. vm_compute. apply Exists_cons_hd. reflexivity. Qed.

Lemma transaction_row_recomputed_witness :
  exists row,
    transaction_row (recompute demo_decoded) "02/01/2024 09:30:00" "ani"
                    "BCA" "belanja" fzero (fint 300) = Ok row /\
    clean_row 0 row = Some row /\
    exists item,
      decode_row (header_index header_row) row = Ok item /\
      recompute (demo_decoded ++ [item]) = recompute demo_decoded ++ [item].
Proof.
  destruct (transaction_row (recompute demo_decoded) "02/01/2024 09:30:00"
              "ani" "BCA" "belanja" fzero (fint 300)) as [row|e] eqn:E;
    [|vm_compute in E; discriminate E].
  exists row. split; [reflexivity|].
  apply (transaction_row_recomputed demo_decoded "02/01/2024 09:30:00" "ani"
           "BCA" "belanja" fzero (fint 300) row demo_decoded_text eq_refl E).
  vm_compute in E. injection E as <-. intros x Hx.
  repeat (apply elem_of_cons in Hx as [Hx|Hx];
          [try discriminate Hx; injection Hx as ->; vm_compute; reflexivity|]).
  now apply elem_of_nil in Hx.
Defined.

(** ** Appending a row *)

Lemma clean_row_shape cells : forall i clean,
  clean_row i cells = Some clean ->
  length clean = length cells /\
  (length cells = 0 \/ i + length cells <= 19)%nat /\
  (forall j v, (i + j < 5)%nat -> cells !! j = Some v -> clean !! j = Some v) /\
  (forall j c, (5 <= i + j)%nat -> clean !! j = Some c -> exists x, c = CFloat x).
Proof.
  induction cells as [|v cells IH]; intros i clean H.
  - injection H as <-. split; [reflexivity|]. split; [now left|].
    split; intros j c _ Hc; discriminate Hc.
  - cbn [clean_row] in H.
    destruct (HEADERS !! i) as [col|] eqn:Hcol; [|discriminate H].
    cbn [mbind option_bind] in H.
    destruct (clean_cell col v) as [c|] eqn:Hc; [|discriminate H].
    cbn [option_bind] in H.
    destruct (clean_row (S i) cells) as [cs|] eqn:Hcs; [|discriminate H].
    injection H as <-.
    destruct (IH _ _ Hcs) as (Hlen & Hbound & Hkeep & Hfl).
    pose proof (money_column _ _ Hcol) as Hmoney.
    assert (i < 19)%nat.
    { apply lookup_lt_Some in Hcol. exact Hcol. }
    cbn [length]. split; [lia|]. split; [lia|]. split.
    + intros j w Hj Hw. destruct j as [|j].
      * injection Hw as <-. unfold clean_cell in Hc.
        rewrite bool_decide_eq_false_2 in Hc by (rewrite Hmoney; lia).
        now injection Hc as <-.
      * apply (Hkeep j w); [lia|exact Hw].
    + intros j w Hj Hw. destruct j as [|j].
      * injection Hw as <-. unfold clean_cell in Hc.
        rewrite bool_decide_eq_true_2 in Hc by (rewrite Hmoney; lia).
        destruct (float_of_cell v) as [x|].
        -- injection Hc as <-. eauto.
        -- destruct (parse_amount_idr _) as [x|e]; [|discriminate Hc].
           injection Hc as <-. eauto.
      * apply (Hfl j w); [lia|exact Hw].
Qed.

(** [append_data] adds at most one row, and only a row that fits the
    columns. A row of more than 19 cells is refused and the sheet is left
    as it is, as it is whenever the call returns False. When the call
    returns True the sheet has one row more: it has as many cells as the
    row given, its first five cells are those given, and every cell from
    the column 'Credit' on is a float. *)
Theorem append_data_row (row_list : list cell) (append_row : result unit)
    (sheet : grid) :
  ((19 < length row_list)%nat ->
   append_data row_list append_row sheet = (sheet, false)) /\
  (forall sheet',
     append_data row_list append_row sheet = (sheet', false) ->
     sheet' = sheet) /\
  (forall sheet',
     append_data row_list append_row sheet = (sheet', true) ->
     exists row_clean,
       sheet' = sheet ++ [row_clean] /\
       length row_clean = length row_list /\
       (forall j v, (j < 5)%nat -> row_list !! j = Some v ->
          row_clean !! j = Some v) /\
       (forall j c, (5 <= j)%nat -> row_clean !! j = Some c ->
          exists x, c = CFloat x)).
Proof.
  unfold append_data.
  destruct (clean_row 0 row_list) as [clean|] eqn:Hc.
  - destruct (clean_row_shape _ _ _ Hc) as (Hlen & Hbound & Hkeep & Hfl).
    split; [intros H; cbn in Hbound; lia|].
    destruct append_row as [[]|e]; split; intros sheet' H;
      try discriminate H.
    + injection H as <-. exists clean. split; [reflexivity|].
      split; [exact Hlen|]. split; [exact Hkeep|exact Hfl].
    + now injection H as <-.
  - split; [reflexivity|]. split; intros sheet' H; [|discriminate H].
    now injection H as <-.
Qed.

Lemma append_data_row_witness :
  append_data (repeat (CInt 0) 20) (Ok tt) demo_sheet = (demo_sheet, false) /\
  exists row_clean,
    (append_data [CInt 2; CStr "02/01/2024"; CStr "ani"; CStr "BCA";
                  CStr "belanja"; CStr "1e3"; CNone; CInt 7]
                 (Ok tt) demo_sheet).1
    = demo_sheet ++ [row_clean] /\
    length row_clean = 8%nat.
Proof.
  split.
  - apply (proj1 (append_data_row (repeat (CInt 0) 20) (Ok tt) demo_sheet)).
    cbn. lia.
  - destruct (proj2 (proj2 (append_data_row
        [CInt 2; CStr "02/01/2024"; CStr "ani"; CStr "BCA"; CStr "belanja";
         CStr "1e3"; CNone; CInt 7] (Ok tt) demo_sheet))
        (demo_sheet ++ [[CInt 2; CStr "02/01/2024"; CStr "ani"; CStr "BCA";
                         CStr "belanja"; CFloat (fint 1000); CFloat fzero;
                         CFloat (fint 7)]]))
      as (row_clean & E & Hlen & _).
    + vm_compute. reflexivity.
    + exists row_clean. split; [|exact Hlen].
      apply app_inj_tail in E as [_ <-]. vm_compute. reflexivity.
Defined.

(** ** Setting the initial balances *)

Lemma entered_balances_lookup entries banks m :
  entered_balances entries banks = Ok m ->
  (forall k, m !! k = if bool_decide (k ∈ banks) then Some (m !!! k) else None)
  /\ forall b, b ∈ banks -> parse_amount_idr (CStr (entries b)) = Ok (m !!! b).
Proof.
  revert m. induction banks as [|b banks IH]; intros m H.
  - injection H as <-. split.
    + intros k. now rewrite lookup_empty.
    + intros b Hb. now apply elem_of_nil in Hb.
  - cbn [entered_balances] in H.
    destruct (parse_amount_idr (CStr (entries b))) as [x|e] eqn:Hx;
      [|discriminate H].
    rewrite rbind_ok in H.
    destruct (entered_balances entries banks) as [m'|e] eqn:Hm;
      [|discriminate H].
    rewrite rbind_ok in H. injection H as <-.
    destruct (IH m' eq_refl) as [Hk Hp]. split.
    + intros k. rewrite lookup_total_alt.
      destruct (decide (k = b)) as [->|Hne].
      * rewrite lookup_insert_eq, bool_decide_eq_true_2; [reflexivity|left].
      * rewrite lookup_insert_ne, Hk by congruence.
        rewrite lookup_total_alt.
        destruct (decide (k ∈ banks)) as [Hin|Hout].
        -- rewrite !bool_decide_eq_true_2; [reflexivity|now right|exact Hin].
        -- rewrite !bool_decide_eq_false_2; [reflexivity| |exact Hout].
           rewrite elem_of_cons. tauto.
    + intros b' Hb'. destruct (decide (b' = b)) as [->|Hne].
      * now rewrite lookup_total_insert_eq.
      * rewrite lookup_total_insert_ne by congruence.
        apply Hp. apply elem_of_cons in Hb' as [?|?]; [congruence|assumption].
Qed.

Lemma clean_row_cons i col v c cells :
  HEADERS !! i = Some col -> clean_cell col v = Some c ->
  clean_row i (v :: cells) = option_map (cons c) (clean_row (S i) cells).
Proof.
  intros Hcol Hc. cbn [clean_row]. rewrite Hcol. cbn [mbind option_bind].
  rewrite Hc. cbn [option_bind]. now destruct (clean_row (S i) cells).
Qed.

Lemma clean_cell_plain i col v :
  HEADERS !! i = Some col -> (i < 5)%nat -> clean_cell col v = Some v.
Proof.
  intros Hcol Hi. unfold clean_cell.
  rewrite bool_decide_eq_false_2; [reflexivity|].
  rewrite (money_column _ _ Hcol). lia.
Qed.

Lemma clean_cell_money i col v x :
  HEADERS !! i = Some col -> (5 <= i)%nat -> float_of_cell v = Some x ->
  clean_cell col v = Some (CFloat x).
Proof.
  intros Hcol Hi Hx. unfold clean_cell.
  rewrite bool_decide_eq_true_2, Hx; [reflexivity|].
  rewrite (money_column _ _ Hcol). lia.
Qed.

Lemma is_system_init_literal r :
  User_ID r = CStr "SYSTEM" -> Bank_EWallet r = CStr "SALDO AWAL" ->
  is_system_init r = true.
Proof. intros Hu Hb. unfold is_system_init. now rewrite Hu, Hb. Qed.

(** The balances typed in become the balances shown. When the row of
    initial balances is made on top of a cache that is the snapshot of the
    rows of the sheet, these being none or having a row of texts (as the
    rows that the program writes are), every amount of the row being a
    whole number:
    [append_data] turns its two zeros into floats and changes nothing else,
    the row decodes under the header HEADERS to a record, the snapshot of
    the rows with that record added is the cache with that record added,
    and the account balances of that record are the amounts that
    [parse_amount_idr] read in the entries. *)
Theorem initial_balance_row_recomputed (df : list Row) (now : string)
    (entries : string -> string) (row : list cell) :
  text_columns df ->
  initial_balance_row (recompute df) now entries = Ok row ->
  (forall x, CFloat x ∈ row -> whole x) ->
  exists row_clean item,
    clean_row 0 row = Some row_clean /\
    decode_row (header_index header_row) row_clean = Ok item /\
    recompute (df ++ [item]) = recompute df ++ [item] /\
    forall b, b ∈ BANK_LIST ->
      parse_amount_idr (CStr (entries b)) = Ok (balances item !!! b).
Proof.
  intros Hdf Hrow Hwhole. unfold initial_balance_row in Hrow.
  destruct (entered_balances entries BANK_LIST) as [per_bank|e] eqn:He;
    [|discriminate Hrow].
  rewrite rbind_ok in Hrow.
  destruct (cache_last df) as (_ & _ & _ & Hno). rewrite Hno in Hrow.
  assert (Hrow' : row
                  = ([CInt (Z.of_nat (length df) + 1); CStr now; CStr "SYSTEM";
                      CStr "SALDO AWAL"; CStr "Penyesuaian saldo awal";
                      CInt 0; CInt 0; CFloat (py_sum (values per_bank))]
                     ++ map (fun b => CFloat (per_bank !!! b)) BANK_LIST))
    by congruence.
  clear Hrow. rename Hrow' into Hrow.
  assert (Hzero : float_of_cell (CInt 0) = Some fzero)
    by (vm_compute; reflexivity).
  destruct (entered_balances_lookup _ _ _ He) as [Hkeys Hparse].
  set (cells := row_cells (Z.of_nat (length df) + 1) now "SYSTEM"
                  "SALDO AWAL" "Penyesuaian saldo awal" fzero fzero per_bank).
  assert (Hclean : clean_row 0 row = Some cells).
  { rewrite Hrow. unfold cells, row_cells. cbn [app].
    rewrite (clean_row_cons 0 "No." _ _ _ eq_refl
               (clean_cell_plain 0 _ _ eq_refl ltac:(lia))).
    rewrite (clean_row_cons 1 "Tanggal" _ _ _ eq_refl
               (clean_cell_plain 1 _ _ eq_refl ltac:(lia))).
    rewrite (clean_row_cons 2 "User ID" _ _ _ eq_refl
               (clean_cell_plain 2 _ _ eq_refl ltac:(lia))).
    rewrite (clean_row_cons 3 "Bank/EWallet" _ _ _ eq_refl
               (clean_cell_plain 3 _ _ eq_refl ltac:(lia))).
    rewrite (clean_row_cons 4 "Keterangan" _ _ _ eq_refl
               (clean_cell_plain 4 _ _ eq_refl ltac:(lia))).
    rewrite (clean_row_cons 5 "Credit" (CInt 0) _ _ eq_refl
               (clean_cell_money 5 _ _ fzero eq_refl ltac:(lia) Hzero)).
    rewrite (clean_row_cons 6 "Debit" (CInt 0) _ _ eq_refl
               (clean_cell_money 6 _ _ fzero eq_refl ltac:(lia) Hzero)).
    rewrite clean_row_floats; [reflexivity| |].
    - cbn [length]. now rewrite length_map.
    - intros [|j] v _ Hv.
      + injection Hv as <-. eauto.
      + cbn [lookup list_lookup] in Hv.
        apply list_lookup_fmap_Some in Hv as (b & -> & _). eauto. }
  assert (Hw : forall x, CFloat x ∈ cells -> whole x).
  { intros x Hx. unfold cells, row_cells in Hx.
    apply elem_of_app in Hx as [Hx|Hx].
    - repeat (apply elem_of_cons in Hx as [Hx|Hx];
              [try discriminate Hx|]).
      + injection Hx as ->. vm_compute. reflexivity.
      + injection Hx as ->. vm_compute. reflexivity.
      + apply Hwhole. rewrite Hrow. apply elem_of_app. left.
        rewrite Hx. repeat first [ left | right ].
      + now apply elem_of_nil in Hx.
    - apply Hwhole. rewrite Hrow. apply elem_of_app. now right. }
  exists cells. eexists. split; [exact Hclean|]. split; [|split].
  - exact (new_cells_decode df now "SYSTEM" "SALDO AWAL"
             "Penyesuaian saldo awal" fzero fzero per_bank Hkeys cells eq_refl
             _ eq_refl Hw).
  - apply (new_item_recomputed df now "SYSTEM" "SALDO AWAL"
             "Penyesuaian saldo awal" fzero fzero per_bank Hkeys _ eq_refl
             Hdf).
    intros b Hb. unfold update_running.
    rewrite is_system_init_literal by reflexivity. cbn [balances].
    rewrite (lookup_total_fold_insert
               (fun b => notna_or_zero (per_bank !! b))) by exact Hb.
    rewrite Hkeys, bool_decide_eq_true_2 by exact Hb.
    apply whole_notna.
    now apply (new_cells_account df now "SYSTEM" "SALDO AWAL"
                 "Penyesuaian saldo awal" fzero fzero per_bank cells eq_refl Hw).
  - intros b Hb. cbn [balances]. now apply Hparse.
Qed.

Lemma initial_balance_row_recomputed_witness :
  exists row,
    initial_balance_row (recompute demo_decoded) "02/01/2024 09:30:00"
                        demo_entries = Ok row /\
    exists row_clean item,
      clean_row 0 row = Some row_clean /\
      decode_row (header_index header_row) row_clean = Ok item /\
      recompute (demo_decoded ++ [item]) = recompute demo_decoded ++ [item] /\
      forall b, b ∈ BANK_LIST ->
        parse_amount_idr (CStr (demo_entries b)) = Ok (balances item !!! b).
Proof.
  destruct (initial_balance_row (recompute demo_decoded)
              "02/01/2024 09:30:00" demo_entries) as [row|e] eqn:E;
    [|vm_compute in E; discriminate E].
  exists row. split; [reflexivity|].
  apply (initial_balance_row_recomputed demo_decoded "02/01/2024 09:30:00"
           demo_entries row demo_decoded_text E).
  vm_compute in E. injection E as <-. intros x Hx.
  repeat (apply elem_of_cons in Hx as [Hx|Hx];
          [try discriminate Hx; injection Hx as ->; vm_compute; reflexivity|]).
  now apply elem_of_nil in Hx.
Defined.

(** ** A transfer between two accounts *)

Lemma bank_listed b :
  b ∈ BANK_LIST ->
  strip b = b /\ String.eqb (upper b) "SALDO AWAL" = false.
Proof.
  intros Hb. unfold BANK_LIST in Hb.
  repeat (apply elem_of_cons in Hb as [->|Hb];
          [split; vm_compute; reflexivity|]).
  now apply elem_of_nil in Hb.
Qed.

Lemma running_after_snoc df r :
  running_after (df ++ [r]) = update_running (running_after df) r.
Proof. unfold running_after. now rewrite fold_left_app. Qed.

(** The effect on the running balances of a row of [SYSTEM] on a listed
    account. *)
Lemma update_running_listed running no now bank desc credit debit saldo m :
  bank ∈ BANK_LIST -> whole credit -> whole debit ->
  update_running running
    {| No := no; Tanggal := CStr now; User_ID := CStr "SYSTEM";
       Bank_EWallet := CStr bank; Keterangan := CStr desc;
       Credit := credit; Debit := debit; Saldo_Akhir := saldo;
       balances := m |}
  = <[bank := fadd (running !!! bank) (fsub credit debit)]> running.
Proof.
  intros Hb Hc Hd. destruct (bank_listed bank Hb) as [Hs Hu].
  unfold update_running, is_system_init, known_bank.
  cbn [Credit Debit User_ID Bank_EWallet str_strip].
  rewrite Hs, Hu, andb_false_r, bool_decide_eq_true_2 by exact Hb.
  now rewrite (whole_or_zero _ Hc), (whole_or_zero _ Hd).
Qed.

(** A transfer is written from a stale cache and shown right. When the two
    rows of a transfer of [a] from account [s] to another account [d] are
    made on top of a cache that is the snapshot of the rows of the sheet,
    these being none or having a row of texts (as the rows that the program
    writes are), every amount of the two rows a whole number: both rows
    decode under the
    header HEADERS, they carry the same number, and the second row still
    carries for [s] the balance of the cache, not reduced by [a]; the
    snapshot of the rows with the two records added is the cache, the
    first record and a record with the next number, in which [s] is
    reduced by [a] and [d] is increased by [a]. *)
Theorem transfer_rows_recomputed (df : list Row)
    (now1 now2 s d note : string) (a : float) (row1 row2 : list cell) :
  text_columns df ->
  s ∈ BANK_LIST -> d ∈ BANK_LIST -> s <> d ->
  transfer_rows (recompute df) now1 now2 s d note a = Ok (row1, row2) ->
  (forall x, CFloat x ∈ row1 ++ row2 -> whole x) ->
  exists item1 item2 shown,
    decode_row (header_index header_row) row1 = Ok item1 /\
    decode_row (header_index header_row) row2 = Ok item2 /\
    No item2 = No item1 /\
    balances item2 !!! s = running_after df !!! s /\
    recompute (df ++ [item1; item2]) = recompute df ++ [item1; shown] /\
    No shown = No item2 + 1 /\
    balances shown !!! s = fadd (running_after df !!! s) (fsub fzero a) /\
    balances shown !!! d = fadd (running_after df !!! d) (fsub a fzero).
Proof.
  intros Hdf Hs Hd Hsd Hrows Hwhole.
  destruct (cache_last df) as (per_bank & Hpb & Hk & Hno).
  unfold transfer_rows, transaction_row in Hrows.
  rewrite Hpb, !rbind_ok, Hno in Hrows.
  assert (Hrow1 : row1 = row_cells (Z.of_nat (length df) + 1) now1 "SYSTEM" s
                           note fzero a (with_transaction per_bank s fzero a))
    by congruence.
  assert (Hrow2 : row2 = row_cells (Z.of_nat (length df) + 1) now2 "SYSTEM" d
                           note a fzero (with_transaction per_bank d a fzero))
    by congruence.
  clear Hrows.
  assert (Hw1 : forall x, CFloat x ∈ row1 -> whole x).
  { intros x Hx. apply Hwhole, elem_of_app. now left. }
  assert (Hw2 : forall x, CFloat x ∈ row2 -> whole x).
  { intros x Hx. apply Hwhole, elem_of_app. now right. }
  pose proof (with_transaction_keys df per_bank s fzero a Hk) as Hkeys1.
  pose proof (with_transaction_keys df per_bank d a fzero Hk) as Hkeys2.
  destruct (new_cells_whole df now1 "SYSTEM" s note fzero a _ _ Hrow1 Hw1)
    as (Hz & Ha & _).
  assert (Hpbk : forall k, k ∈ BANK_LIST ->
                   per_bank !!! k = running_after df !!! k).
  { intros k Hk'. rewrite lookup_total_alt, Hk.
    now rewrite bool_decide_eq_true_2. }
  set (item1 := {| No := Z.of_nat (length df) + 1; Tanggal := CStr now1;
                   User_ID := CStr "SYSTEM"; Bank_EWallet := CStr s;
                   Keterangan := CStr note; Credit := fzero; Debit := a;
                   Saldo_Akhir :=
                     py_sum (values (with_transaction per_bank s fzero a));
                   balances := with_transaction per_bank s fzero a |}).
  set (item2 := {| No := Z.of_nat (length df) + 1; Tanggal := CStr now2;
                   User_ID := CStr "SYSTEM"; Bank_EWallet := CStr d;
                   Keterangan := CStr note; Credit := a; Debit := fzero;
                   Saldo_Akhir :=
                     py_sum (values (with_transaction per_bank d a fzero));
                   balances := with_transaction per_bank d a fzero |}).
  exists item1, item2. eexists.
  split.
  { exact (new_cells_decode df now1 "SYSTEM" s note fzero a _ Hkeys1
             _ Hrow1 _ eq_refl Hw1). }
  split.
  { exact (new_cells_decode df now2 "SYSTEM" d note a fzero _ Hkeys2
             _ Hrow2 _ eq_refl Hw2). }
  split; [reflexivity|].
  split.
  { cbn [item2 balances]. unfold with_transaction.
    rewrite bool_decide_eq_true_2 by exact Hd.
    rewrite lookup_total_insert_ne by congruence. now apply Hpbk. }
  assert (H1 : recompute (df ++ [item1]) = recompute df ++ [item1]).
  { apply (new_item_recomputed df now1 "SYSTEM" s note fzero a _ Hkeys1
             _ eq_refl Hdf).
    intros b Hb. unfold item1.
    rewrite (update_running_listed _ _ _ _ _ _ _ _ _ Hs Hz Ha).
    unfold with_transaction. rewrite bool_decide_eq_true_2 by exact Hs.
    rewrite (Hpbk s Hs). destruct (decide (s = b)) as [->|Hne].
    - now rewrite !lookup_total_insert_eq.
    - rewrite !lookup_total_insert_ne by exact Hne. symmetry.
      now apply Hpbk. }
  assert (Hrun : update_running (running_after (df ++ [item1])) item2
                 = <[d := fadd (running_after df !!! d) (fsub a fzero)]>
                     (<[s := fadd (running_after df !!! s) (fsub fzero a)]>
                        (running_after df))).
  { rewrite running_after_snoc. unfold item1, item2.
    rewrite (update_running_listed _ _ _ _ _ _ _ _ _ Hs Hz Ha).
    rewrite (update_running_listed _ _ _ _ _ _ _ _ _ Hd Ha Hz).
    now rewrite lookup_total_insert_ne by exact Hsd. }
  split.
  { change (df ++ [item1; item2]) with (df ++ [item1] ++ [item2]).
    rewrite app_assoc, recompute_snoc, H1, <- app_assoc;
      [reflexivity | by apply text_columns_snoc | reflexivity]. }
  split.
  { cbn [No set_no item2]. rewrite length_app. cbn [length]. lia. }
  split.
  - rewrite lookup_total_alt, snapshot_balances.
    rewrite bool_decide_eq_true_2 by exact Hs. cbn [from_option default id].
    rewrite Hrun, lookup_total_insert_ne by congruence.
    now rewrite lookup_total_insert_eq.
  - rewrite lookup_total_alt, snapshot_balances.
    rewrite bool_decide_eq_true_2 by exact Hd. cbn [from_option default id].
    now rewrite Hrun, lookup_total_insert_eq.
Qed.

Lemma transfer_rows_recomputed_witness :
  exists row1 row2,
    transfer_rows (recompute demo_decoded) "02/01/2024 09:30:00"
                  "02/01/2024 09:30:01" "BCA" "OVO" "pindah" (fint 300)
    = Ok (row1, row2) /\
    exists item1 item2 shown,
      decode_row (header_index header_row) row1 = Ok item1 /\
      decode_row (header_index header_row) row2 = Ok item2 /\
      No item2 = No item1 /\
      balances item2 !!! "BCA" = running_after demo_decoded !!! "BCA" /\
      recompute (demo_decoded ++ [item1; item2])
      = recompute demo_decoded ++ [item1; shown] /\
      No shown = No item2 + 1 /\
      balances shown !!! "BCA"
      = fadd (running_after demo_decoded !!! "BCA") (fsub fzero (fint 300)) /\
      balances shown !!! "OVO"
      = fadd (running_after demo_decoded !!! "OVO") (fsub (fint 300) fzero).
Proof.
  destruct (transfer_rows (recompute demo_decoded) "02/01/2024 09:30:00"
              "02/01/2024 09:30:01" "BCA" "OVO" "pindah" (fint 300))
    as [[row1 row2]|e] eqn:E; [|vm_compute in E; discriminate E].
  exists row1, row2. split; [reflexivity|].
  apply (transfer_rows_recomputed demo_decoded "02/01/2024 09:30:00"
           "02/01/2024 09:30:01" "BCA" "OVO" "pindah" (fint 300) row1 row2);
    [exact demo_decoded_text|compute_done|compute_done|discriminate|exact E|].
  vm_compute in E. injection E as <- <-. intros x Hx.
  cbn [app] in Hx.
  repeat (apply elem_of_cons in Hx as [Hx|Hx];
          [try discriminate Hx; injection Hx as ->; vm_compute; reflexivity|]).
  now apply elem_of_nil in Hx.
Defined.

(** ** Backups *)

Lemma ascii_compare_cases a b :
  (Ascii.compare a b = Eq /\ a = b) \/
  (Ascii.compare a b = Lt /\ (N_of_ascii a < N_of_ascii b)%N) \/
  (Ascii.compare a b = Gt /\ (N_of_ascii b < N_of_ascii a)%N).
Proof.
  unfold Ascii.compare.
  destruct (N.compare_spec (N_of_ascii a) (N_of_ascii b)) as [E|L|G].
  - left. split; [reflexivity|].
    rewrite <- (ascii_N_embedding a), <- (ascii_N_embedding b). now rewrite E.
  - right. left. now split.
  - right. right. now split.
Qed.

Lemma leb_trans s : forall t u,
  String.leb s t = true -> String.leb t u = true -> String.leb s u = true.
Proof.
  unfold String.leb.
  induction s as [|a s IH]; intros [|b t] [|c u]; cbn; try congruence.
  destruct (ascii_compare_cases a b) as [[Eab Hab]|[[Eab Hab]|[Eab Hab]]];
    rewrite Eab; try congruence;
    destruct (ascii_compare_cases b c) as [[Ebc Hbc]|[[Ebc Hbc]|[Ebc Hbc]]];
    rewrite Ebc; try congruence;
    destruct (ascii_compare_cases a c) as [[Eac Hac]|[[Eac Hac]|[Eac Hac]]];
    rewrite Eac; try congruence; subst; try lia; try apply IH.
Qed.

Lemma name_ge_trans : Transitive name_ge.
Proof. intros a b c Hab Hbc. exact (leb_trans c b a Hbc Hab). Qed.

Lemma name_ge_total : Total name_ge.
Proof. intros a b. destruct (String.leb_total a b); [right|left]; assumption. Qed.

Lemma name_ge_antisym a b : name_ge a b -> name_ge b a -> a = b.
Proof. intros Hab Hba. exact (String.leb_antisym a b Hba Hab). Qed.

Lemma backup_files_elem folder f :
  f ∈ backup_files folder <-> f ∈ folder /\ is_backup f = true.
Proof.
  unfold backup_files, sorted_reverse.
  rewrite sorting.merge_sort_Permutation, list_elem_of_filter, elem_of_elements.
  tauto.
Qed.

Lemma backup_files_NoDup folder : NoDup (backup_files folder).
Proof.
  unfold backup_files, sorted_reverse. rewrite sorting.merge_sort_Permutation.
  apply NoDup_filter, NoDup_elements.
Qed.

Lemma backup_files_sorted folder :
  Sorted.StronglySorted name_ge (backup_files folder).
Proof.
  apply sorting.StronglySorted_merge_sort; [exact name_ge_trans|exact name_ge_total].
Qed.

(** In a list without duplicates that is sorted, the names before a place
    are other names that are greater. *)
Lemma sorted_before l : forall i j a b,
  Sorted.StronglySorted name_ge l -> NoDup l ->
  l !! i = Some a -> l !! j = Some b -> (i < j)%nat ->
  name_ge a b /\ a <> b.
Proof.
  induction l as [|x l IH]; intros i j a b Hs Hn Ha Hb Hij;
    [discriminate Ha|].
  apply Sorted.StronglySorted_inv in Hs as [Hs Hx].
  apply NoDup_cons in Hn as [Hx' Hn].
  destruct j as [|j]; [lia|]. cbn in Hb.
  destruct i as [|i].
  - injection Ha as <-. split.
    + rewrite Forall_forall in Hx. apply Hx.
      apply list_elem_of_lookup. eauto.
    + intros ->. apply Hx', list_elem_of_lookup. eauto.
  - cbn in Ha. apply (IH i j); [assumption..|lia].
Qed.

Lemma remove_files_subseteq removable files : forall folder,
  remove_files removable files folder ⊆ folder.
Proof.
  induction files as [|f files IH]; intros folder; [reflexivity|].
  cbn [remove_files]. destruct (removable f); [|reflexivity].
  etrans; [apply IH|]. intros x Hx.
  now apply elem_of_difference in Hx as [Hx _].
Qed.

Lemma remove_files_keeps removable files : forall folder f,
  f ∈ folder -> f ∉ files -> f ∈ remove_files removable files folder.
Proof.
  induction files as [|g files IH]; intros folder f Hf Hout; [exact Hf|].
  cbn [remove_files]. apply not_elem_of_cons in Hout as [Hne Hout].
  destruct (removable g); [|exact Hf].
  apply IH; [|exact Hout].
  apply elem_of_difference. split; [exact Hf|].
  rewrite elem_of_singleton. congruence.
Qed.

Lemma remove_files_all removable files : forall folder,
  (forall f, f ∈ files -> removable f = true) ->
  remove_files removable files folder = folder ∖ list_to_set files.
Proof.
  induction files as [|g files IH]; intros folder Hr.
  - cbn [remove_files list_to_set]. now rewrite difference_empty_L.
  - cbn [remove_files]. rewrite (Hr g) by left.
    rewrite IH by (intros f Hf; apply Hr; now right).
    cbn [list_to_set]. apply set_eq. intros x.
    rewrite !elem_of_difference, elem_of_union. tauto.
Qed.

(** A backup beyond the limit has at least [backup_limit] newer backups. *)
Lemma beyond_limit_newer folder f :
  f ∈ drop backup_limit (backup_files folder) ->
  (backup_limit <= size (newer_backups f folder))%nat.
Proof.
  intros Hf. apply list_elem_of_lookup in Hf as [j Hj].
  rewrite lookup_drop in Hj.
  assert (Hlen : length (take backup_limit (backup_files folder))
                 = backup_limit).
  { apply length_take_le. apply lookup_lt_Some in Hj. lia. }
  rewrite <- Hlen at 1.
  rewrite <- (size_list_to_set (C := gset string)).
  - apply subseteq_size. intros g Hg.
    apply elem_of_list_to_set, list_elem_of_lookup in Hg as [i Hi].
    apply lookup_take_Some in Hi as [Hi Hlt].
    destruct (sorted_before _ i (backup_limit + j) g f
                (backup_files_sorted folder) (backup_files_NoDup folder)
                Hi Hj ltac:(lia)) as [Hge Hne].
    assert (Hin : g ∈ backup_files folder)
      by (apply list_elem_of_lookup; eauto).
    apply backup_files_elem in Hin as [Hin Hb].
    apply elem_of_filter. auto.
  - apply (sublist_NoDup _ _ (backup_files_NoDup folder)), sublist_take.
Qed.

Lemma cleanup_old_kept removable folder f :
  f ∈ folder ->
  is_backup f = false \/
  (size (newer_backups f folder) < backup_limit)%nat ->
  f ∈ cleanup_old removable folder.
Proof.
  intros Hf Hkeep. apply remove_files_keeps; [exact Hf|]. intros Hin.
  destruct Hkeep as [Hb|Hsize].
  - apply list_elem_of_lookup in Hin as [i Hi]. rewrite lookup_drop in Hi.
    assert (Hfb : f ∈ backup_files folder)
      by (apply list_elem_of_lookup; eauto).
    apply backup_files_elem in Hfb as [_ Hfb]. congruence.
  - apply beyond_limit_newer in Hin. lia.
Qed.

(** What [cleanup_old] never removes. The names left are names that were
    there; a name that does not start with [backup_] (the audit log, which
    is kept in the same folder, is one) stays, and so does every backup
    that has fewer than [backup_limit] newer backups in the folder,
    whether the removals work or not. *)
Theorem cleanup_old_keeps (removable : string -> bool)
    (folder : gset string) (f : string) :
  f ∈ folder ->
  is_backup f = false \/
  (size (newer_backups f folder) < backup_limit)%nat ->
  f ∈ cleanup_old removable folder /\
  cleanup_old removable folder ⊆ folder.
Proof.
  intros Hf Hkeep. split; [|apply remove_files_subseteq].
  now apply cleanup_old_kept.
Qed.

(** The backups before a place of the sorted list are the newer ones. *)
Lemma newer_backups_before folder i f :
  backup_files folder !! i = Some f ->
  (size (newer_backups f folder) <= i)%nat.
Proof.
  intros Hi.
  assert (Hlen : (length (take i (backup_files folder)) <= i)%nat)
    by (rewrite length_take; lia).
  etrans; [|exact Hlen].
  rewrite <- (size_list_to_set (C := gset string))
    by apply (sublist_NoDup _ _ (backup_files_NoDup folder)), sublist_take.
  apply subseteq_size. intros g Hg.
  apply elem_of_filter in Hg as [(Hb & Hne & Hge) Hg].
  assert (Hin : g ∈ backup_files folder) by now apply backup_files_elem.
  apply list_elem_of_lookup in Hin as [k Hk].
  apply elem_of_list_to_set, elem_of_take. exists k. split; [exact Hk|].
  destruct (Nat.lt_trichotomy k i) as [Hlt|[->|Hgt]]; [exact Hlt| |].
  - congruence.
  - destruct (sorted_before _ i k f g (backup_files_sorted folder)
                (backup_files_NoDup folder) Hi Hk Hgt) as [Hfg _].
    destruct Hne. now apply name_ge_antisym.
Qed.

(** What [cleanup_old] leaves when every removal works: the names that do
    not start with [backup_] and the backups that have fewer than
    [backup_limit] newer backups, so at most [backup_limit] backups. *)
Theorem cleanup_old_limit (removable : string -> bool)
    (folder : gset string) :
  (forall f, f ∈ folder -> removable f = true) ->
  (forall f : string, f ∈ cleanup_old removable folder <->
             f ∈ folder /\
             (is_backup f = false \/
              (size (newer_backups f folder) < backup_limit)%nat)) /\
  (size (filter (fun f => is_backup f = true) (cleanup_old removable folder))
   <= backup_limit)%nat.
Proof.
  intros Hr.
  assert (Hall : cleanup_old removable folder
                 = folder ∖ list_to_set
                              (drop backup_limit (backup_files folder))).
  { apply remove_files_all. intros f Hf. apply Hr.
    apply list_elem_of_lookup in Hf as [i Hi]. rewrite lookup_drop in Hi.
    assert (Hin : f ∈ backup_files folder)
      by (apply list_elem_of_lookup; eauto).
    now apply backup_files_elem in Hin as [Hin _]. }
  assert (Hkept : forall f, f ∈ cleanup_old removable folder ->
                    is_backup f = true ->
                    exists i, backup_files folder !! i = Some f
                              /\ (i < backup_limit)%nat).
  { intros f Hf Hb. rewrite Hall in Hf.
    apply elem_of_difference in Hf as [Hf Hout].
    assert (Hin : f ∈ backup_files folder) by now apply backup_files_elem.
    apply list_elem_of_lookup in Hin as [i Hi]. exists i.
    split; [exact Hi|].
    destruct (Nat.lt_ge_cases i backup_limit) as [Hlt|Hge]; [exact Hlt|].
    destruct Hout. apply elem_of_list_to_set, list_elem_of_lookup.
    exists (i - backup_limit)%nat. rewrite lookup_drop.
    now replace (backup_limit + (i - backup_limit))%nat with i by lia. }
  split.
  - intros f. split.
    + intros Hf. split; [exact (remove_files_subseteq _ _ _ _ Hf)|].
      destruct (is_backup f) eqn:Hb; [right|now left].
      destruct (Hkept f Hf Hb) as (i & Hi & Hlt).
      pose proof (newer_backups_before folder i f Hi). lia.
    + intros [Hf Hkeep]. now apply cleanup_old_kept.
  - assert (Hlen : (length (take backup_limit (backup_files folder))
                    <= backup_limit)%nat) by (rewrite length_take; lia).
    etrans; [|exact Hlen].
    rewrite <- (size_list_to_set (C := gset string))
      by apply (sublist_NoDup _ _ (backup_files_NoDup folder)), sublist_take.
    apply subseteq_size. intros f Hf.
    apply elem_of_filter in Hf as [Hb Hf].
    destruct (Hkept f Hf Hb) as (i & Hi & Hlt).
    apply elem_of_list_to_set, elem_of_take. eauto.
Qed.

Lemma cleanup_old_keeps_witness :
  "backup_20240101_120012.pkl" ∈ cleanup_old (fun _ => false) demo_folder /\
  cleanup_old (fun _ => false) demo_folder ⊆ demo_folder.
Proof.
  apply (cleanup_old_keeps (fun _ => false) demo_folder
           "backup_20240101_120012.pkl").
  - vm_compute. reflexivity.
  - right. vm_compute. lia.
Defined.

Lemma cleanup_old_limit_witness :
  (forall f : string, f ∈ cleanup_old (fun _ => true) demo_folder <->
     f ∈ demo_folder /\
     (is_backup f = false \/
      (size (newer_backups f demo_folder) < backup_limit)%nat)) /\
  (size (filter (fun f => is_backup f = true)
           (cleanup_old (fun _ => true) demo_folder))
   <= backup_limit)%nat.
Proof.
  apply (cleanup_old_limit (fun _ => true) demo_folder).
  intros f _. reflexivity.
Defined.

(** The backup just written is not the one cleaned up. When the file of
    a new backup is written and no backup of the folder has a greater
    name, [create_backup] returns True and leaves the new backup, the
    audit log and every name of the folder that does not start with
    [backup_] in the folder, whether the removals of [cleanup_old] work or
    not. *)
Theorem create_backup_newest (stamp : string) (removable : string -> bool)
    (folder : gset string) :
  (forall g, g ∈ folder -> is_backup g = true ->
             name_ge (backup_name stamp) g) ->
  snd (create_backup stamp Written removable folder) = true /\
  backup_name stamp ∈ fst (create_backup stamp Written removable folder) /\
  AUDIT_FILE ∈ fst (create_backup stamp Written removable folder) /\
  forall f, f ∈ folder -> is_backup f = false ->
            f ∈ fst (create_backup stamp Written removable folder).
Proof.
  intros Hnew. cbn [create_backup fst snd].
  set (folder' := {[AUDIT_FILE]} ∪ ({[backup_name stamp]} ∪ folder)).
  split; [reflexivity|].
  pose proof (cleanup_old_kept removable folder') as Hkeep.
  split; [|split].
  - apply Hkeep.
    + apply elem_of_union. right. apply elem_of_union. left.
      now apply elem_of_singleton.
    + right.
      assert (E : newer_backups (backup_name stamp) folder' = ∅).
      { apply set_eq. intros g. split; [|intros Hg; now apply elem_of_empty in Hg].
        intros Hg. apply elem_of_filter in Hg as [(Hb & Hne & Hge) Hg].
        exfalso. unfold folder' in Hg.
        apply elem_of_union in Hg as [Hg|Hg].
        - apply elem_of_singleton in Hg. subst g. discriminate Hb.
        - apply elem_of_union in Hg as [Hg|Hg].
          + apply elem_of_singleton in Hg. contradiction.
          + apply Hne. apply name_ge_antisym; [exact Hge|].
            now apply Hnew. }
      rewrite E, size_empty. unfold backup_limit. lia.
  - apply Hkeep; [|now left].
    apply elem_of_union. left. now apply elem_of_singleton.
  - intros f Hf Hb. apply Hkeep; [|now left].
    apply elem_of_union. right. apply elem_of_union. now right.
Qed.

Lemma create_backup_newest_witness :
  snd (create_backup "20240101_120042" Written (fun _ => true) demo_folder)
  = true /\
  backup_name "20240101_120042"
  ∈ fst (create_backup "20240101_120042" Written (fun _ => true) demo_folder)
  /\
  AUDIT_FILE
  ∈ fst (create_backup "20240101_120042" Written (fun _ => true) demo_folder)
  /\
  forall f, f ∈ demo_folder -> is_backup f = false ->
            f ∈ fst (create_backup "20240101_120042" Written (fun _ => true)
                       demo_folder).
Proof.
  apply (create_backup_newest "20240101_120042" (fun _ => true) demo_folder).
  intros g Hg Hb. unfold demo_folder in Hg.
  apply elem_of_list_to_set in Hg.
  repeat (apply elem_of_cons in Hg as [->|Hg];
          [first [discriminate Hb | vm_compute; reflexivity]|]).
  now apply elem_of_nil in Hg.
Defined.

(** ** Displaying amounts *)

Lemma amount_char_facts c :
  amount_char c = true ->
  ch_isspace c = false /\ keep_char c = true /\
  Ascii.eqb "R" c = false /\ Ascii.eqb "r" c = false /\
  Ascii.eqb "I" c = false /\ Ascii.eqb "i" c = false /\
  Ascii.eqb " " c = false /\ Ascii.eqb "," c = false /\
  Ascii.eqb c "(" = false.
Proof.
  destruct c as [[] [] [] [] [] [] [] []]; intros H;
    try discriminate H; vm_compute; repeat split.
Qed.

Lemma digit_facts c :
  is_ascii_digit c = true ->
  amount_char c = true /\ Ascii.eqb "." c = false /\
  Ascii.eqb c "." = false /\ Ascii.eqb "," c = false.
Proof.
  destruct c as [[] [] [] [] [] [] [] []]; intros H;
    try discriminate H; vm_compute; repeat split.
Qed.

Lemma String_length_text l : String.length (text l) = length l.
Proof.
  induction l as [|c l IH]; [reflexivity|].
  change (S (String.length (text l)) = S (length l)). now rewrite IH.
Qed.

(** *** Texts without blanks at their ends *)

Lemma lstrip_l_head l : head_not_space l -> lstrip_l l = l.
Proof. destruct l as [|c l]; [reflexivity|]. cbn. now intros ->. Qed.

Lemma strip_ends l :
  head_not_space l -> head_not_space (rev l) -> strip (text l) = text l.
Proof.
  intros H1 H2. unfold strip.
  now rewrite chars_text, (lstrip_l_head _ H1), (lstrip_l_head _ H2),
    rev_involutive.
Qed.

(** *** Replacing a token that does not occur *)

Lemma replace_l_skip a old new l1 l2 :
  Forall (fun c => Ascii.eqb a c = false) l1 ->
  replace_l (a :: old) new O (l1 ++ l2)
  = l1 ++ replace_l (a :: old) new O l2.
Proof.
  induction 1 as [|c l1 Hc Hl IH]; [reflexivity|].
  cbn [app replace_l starts_with]. rewrite Hc. now rewrite IH.
Qed.

Lemma replace_l_none a old new l :
  Forall (fun c => Ascii.eqb a c = false) l ->
  replace_l (a :: old) new O l = l.
Proof.
  intros H. rewrite <- (app_nil_r l) at 1.
  rewrite (replace_l_skip _ _ _ _ _ H). cbn [replace_l]. apply app_nil_r.
Qed.

Lemma replace_text old new l :
  replace old new (text l) = text (replace_l (chars old) (chars new) O l).
Proof. unfold replace. now rewrite chars_text. Qed.

(** *** The grouping *)

Lemma group3_amount ds :
  all_digits ds -> Forall (fun c => amount_char c = true) (group3 "." ds).
Proof.
  induction 1 as [|c ds Hc Hds IH]; [constructor|].
  cbn [group3]. destruct (_ && _); repeat constructor;
    try assumption; now apply digit_facts.
Qed.

(** Taking the dots out of the grouped digits gives the digits. *)
Lemma group3_undot ds :
  all_digits ds ->
  flat_map (fun x => if Ascii.eqb "." x then [] else [x]) (group3 "." ds) = ds.
Proof.
  induction 1 as [|c ds Hc Hds IH]; [reflexivity|].
  destruct (digit_facts c Hc) as (_ & Hdot & _).
  cbn [group3]. destruct (_ && _); cbn [flat_map app];
    rewrite Hdot, IH; reflexivity.
Qed.

(** Turning the commas of [format] into dots. *)
Lemma group3_comma_dot ds :
  all_digits ds ->
  flat_map (fun x => if Ascii.eqb "," x then ["."%char] else [x])
           (group3 "," ds)
  = group3 "." ds.
Proof.
  induction 1 as [|c ds Hc Hds IH]; [reflexivity|].
  destruct (digit_facts c Hc) as (_ & _ & _ & Hcomma).
  cbn [group3]. destruct (_ && _); cbn [flat_map app];
    rewrite Hcomma, IH; reflexivity.
Qed.

Lemma split_l_not_nil sep l : forall cur, split_l sep cur l <> [].
Proof.
  induction l as [|c l IH]; intros cur; cbn [split_l]; [discriminate|].
  destruct (Ascii.eqb c sep); [discriminate|apply IH].
Qed.

(** Split at the dots, the grouped digits give a first part and parts of
    three digits. *)
Lemma group3_split ds :
  all_digits ds ->
  forall cur, exists first rest,
    split_l "." cur (group3 "." ds) = first :: rest /\
    Forall (fun p => length p = 3%nat) rest /\
    (ds <> [] ->
     length first = (length cur + ((length ds - 1) mod 3 + 1))%nat).
Proof.
  induction 1 as [|c ds Hc Hds IH]; intros cur.
  - exists (rev cur), []. cbn. split; [reflexivity|]. split; [constructor|].
    congruence.
  - destruct (digit_facts c Hc) as (_ & _ & Hdot & _).
    cbn [group3].
    destruct ((0 <? length ds)%nat && (length ds mod 3 =? 0)%nat) eqn:E.
    + apply andb_true_iff in E as [Hpos Hmod].
      apply Nat.ltb_lt in Hpos. apply Nat.eqb_eq in Hmod.
      destruct (IH []) as (first & rest & Hsplit & Hrest & Hlen).
      exists (rev (c :: cur)), (first :: rest).
      cbn [split_l]. rewrite Hdot. cbn [Ascii.eqb Bool.eqb]. rewrite Hsplit.
      split; [reflexivity|]. split.
      * constructor; [|exact Hrest].
        rewrite Hlen by (destruct ds; [cbn in Hpos; lia|discriminate]).
        cbn [length].
        assert ((length ds - 1) mod 3 = 2)%nat; [|lia].
        pose proof (Nat.div_mod_eq (length ds) 3) as Hd.
        pose proof (Nat.div_mod_eq (length ds - 1) 3) as Hd'.
        pose proof (Nat.mod_upper_bound (length ds - 1) 3 ltac:(lia)).
        lia.
      * intros _. rewrite length_rev. cbn [length].
        replace (S (length ds) - 1)%nat with (length ds) by lia. lia.
    + destruct (IH (c :: cur)) as (first & rest & Hsplit & Hrest & Hlen).
      exists first, rest. cbn [split_l]. rewrite Hdot, Hsplit.
      split; [reflexivity|]. split; [exact Hrest|]. intros _.
      destruct ds as [|d ds].
      * cbn in Hsplit. injection Hsplit as <- _.
        rewrite length_app, length_rev. reflexivity.
      * rewrite Hlen by discriminate.
        apply andb_false_iff in E as [E|E];
          [apply Nat.ltb_ge in E; cbn in E; lia|].
        apply Nat.eqb_neq in E. cbn [length] in *.
        replace (S (S (length ds)) - 1)%nat with (S (length ds)) by lia.
        replace (S (length ds) - 1)%nat with (length ds) by lia.
        pose proof (Nat.div_mod_eq (S (length ds)) 3) as Hd.
        pose proof (Nat.div_mod_eq (length ds) 3) as Hd'.
        pose proof (Nat.mod_upper_bound (S (length ds)) 3 ltac:(lia)).
        pose proof (Nat.mod_upper_bound (length ds) 3 ltac:(lia)).
        lia.
Qed.

Lemma existsb_absent a l :
  Forall (fun c => Ascii.eqb a c = false) l -> existsb (Ascii.eqb a) l = false.
Proof.
  induction 1 as [|c l Hc Hl IH]; [reflexivity|].
  cbn [existsb]. now rewrite Hc, IH.
Qed.

Lemma forallb_three rest :
  Forall (fun p : list ascii => length p = 3%nat) rest ->
  forallb (fun p => (String.length p =? 3)%nat) (map text rest) = true.
Proof.
  induction 1 as [|p rest Hp Hrest IH]; [reflexivity|].
  cbn [map forallb]. now rewrite String_length_text, Hp, IH.
Qed.

(** *** The separators of a displayed number *)

Lemma separators_amount sign ds :
  sign = [] \/ sign = ["-"%char] -> all_digits ds ->
  separators (text (sign ++ group3 "." ds)) = text (sign ++ ds).
Proof.
  intros Hsign Hds.
  set (body := sign ++ group3 "." ds).
  assert (Hbody : Forall (fun c => amount_char c = true) body).
  { apply Forall_app. split; [|now apply group3_amount].
    destruct Hsign as [->| ->]; repeat constructor. }
  assert (Hundot : flat_map (fun x => if Ascii.eqb "." x then [] else [x]) body
                   = sign ++ ds).
  { unfold body. rewrite flat_map_app, (group3_undot _ Hds).
    now destruct Hsign as [->| ->]. }
  assert (Hcomma : contains "," (text body) = false).
  { unfold contains. rewrite chars_text. apply existsb_absent.
    eapply Forall_impl; [exact Hbody|]. intros c Hc.
    now apply amount_char_facts. }
  unfold separators. rewrite Hcomma. cbn [andb negb].
  rewrite andb_true_r.
  destruct (contains "." (text body)) eqn:Hdot.
  - unfold contains in Hdot. rewrite chars_text in Hdot.
    assert (Hparts : exists first rest,
               split_l "." [] body = first :: rest /\
               Forall (fun p => length p = 3%nat) rest).
    { destruct Hsign as [->| ->].
      - destruct (group3_split ds Hds []) as (f & r & H1 & H2 & _). eauto.
      - destruct (group3_split ds Hds ["-"%char]) as (f & r & H1 & H2 & _).
        eauto. }
    destruct Hparts as (first & rest & Hsplit & Hrest).
    assert (Hne : rest <> []).
    { rewrite (split_l_with _ _ _ Hdot) in Hsplit.
      injection Hsplit as _ <-. apply split_l_not_nil. }
    unfold split. rewrite chars_text, Hsplit. cbn [map length tl].
    rewrite length_map, (forallb_three _ Hrest).
    destruct rest as [|p rest]; [congruence|]. cbn [length Nat.ltb Nat.leb andb].
    rewrite replace_text. change (chars ".") with ["."%char].
    change (chars "") with (@nil ascii).
    now rewrite replace_l_char, Hundot.
  - unfold contains in Hdot. rewrite chars_text in Hdot.
    rewrite <- Hundot, <- replace_l_char.
    now rewrite (replace_l_absent _ _ _ Hdot).
Qed.

Lemma separators_digits sign ds :
  sign = [] \/ sign = ["-"%char] -> all_digits ds ->
  separators (text (sign ++ ds)) = text (sign ++ ds).
Proof.
  intros Hsign Hds.
  assert (Hno : forall a, Ascii.eqb a "-" = false ->
                  (forall c, is_ascii_digit c = true -> Ascii.eqb a c = false) ->
                  contains a (text (sign ++ ds)) = false).
  { intros a Ha Hd. unfold contains. rewrite chars_text.
    apply existsb_absent, Forall_app. split.
    - destruct Hsign as [->| ->]; repeat constructor. exact Ha.
    - eapply Forall_impl; [exact Hds|]. exact Hd. }
  unfold separators.
  rewrite (Hno ","%char eq_refl) by (intros c Hc; now apply digit_facts).
  rewrite (Hno "."%char eq_refl) by (intros c Hc; now apply digit_facts).
  reflexivity.
Qed.

(** *** From the text to the number *)

Lemma parse_amount_text l body :
  l <> [] -> head_not_space l -> head_not_space (rev l) ->
  fold_left (fun s token => replace token "" s) currency_tokens (text l)
  = text body ->
  Forall (fun c => amount_char c = true) body ->
  parse_amount_idr (CStr (text l))
  = round_idr (try_except (float_of_str (separators (text body))) fzero).
Proof.
  intros Hne H1 H2 Hfold Hbody. unfold parse_amount_idr.
  rewrite (strip_ends _ H1 H2).
  destruct l as [|c l]; [congruence|].
  change (String.eqb (text (c :: l)) "") with false. cbv iota.
  rewrite Hfold.
  assert (Hkeep : _only_digits (text body) = text body).
  { unfold _only_digits. rewrite chars_text. f_equal.
    clear Hfold. induction Hbody as [|x body Hx Hb IH]; [reflexivity|].
    cbn [List.filter].
    destruct (amount_char_facts x Hx) as (_ & -> & _). now rewrite IH. }
  rewrite Hkeep.
  assert (Hparen : startswith "(" (text body) = false).
  { unfold startswith. rewrite chars_text.
    destruct Hbody as [|x body Hx Hb]; [reflexivity|].
    now apply amount_char_facts. }
  rewrite Hparen. reflexivity.
Qed.

(** *** The decimal text of an integer *)

Lemma uint_digits d : all_digits (chars (NilEmpty.string_of_uint d)).
Proof.
  induction d; cbn [NilEmpty.string_of_uint]; try constructor;
    try reflexivity; assumption.
Qed.

Lemma uint_digits_zero d :
  all_digits (chars (NilZero.string_of_uint d)) /\
  chars (NilZero.string_of_uint d) <> [].
Proof.
  destruct d; (split; [|discriminate]);
    try (repeat constructor; fail);
    apply (uint_digits (_ d)).
Qed.

Lemma match_minus {A} (c : ascii) (ds : list ascii) (f g : list ascii -> A) :
  is_ascii_digit c = true ->
  match c :: ds with
  | "-"%char :: l => f l
  | l => g l
  end = g (c :: ds).
Proof.
  destruct c as [[] [] [] [] [] [] [] []]; intros H;
    try discriminate H; reflexivity.
Qed.

Lemma str_of_int_digits i :
  exists sign ds,
    str_of_int i = text (sign ++ ds) /\
    (sign = [] \/ sign = ["-"%char]) /\ all_digits ds /\ ds <> [] /\
    format_comma i = text (sign ++ group3 "," ds).
Proof.
  unfold format_comma, str_of_int, NilZero.string_of_int.
  destruct (Z.to_int i) as [d|d];
    destruct (uint_digits_zero d) as [Hd Hne].
  - exists [], (chars (NilZero.string_of_uint d)).
    cbn [app]. rewrite text_chars. split; [reflexivity|].
    split; [now left|]. split; [exact Hd|]. split; [exact Hne|].
    destruct (chars (NilZero.string_of_uint d)) as [|c ds]; [congruence|].
    apply (match_minus c ds (fun l => text ("-"%char :: group3 "," l))
             (fun l => text (group3 "," l))).
    now inversion Hd.
  - exists ["-"%char], (chars (NilZero.string_of_uint d)).
    split; [|split; [now right|split; [exact Hd|split; [exact Hne|]]]].
    + change (text (["-"%char] ++ chars (NilZero.string_of_uint d)))
        with (String "-" (text (chars (NilZero.string_of_uint d)))).
      now rewrite text_chars.
    + reflexivity.
Qed.

(** *** The currency words *)

Lemma tokens_displayed body :
  Forall (fun c => amount_char c = true) body ->
  fold_left (fun s token => replace token "" s) currency_tokens
            (text ("R"%char :: "p"%char :: body ++ chars " IDR"))
  = text body.
Proof.
  intros Hbody.
  assert (Hskip : forall a old l2,
            (forall c, amount_char c = true -> Ascii.eqb a c = false) ->
            replace_l (a :: old) [] O (body ++ l2)
            = body ++ replace_l (a :: old) [] O l2).
  { intros a old l2 Ha. apply replace_l_skip.
    eapply Forall_impl; [exact Hbody|]. exact Ha. }
  unfold currency_tokens. cbn [fold_left].
  rewrite !replace_text.
  change (chars "Rp") with ["R"%char; "p"%char].
  change (chars "rp") with ["r"%char; "p"%char].
  change (chars "IDR") with ["I"%char; "D"%char; "R"%char].
  change (chars "idr") with ["i"%char; "d"%char; "r"%char].
  change (chars " ") with [" "%char]. change (chars "") with (@nil ascii).
  change (replace_l ["R"%char; "p"%char] [] 0
            ("R"%char :: "p"%char :: body ++ chars " IDR"))
    with (replace_l ["R"%char; "p"%char] [] 0 (body ++ chars " IDR")).
  rewrite (Hskip "R"%char) by (intros c Hc; now apply amount_char_facts).
  change (replace_l ["R"%char; "p"%char] [] 0 (chars " IDR"))
    with (chars " IDR").
  rewrite (Hskip "r"%char) by (intros c Hc; now apply amount_char_facts).
  change (replace_l ["r"%char; "p"%char] [] 0 (chars " IDR"))
    with (chars " IDR").
  rewrite (Hskip "I"%char) by (intros c Hc; now apply amount_char_facts).
  change (replace_l ["I"%char; "D"%char; "R"%char] [] 0 (chars " IDR"))
    with [" "%char].
  rewrite (Hskip "i"%char) by (intros c Hc; now apply amount_char_facts).
  change (replace_l ["i"%char; "d"%char; "r"%char] [] 0 [" "%char])
    with [" "%char].
  rewrite (Hskip " "%char) by (intros c Hc; now apply amount_char_facts).
  change (replace_l [" "%char] [] 0 [" "%char]) with (@nil ascii).
  now rewrite app_nil_r.
Qed.

Lemma tokens_plain body :
  Forall (fun c => amount_char c = true) body ->
  fold_left (fun s token => replace token "" s) currency_tokens (text body)
  = text body.
Proof.
  intros Hbody.
  assert (Hnone : forall a old,
            (forall c, amount_char c = true -> Ascii.eqb a c = false) ->
            replace_l (a :: old) [] O body = body).
  { intros a old Ha. apply replace_l_none.
    eapply Forall_impl; [exact Hbody|]. exact Ha. }
  unfold currency_tokens. cbn [fold_left].
  rewrite !replace_text.
  change (chars "Rp") with ["R"%char; "p"%char].
  change (chars "rp") with ["r"%char; "p"%char].
  change (chars "IDR") with ["I"%char; "D"%char; "R"%char].
  change (chars "idr") with ["i"%char; "d"%char; "r"%char].
  change (chars " ") with [" "%char]. change (chars "") with (@nil ascii).
  rewrite (Hnone "R"%char) by (intros c Hc; now apply amount_char_facts).
  rewrite (Hnone "r"%char) by (intros c Hc; now apply amount_char_facts).
  rewrite (Hnone "I"%char) by (intros c Hc; now apply amount_char_facts).
  rewrite (Hnone "i"%char) by (intros c Hc; now apply amount_char_facts).
  now rewrite (Hnone " "%char) by (intros c Hc; now apply amount_char_facts).
Qed.

Lemma head_not_space_all l :
  Forall (fun c => amount_char c = true) l -> head_not_space l.
Proof.
  destruct 1 as [|c l Hc Hl]; [exact I|]. now apply amount_char_facts.
Qed.

(** A displayed amount is read back as the number it displays: whatever
    the value, [parse_amount_idr] reads the text that [fmt_idr] makes of
    it, with its [Rp], its dots between the thousands and its [IDR], as it
    reads the plain decimal digits of the integer that [fmt_idr] rounded the
    value to. *)
Theorem fmt_idr_read_back (val : cell) :
  parse_amount_idr (CStr (fmt_idr val))
  = parse_amount_idr (CStr (str_of_int (idr_int val))).
Proof.
  unfold fmt_idr. generalize (idr_int val). intros i.
  destruct (str_of_int_digits i) as (sign & ds & Hs & Hsign & Hds & Hne & Hf).
  assert (Hplain : Forall (fun c => amount_char c = true) (sign ++ ds)).
  { apply Forall_app. split.
    - destruct Hsign as [->| ->]; repeat constructor.
    - eapply Forall_impl; [exact Hds|]. intros c Hc. now apply digit_facts. }
  assert (Hbody : Forall (fun c => amount_char c = true)
                         (sign ++ group3 "." ds)).
  { apply Forall_app. split; [|now apply group3_amount].
    destruct Hsign as [->| ->]; repeat constructor. }
  assert (Hfmt : fmt_int i
                 = text ("R"%char :: "p"%char
                         :: (sign ++ group3 "." ds) ++ chars " IDR")).
  { unfold fmt_int. rewrite Hf, replace_text.
    change (chars ",") with [","%char]. change (chars ".") with ["."%char].
    rewrite replace_l_char, flat_map_app, (group3_comma_dot _ Hds).
    replace (flat_map (fun x => if Ascii.eqb "," x then ["."%char] else [x])
               sign) with sign by (destruct Hsign as [->| ->]; reflexivity).
    change (text ("R"%char :: "p"%char
                  :: (sign ++ group3 "." ds) ++ chars " IDR"))
      with (String "R" (String "p"
              (text ((sign ++ group3 "." ds) ++ chars " IDR")))).
    rewrite (text_app (sign ++ group3 "." ds) (chars " IDR")).
    reflexivity. }
  rewrite Hfmt, Hs.
  rewrite (parse_amount_text _ (sign ++ group3 "." ds)).
  - rewrite (parse_amount_text (sign ++ ds) (sign ++ ds)).
    + now rewrite separators_amount, separators_digits.
    + destruct sign; [|discriminate]. now destruct ds.
    + now apply head_not_space_all.
    + now apply head_not_space_all, Forall_rev.
    + now apply tokens_plain.
    + exact Hplain.
  - discriminate.
  - reflexivity.
  - cbn [rev]. rewrite rev_app_distr. reflexivity.
  - now apply tokens_displayed.
  - exact Hbody.
Qed.

(** ** Paging of the table *)

Lemma paging_step_page {A} (st : Pager A) (e : paging A) :
  0 <= current_page st /\ page_within st (filtered_data st) ->
  match e with
  | Reloaded f => page_within st f
  | _ => True
  end ->
  0 <= current_page (paging_step st e) /\
  page_within (paging_step st e) (filtered_data (paging_step st e)).
Proof.
  unfold page_within, rows_per_page. intros [H0 H] He.
  destruct e as [| |f|f]; cbn [paging_step].
  - unfold prev_page. destruct (Z.ltb_spec 0 (current_page st));
      cbn [current_page filtered_data]; lia.
  - unfold next_page, rows_per_page.
    destruct (Z.ltb_spec ((current_page st + 1) * 25)
                (Z.of_nat (length (filtered_data st))));
      cbn [current_page filtered_data]; lia.
  - cbn. lia.
  - unfold page_within, rows_per_page in He. cbn. lia.
Qed.

Lemma paging_step_nonneg {A} (st : Pager A) (e : paging A) :
  0 <= current_page st -> 0 <= current_page (paging_step st e).
Proof.
  intros H0. destruct e as [| |f|f]; cbn [paging_step].
  - unfold prev_page. destruct (Z.ltb_spec 0 (current_page st));
      cbn [current_page]; lia.
  - unfold next_page.
    destruct (_ <? _); cbn [current_page]; lia.
  - cbn. lia.
  - cbn. lia.
Qed.

Lemma page_rows_length {A} (st : Pager A) :
  Z.of_nat (length (page_rows st)) <= rows_per_page.
Proof.
  unfold page_rows, rows_per_page.
  destruct (filtered_data st); [cbn; lia|]. rewrite length_take. lia.
Qed.

(** The table shows no empty page of a table that has rows, as long as
    every loading of the sheet brings enough rows for the page that is
    shown. From the first page, whatever the buttons of the pages, the
    filters and the loadings do, the page number is not negative and the
    page shows at most [rows_per_page] rows; and when each loading found
    the page within its rows, and rows passed the filters, the page shows
    at least one of them. A loading keeps the page number, whatever the
    number of rows it brings. *)
Theorem paging_shows_rows {A} (events : list (paging A)) (st0 : Pager A) :
  current_page st0 = 0 ->
  0 <= current_page (fold_left paging_step events st0) /\
  Z.of_nat (length (page_rows (fold_left paging_step events st0)))
  <= rows_per_page /\
  (loads_within events st0 ->
   filtered_data (fold_left paging_step events st0) <> [] ->
   page_rows (fold_left paging_step events st0) <> []).
Proof.
  intros Hstart. split; [|split; [apply page_rows_length|]].
  { assert (H0 : 0 <= current_page st0) by lia. clear Hstart.
    revert st0 H0. induction events as [|e events IH]; intros st H0;
      [exact H0|].
    cbn [fold_left]. by apply IH, paging_step_nonneg. }
  assert (Hinv : 0 <= current_page st0 /\ page_within st0 (filtered_data st0)).
  { split; [lia|by left]. }
  clear Hstart. revert st0 Hinv.
  induction events as [|e events IH]; intros st [H0 H] Hloads.
  - cbn [fold_left]. intros Hne.
    assert (Hlen : (0 < length (filtered_data st))%nat).
    { destruct (filtered_data st); [congruence|cbn; lia]. }
    assert (Hrows : page_rows st
                    = take (Z.to_nat rows_per_page)
                        (drop (Z.to_nat (current_page st * rows_per_page))
                           (filtered_data st))).
    { unfold page_rows. destruct (filtered_data st); [congruence|reflexivity]. }
    rewrite Hrows. unfold page_within, rows_per_page in *.
    intros Hnil. apply (f_equal length) in Hnil.
    rewrite length_take, length_drop in Hnil. cbn [length] in Hnil. lia.
  - cbn [fold_left]. destruct Hloads as [He Hloads].
    apply IH; [|exact Hloads]. by apply paging_step_page.
Qed.

Lemma paging_shows_rows_witness :
  0 <= current_page (fold_left paging_step demo_paging demo_pager) /\
  Z.of_nat (length (page_rows (fold_left paging_step demo_paging demo_pager)))
  <= rows_per_page /\
  page_rows (fold_left paging_step demo_paging demo_pager) <> [].
Proof.
  destruct (paging_shows_rows demo_paging demo_pager eq_refl)
    as (H0 & Hlen & Hrows).
  split; [exact H0|]. split; [exact Hlen|].
  apply Hrows.
  - unfold demo_paging. cbn [loads_within]. repeat split.
    right. vm_compute. reflexivity.
  - vm_compute. discriminate.
Defined.

(** A loading that brings fewer rows than the pages before the one that is
    shown leaves an empty page: on the third page of sixty rows, a sheet
    that comes back with ten rows is shown as no rows. *)
Lemma paging_after_short_load :
  current_page (fold_left paging_step demo_paging_short demo_pager) = 2 /\
  length (filtered_data (fold_left paging_step demo_paging_short demo_pager))
  = 10%nat /\
  page_rows (fold_left paging_step demo_paging_short demo_pager) = [].
Proof. repeat split; vm_compute; reflexivity. Qed.
(** ** Rows shorter than the header *)

Lemma get_cell_padded idx r k h :
  (h ∈ BANK_LIST -> idx !! new_style_title h = None) ->
  get_cell idx (r ++ replicate k (CStr "")) h = get_cell idx r h.
Proof.
  intros Halt. unfold get_cell, at_column.
  destruct (idx !! h) as [i|] eqn:Hi; cbn [mbind option_bind].
  - destruct (r !! i) as [v|] eqn:Hv.
    + now rewrite (lookup_app_l_Some _ _ _ _ Hv).
    + assert (Hpad : (r ++ replicate k (CStr "")) !! i = Some (CStr "")
                     \/ (r ++ replicate k (CStr "")) !! i = None).
      { apply lookup_ge_None in Hv. rewrite lookup_app_r by exact Hv.
        destruct (replicate k (CStr "") !! (i - length r)%nat) as [c|] eqn:Hc;
          [left|now right].
        apply lookup_replicate in Hc as [-> _]. reflexivity. }
      case_bool_decide as Hb.
      * fold (new_style_title h). rewrite (Halt Hb). cbn.
        now destruct Hpad as [-> | ->].
      * now destruct Hpad as [-> | ->].
  - case_bool_decide as Hb; [|reflexivity].
    fold (new_style_title h). now rewrite (Halt Hb).
Qed.

Lemma parse_accounts_padded idx r k banks :
  (forall b, b ∈ banks -> b ∈ BANK_LIST -> idx !! new_style_title b = None) ->
  parse_accounts idx (r ++ replicate k (CStr "")) banks
  = parse_accounts idx r banks.
Proof.
  induction banks as [|b banks IH]; intros H; [reflexivity|].
  cbn [parse_accounts]. rewrite get_cell_padded, IH; [reflexivity| |].
  - intros b' Hb'. apply H. now right.
  - apply H. left.
Qed.

Lemma parse_accounts_blank idx banks :
  exists m, parse_accounts idx [] banks = Ok m /\
    forall k, m !! k = if bool_decide (k ∈ banks) then Some fzero else None.
Proof.
  induction banks as [|b banks (m & Hm & Hk)].
  - exists ∅. split; [reflexivity|]. intros k. now rewrite lookup_empty.
  - exists (<[b := fzero]> m). split.
    + cbn [parse_accounts].
      assert (Hc : get_cell idx [] b = CStr "").
      { unfold get_cell, at_column.
        destruct (idx !! b); cbn; case_bool_decide; try reflexivity;
          now destruct (idx !! _). }
      rewrite Hc, Hm. reflexivity.
    + intros k. destruct (decide (k = b)) as [->|Hne].
      * rewrite lookup_insert_eq, bool_decide_eq_true_2; [reflexivity|left].
      * rewrite lookup_insert_ne, Hk by congruence.
        apply (f_equal (fun c : bool => if c then Some fzero else None)).
        apply bool_decide_ext. rewrite elem_of_cons. tauto.
Qed.

(** A row that is shorter than the header is read as if its missing cells
    were empty texts: under a header without new-style account titles,
    adding empty texts at the end of a row does not change what the row
    decodes to; and a row without cells decodes, under any header, to the
    record with number 0, empty texts and zero amounts. *)
Theorem decode_short_row (idx : gmap string nat) (r : list cell) (k : nat) :
  ((forall b, b ∈ BANK_LIST -> idx !! new_style_title b = None) ->
   decode_row idx (r ++ replicate k (CStr "")) = decode_row idx r) /\
  decode_row idx [] = Ok blank_row.
Proof.
  split.
  - intros Halt. unfold decode_row.
    rewrite !get_cell_padded, parse_accounts_padded;
      first [reflexivity | intros Hb; now apply Halt
            | intros b _ Hb; now apply Halt].
  - unfold decode_row.
    assert (Hc : forall h, get_cell idx [] h = CStr "").
    { intros h. unfold get_cell, at_column.
      destruct (idx !! h); cbn; case_bool_decide; try reflexivity;
        now destruct (idx !! _). }
    destruct (parse_accounts_blank idx BANK_LIST) as (m & Hm & Hk).
    rewrite !Hc, Hm.
    assert (E : m = running0).
    { apply map_eq. intros b. now rewrite Hk, running0_lookup_all. }
    rewrite E. reflexivity.
Qed.

Lemma decode_short_row_witness :
  decode_row (header_index header_row)
             ([CInt 4; CStr "02/01/2024 09:30:00"; CStr "ani"; CStr "BCA";
               CStr "belanja"; CInt 0; CInt 300] ++ replicate 12 (CStr ""))
  = decode_row (header_index header_row)
               [CInt 4; CStr "02/01/2024 09:30:00"; CStr "ani"; CStr "BCA";
                CStr "belanja"; CInt 0; CInt 300] /\
  decode_row (header_index header_row) [] = Ok blank_row.
Proof.
  destruct (decode_short_row (header_index header_row)
              [CInt 4; CStr "02/01/2024 09:30:00"; CStr "ani"; CStr "BCA";
               CStr "belanja"; CInt 0; CInt 300] 12) as [H1 H2].
  split; [|exact H2].
  apply H1. intros b Hb. now apply canonical_new_style.
Defined.

(** ** A reset row cuts the history *)

Lemma update_running_agree run1 run2 r :
  (forall b, b ∈ BANK_LIST -> run1 !!! b = run2 !!! b) ->
  forall b, b ∈ BANK_LIST ->
    update_running run1 r !!! b = update_running run2 r !!! b.
Proof.
  intros H b Hb. unfold update_running.
  destruct (is_system_init r).
  - now rewrite !(lookup_total_fold_insert
                    (fun b => notna_or_zero (balances r !! b))) by exact Hb.
  - unfold known_bank. destruct (str_strip (Bank_EWallet r)) as [bank|];
      [|now apply H].
    case_bool_decide as Hk; [|now apply H].
    destruct (decide (bank = b)) as [->|Hne].
    + rewrite !lookup_total_insert_eq. now rewrite (H b Hb).
    + rewrite !lookup_total_insert_ne by exact Hne. now apply H.
Qed.

Lemma emit_agree run1 run2 r :
  (forall b, b ∈ BANK_LIST -> run1 !!! b = run2 !!! b) ->
  emit run1 r = emit run2 r.
Proof.
  intros H. unfold emit. f_equal.
  - unfold values. f_equal. apply map_ext_in. intros b Hb.
    now apply H, list_elem_of_In.
  - now apply fold_insert_ext.
Qed.

Lemma recompute_from_agree df : forall run1 run2,
  (forall b, b ∈ BANK_LIST -> run1 !!! b = run2 !!! b) ->
  recompute_from run1 df = recompute_from run2 df.
Proof.
  induction df as [|r df IH]; intros run1 run2 H; [reflexivity|].
  cbn [recompute_from].
  pose proof (update_running_agree run1 run2 r H) as H'.
  now rewrite (emit_agree _ _ r H'), (IH _ _ H').
Qed.

(** A reset row cuts the history. The records that the recomputation
    gives to a row of [SYSTEM] on [SALDO AWAL] and to the rows after it
    do not depend on the rows before it, when the reset row has texts in
    'Tanggal' and 'Keterangan' too, as the one that the program writes
    has. *)
Theorem reset_cuts_history (df1 df2 : list Row) (r : Row) (rest : list Row) :
  is_system_init r = true -> text_row r = true ->
  drop (length df1) (recompute_all_balances (df1 ++ r :: rest))
  = drop (length df2) (recompute_all_balances (df2 ++ r :: rest)).
Proof.
  intros Hinit Htext.
  assert (Ht : forall df, text_columns (df ++ r :: rest)).
  { intros df. right. apply Exists_app. right. by apply Exists_cons_hd. }
  rewrite !text_columns_all_balances by apply Ht.
  rewrite !recompute_from_app.
  rewrite !drop_app_length' by (symmetry; apply recompute_from_length).
  cbn [recompute_from].
  assert (H : forall b, b ∈ BANK_LIST ->
            update_running (fold_left update_running df1 running0) r !!! b
            = update_running (fold_left update_running df2 running0) r !!! b).
  { intros b Hb. unfold update_running. rewrite Hinit.
    now rewrite !(lookup_total_fold_insert
                    (fun b => notna_or_zero (balances r !! b))) by exact Hb. }
  now rewrite (emit_agree _ _ r H), (recompute_from_agree rest _ _ H).
Qed.

Lemma reset_cuts_history_witness :
  drop (length demo_rows)
       (recompute_all_balances
          (demo_rows ++ demo_row "SYSTEM" "SALDO AWAL" 0 0 700
                     :: [demo_row "ani" "BCA" 0 200 0]))
  = drop (length (@nil Row))
         (recompute_all_balances
            ([] ++ demo_row "SYSTEM" "SALDO AWAL" 0 0 700
                :: [demo_row "ani" "BCA" 0 200 0])).
Proof.
  apply (reset_cuts_history demo_rows []
           (demo_row "SYSTEM" "SALDO AWAL" 0 0 700)
           [demo_row "ani" "BCA" 0 200 0]).
  - reflexivity.
  - reflexivity.
Defined.

(** Without the texts the types of the columns can depend on the rows
    before the reset row: after a row whose date is the float 2.5, the
    date 3 of the reset row is shown as the float 3.0. *)
Lemma reset_after_numbers :
  let r := {| No := 2; Tanggal := CInt 3; User_ID := CStr "SYSTEM";
              Bank_EWallet := CStr "SALDO AWAL"; Keterangan := CStr "";
              Credit := fzero; Debit := fzero; Saldo_Akhir := fzero;
              balances := running0 |} in
  let before := {| No := 1; Tanggal := CFloat (S754_finite false 5 (-1));
                   User_ID := CStr "ani"; Bank_EWallet := CStr "BCA";
                   Keterangan := CStr ""; Credit := fzero; Debit := fzero;
                   Saldo_Akhir := fzero; balances := running0 |} in
  is_system_init r = true /\
  map Tanggal (drop 1 (recompute_all_balances ([before] ++ [r])))
  = [CFloat (fint 3)] /\
  map Tanggal (drop 0 (recompute_all_balances ([] ++ [r]))) = [CInt 3].
Proof. cbv zeta. repeat split; vm_compute; reflexivity. Qed.
(** ** Amounts in parentheses *)

Lemma keep_char_facts c :
  keep_char c = true ->
  ch_isspace c = false /\
  Ascii.eqb "R" c = false /\ Ascii.eqb "r" c = false /\
  Ascii.eqb "I" c = false /\ Ascii.eqb "i" c = false /\
  Ascii.eqb " " c = false.
Proof.
  destruct c as [[] [] [] [] [] [] [] []]; intros H;
    try discriminate H; vm_compute; repeat split.
Qed.

Lemma amount_sign_facts c :
  amount_sign c = true -> keep_char c = true /\ Ascii.eqb c "(" = false.
Proof.
  destruct c as [[] [] [] [] [] [] [] []]; intros H;
    try discriminate H; vm_compute; repeat split.
Qed.

(** A text of characters that [_only_digits] keeps reaches the test of
    the parentheses as it is. *)
Lemma parse_amount_kept l :
  l <> [] -> Forall (fun c => keep_char c = true) l ->
  parse_amount_idr (CStr (text l))
  = let '(neg, s) :=
      if startswith "(" (text l) && endswith ")" (text l)
      then (true, slice_1_m1 (text l)) else (false, text l) in
    let val := try_except (float_of_str (separators s)) fzero in
    round_idr (if neg then fneg val else val).
Proof.
  intros Hne Hl.
  assert (Hhead : forall l', Forall (fun c => keep_char c = true) l' ->
                    head_not_space l').
  { intros l' [|c l'' Hc _]; [exact I|]. now apply keep_char_facts. }
  assert (Hnone : forall a old,
            (forall c, keep_char c = true -> Ascii.eqb a c = false) ->
            replace_l (a :: old) [] O l = l).
  { intros a old Ha. apply replace_l_none.
    eapply Forall_impl; [exact Hl|]. exact Ha. }
  assert (Htok : fold_left (fun s token => replace token "" s)
                   currency_tokens (text l) = text l).
  { unfold currency_tokens. cbn [fold_left]. rewrite !replace_text.
    change (chars "Rp") with ["R"%char; "p"%char].
    change (chars "rp") with ["r"%char; "p"%char].
    change (chars "IDR") with ["I"%char; "D"%char; "R"%char].
    change (chars "idr") with ["i"%char; "d"%char; "r"%char].
    change (chars " ") with [" "%char]. change (chars "") with (@nil ascii).
    rewrite (Hnone "R"%char) by (intros c Hc; now apply keep_char_facts).
    rewrite (Hnone "r"%char) by (intros c Hc; now apply keep_char_facts).
    rewrite (Hnone "I"%char) by (intros c Hc; now apply keep_char_facts).
    rewrite (Hnone "i"%char) by (intros c Hc; now apply keep_char_facts).
    now rewrite (Hnone " "%char) by (intros c Hc; now apply keep_char_facts). }
  assert (Hkeep : _only_digits (text l) = text l).
  { unfold _only_digits. rewrite chars_text. f_equal.
    clear Hne Hnone Htok. induction Hl as [|x l Hx Hl IH]; [reflexivity|].
    cbn [List.filter]. now rewrite Hx, IH. }
  unfold parse_amount_idr.
  rewrite (strip_ends l)
    by (apply Hhead; first [exact Hl | now apply Forall_rev]).
  destruct l as [|c l]; [congruence|].
  change (String.eqb (text (c :: l)) "") with false. cbv iota.
  rewrite Htok, Hkeep.
  now destruct (startswith "(" (text (c :: l)) && endswith ")" (text (c :: l))).
Qed.

Lemma py_round_fneg v :
  py_round (fneg v)
  = match py_round v with
    | Ok n => Ok (- n)
    | Raise e => Raise e
    end.
Proof.
  destruct v as [s| s| |s m e]; try reflexivity.
  cbn [fneg SFopp py_round]. destruct s; cbn [negb]; f_equal; lia.
Qed.

(** An amount in parentheses is read as the opposite amount. For a text
    of characters that [_only_digits] keeps, none of them a parenthesis
    (digits, commas, dots and minus signs), [parse_amount_idr] rounds the
    text and the text in parentheses to opposite integers before it
    converts them to a float, and where the rounding of the one raises, so
    does that of the other. *)
Theorem parenthesised_amount (body : list ascii) :
  Forall (fun c => amount_sign c = true) body ->
  exists r : result Z,
    parse_amount_idr (CStr (text body)) = (n ← r; float_of_int n) /\
    parse_amount_idr (CStr (text ("("%char :: body ++ [")"%char])))
    = (n ← r; float_of_int (- n)).
Proof.
  intros Hbody.
  destruct body as [|c body].
  { exists (Ok 0). split; vm_compute; reflexivity. }
  set (l := c :: body) in *.
  exists (py_round (try_except (float_of_str (separators (text l))) fzero)).
  assert (Hkept : Forall (fun c => keep_char c = true) l).
  { eapply Forall_impl; [exact Hbody|]. intros x Hx.
    now apply amount_sign_facts. }
  split.
  - rewrite parse_amount_kept; [|discriminate|exact Hkept].
    assert (Hparen : startswith "(" (text l) = false).
    { unfold startswith, l. rewrite chars_text.
      apply Forall_cons in Hbody as [Hc _]. now apply amount_sign_facts. }
    rewrite Hparen. reflexivity.
  - rewrite parse_amount_kept; [|discriminate|].
    + assert (Hs : startswith "(" (text ("("%char :: l ++ [")"%char])) = true)
        by reflexivity.
      assert (He : endswith ")" (text ("("%char :: l ++ [")"%char])) = true).
      { unfold endswith. rewrite chars_text. cbn [rev].
        rewrite rev_app_distr. reflexivity. }
      assert (Hslice : slice_1_m1 (text ("("%char :: l ++ [")"%char]))
                       = text l).
      { unfold slice_1_m1. rewrite chars_text. cbn [tl].
        now rewrite removelast_last. }
      rewrite Hs, He, Hslice. cbn [andb]. unfold round_idr.
      rewrite py_round_fneg.
      now destruct (py_round _).
    + constructor; [reflexivity|]. apply Forall_app. split; [exact Hkept|].
      now repeat constructor.
Qed.

Lemma parenthesised_amount_witness :
  exists r : result Z,
    parse_amount_idr (CStr (text (chars "1.500,5")))
    = (n ← r; float_of_int n) /\
    parse_amount_idr
      (CStr (text ("("%char :: chars "1.500,5" ++ [")"%char])))
    = (n ← r; float_of_int (- n)).
Proof.
  apply (parenthesised_amount (chars "1.500,5")).
  repeat constructor.
Defined.
